(** * pesalink-validator: the batch validation engine, embedded in Rocq

    A shallow embedding of the bulk account validator
    (app/models, app/core and app/api of the repository, and the JSON
    reader of app/utils/file_parser.py) together with the properties
    its specification states about it and further ones that the code
    shows.

    Python objects are records, Python values that come from input files
    or from the remote service are elements of [PyVal], the mutable
    client object, the network, the identifier generator and the clock
    live in an explicit [State] threaded by the monad [M], and Python
    exceptions are the [Raise] results of that monad.

    What lies outside the repository is taken as follows. The boundary
    with the network is the [requests] library: the environment gives,
    for each call that the program makes to [requests.request] or
    [requests.get], what that call meets, the response that the library
    returns (the last one, when it followed redirects on its own) or the
    exception that it raises (before sending, as [InvalidJSONError] for
    a payload that it cannot serialise, or after). Nothing is assumed
    about these outcomes, and every call and every sleep is recorded on
    a trace: an event of the trace is a call of the program, not what
    the library does on the wire to serve it. The library raises as its
    documentation says ([raise_for_status] for a status from 400 to 599,
    a [RequestException] when a body does not parse). [time.sleep] is
    that of CPython 3.5 or later, which converts the duration to a count
    of nanoseconds in 64 bits before anything else; whether the
    platform then accepts a duration is for the environment to say.
    [uuid.uuid4] never gives the same identifier twice. The thread pool
    runs its tasks one after the other in the order of submission and
    hands the futures back in an order that the environment chooses;
    finer interleavings of the workers are not part of this embedding.
    Texts are sequences of bytes, and [lower] is Python's [str.lower]
    as far as the letters of ASCII go. Python's method also changes
    characters outside ASCII, and leaves the lower-case ASCII letters of
    a text where they are: a lower-case ASCII text that a message
    contains is found in the lowered message by both, whereas a
    statement that tells what is not found there is made for ASCII
    messages only.

    The file has two parts: the embedding, with the vocabulary of the
    statements and some sample inputs, then the properties. *)

From Stdlib Require Import ZArith String Ascii List Lia PrimFloat Uint63 DecimalString.
From stdpp Require Import base option list gmap strings.

Import ListNotations.
#[local] Set Warnings "-register-all".
Local Open Scope string_scope.
Local Open Scope list_scope.
Local Open Scope Z_scope.

(* ===================================================================== *)
(** ** Python values *)
(* ===================================================================== *)

(** Values as [json.load] and [response.json()] produce them; account
    fields read from an input file are such values too, since
    [Account.from_dict] stores whatever [data.get] returns. *)
Inductive PyVal : Type :=
| PyNone
| PyBool (b : bool)
| PyInt (z : Z)
| PyFloat (f : float)
| PyStr (s : string)
| PyList (items : list PyVal)
| PyDict (entries : list (string * PyVal)).

(** Python's truth value of an object, as [not x] and [x or y] test it. *)
Definition truthy (v : PyVal) : bool :=
  match v with
  | PyNone => false
  | PyBool b => b
  | PyInt z => negb (z =? 0)
  | PyFloat f => negb (PrimFloat.eqb f 0%float)
  | PyStr s => negb (String.eqb s "")
  | PyList items => match items with [] => false | _ => true end
  | PyDict entries => match entries with [] => false | _ => true end
  end.

(** [isinstance(v, str)] *)
Definition is_str (v : PyVal) : bool :=
  match v with PyStr _ => true | _ => false end.

(** [d.get(key)] on the entries of a dict. *)
Fixpoint dict_get (key : string) (entries : list (string * PyVal)) : option PyVal :=
  match entries with
  | [] => None
  | (k, v) :: rest => if String.eqb k key then Some v else dict_get key rest
  end.

Definition dict_has (key : string) (entries : list (string * PyVal)) : bool :=
  match dict_get key entries with Some _ => true | None => false end.

(** ** Text *)

(** [s.lower()] on ASCII text: on other text Python's method also
    changes characters outside ASCII. *)
Definition lower_ascii (c : ascii) : ascii :=
  let n := nat_of_ascii c in
  if ((65 <=? n) && (n <=? 90))%nat then ascii_of_nat (n + 32) else c.

Fixpoint lower (s : string) : string :=
  match s with
  | EmptyString => EmptyString
  | String c rest => String (lower_ascii c) (lower rest)
  end.

(** [needle in hay] for two strings. *)
Fixpoint str_contains (needle hay : string) : bool :=
  if String.prefix needle hay then true
  else match hay with
       | EmptyString => false
       | String _ rest => str_contains needle rest
       end.

(** ** Ranges and slices *)

(** [range(start, stop, step)]; [None] is the [ValueError] that a zero
    step raises. *)
Definition py_range (start stop step : Z) : option (list Z) :=
  if step =? 0 then None
  else if 0 <? step then
    Some (map (fun k => start + Z.of_nat k * step)
              (seq 0 (Z.to_nat ((stop - start + step - 1) / step))))
  else
    Some (map (fun k => start + Z.of_nat k * step)
              (seq 0 (Z.to_nat ((start - stop - step - 1) / (- step))))).

(** One bound of a slice, clamped as Python does. *)
Definition slice_bound {A} (l : list A) (i : Z) : nat :=
  let n := Z.of_nat (length l) in
  let i' := if i <? 0 then i + n else i in
  Z.to_nat (Z.max 0 (Z.min n i')).

(** [l[i:j]] *)
Definition py_slice {A} (l : list A) (i j : Z) : list A :=
  let lo := slice_bound l i in
  let hi := slice_bound l j in
  firstn (hi - lo) (skipn lo l).

(* ===================================================================== *)
(** ** Data model (app/models) *)
(* ===================================================================== *)

(** [Account] *)
Record Account : Type := {
  account_number : PyVal;
  bank_code : PyVal;
  reference_id : PyVal;
  amount : float;
  currency : PyVal;
  account_name : PyVal;
  phone_number : PyVal;
  transaction_type : PyVal
}.

(** [Account.validate_format]: the model-level format check. *)
Definition validate_format (self : Account) : bool :=
  if negb (truthy (account_number self)) || negb (truthy (bank_code self)) then false
  else if negb (is_str (account_number self)) then false
  else if negb (is_str (bank_code self)) then false
  else true.

(** [ValidationStatus] *)
Inductive ValidationStatus : Type := VALID | INVALID | ERROR | PENDING.

Definition status_eqb (a b : ValidationStatus) : bool :=
  match a, b with
  | VALID, VALID | INVALID, INVALID | ERROR, ERROR | PENDING, PENDING => true
  | _, _ => false
  end.

(** An HTTP response as the client looks at it: the status code and the
    body, which is absent, a JSON document, or bytes that do not parse. *)
Inductive Body : Type :=
| NoContent
| JsonText (v : PyVal)
| Garbled.

Record Response : Type := {
  status_code : Z;
  content : Body
}.

(** The exceptions that reach the engine. Those of [requests.exceptions]
    are [ConnectionError], [Timeout], [HTTPError] (raised by
    [raise_for_status], carrying the response), [TooManyRedirects]
    (carrying the last response of the chain), [JSONDecodeError]
    (raised by [response.json()], a [RequestException] since requests
    2.27) and [RequestException] for every other one, which carries no
    response ([InvalidJSONError] among them). [OverflowError] and
    [OSError] are what [time.sleep] raises besides [ValueError]. *)
Inductive Exn : Type :=
| ConnectionError
| Timeout
| HTTPError (response : Response)
| JSONDecodeError
| RequestException
| AttributeError
| TypeError
| ValueError
| OtherException
| TooManyRedirects (response : Response)
| OverflowError
| OSError.

(** What an error message holds: a value taken from a response, or
    [str(e)] of an exception. *)
Inductive PyText : Type :=
| Value (v : PyVal)
| StrOf (e : Exn).

(** [ValidationResult] *)
Record ValidationResult : Type := {
  account : Account;
  status : ValidationStatus;
  validated_name : PyVal;
  account_status : option string;
  error_code : option string;
  error_message : PyText;
  bank_name : PyVal
}.

(** [ValidationResult(account=a, status=s, error_code=code,
    error_message=message)], the other fields at their default. *)
Definition failure_result (a : Account) (s : ValidationStatus)
    (code : string) (message : PyText) : ValidationResult :=
  {| account := a; status := s; validated_name := PyNone; account_status := None;
     error_code := Some code; error_message := message; bank_name := PyNone |}.

(** A future of the thread pool once its task has run: the account it
    was submitted for and the task's result or exception. *)
Record Future : Type := {
  future_account : Account;
  future_outcome : ValidationResult + Exn
}.

(** Batch identifiers: [Uuid n] is the [n]-th identifier drawn from
    [uuid.uuid4]; two draws never give the same identifier. *)
Inductive Uuid : Type := uuid (n : nat).

(** [Batch]; times are readings of the clock, in microseconds, and
    [batch_status] is the field [status] of the class. *)
Record Batch : Type := {
  accounts : list Account;
  batch_id : Uuid;
  created_at : Z;
  processed_at : option Z;
  batch_status : string;
  total_accounts : Z;
  metadata : gmap string PyVal
}.

(** [BatchValidationResult]; [bvr_batch_id] is its field [batch_id]. *)
Record BatchValidationResult : Type := {
  bvr_batch_id : Uuid;
  results : list ValidationResult;
  started_at : Z;
  completed_at : option Z;
  processing_time : option Z
}.

(** [Batch(accounts=..., metadata=...)] once the identifier and the
    creation time are drawn: [__post_init__] sets [total_accounts]. *)
Definition new_batch (accs : list Account) (id : Uuid) (now : Z)
    (meta : gmap string PyVal) : Batch :=
  {| accounts := accs; batch_id := id; created_at := now; processed_at := None;
     batch_status := "pending"; total_accounts := Z.of_nat (length accs);
     metadata := meta |}.

(** [Batch.mark_processed] *)
Definition mark_processed (self : Batch) (now : Z) : Batch :=
  {| accounts := accounts self; batch_id := batch_id self; created_at := created_at self;
     processed_at := Some now; batch_status := "processed";
     total_accounts := total_accounts self; metadata := metadata self |}.

(** [BatchValidationResult.mark_completed] *)
Definition mark_completed (self : BatchValidationResult) (now : Z) : BatchValidationResult :=
  {| bvr_batch_id := bvr_batch_id self; results := results self;
     started_at := started_at self; completed_at := Some now;
     processing_time := Some (now - started_at self) |}.

(** [sum(1 for r in results if r.status == s)] *)
Definition count_status (s : ValidationStatus) (rs : list ValidationResult) : nat :=
  length (List.filter (fun r => status_eqb (status r) s) rs).

Definition valid_count (self : BatchValidationResult) : nat := count_status VALID (results self).
Definition invalid_count (self : BatchValidationResult) : nat := count_status INVALID (results self).
Definition error_count (self : BatchValidationResult) : nat := count_status ERROR (results self).

(* ===================================================================== *)
(** ** Configuration (app/config.py) *)
(* ===================================================================== *)

Record Config : Type := {
  PESALINK_API_BASE_URL : string;
  PESALINK_API_KEY : PyVal;
  MAX_BATCH_SIZE : Z;
  WORKER_THREADS : Z;
  REQUEST_TIMEOUT : Z;
  MAX_RETRIES : Z;
  RETRY_DELAY : Z;
  ENABLE_PARALLEL_PROCESSING : bool
}.

(* ===================================================================== *)
(** ** The world the engine runs in *)
(* ===================================================================== *)

(** What one call of [requests.request] or [requests.get] meets: an
    exception of the library, or the response that it returns. *)
Inductive Attempt : Type :=
| NetConnectionError
| NetTimeout
| NetRequestException
| NetOtherException
| NetResponse (r : Response)
| NetTooManyRedirects (r : Response).

(** What the engine does to the outside, in order: its calls to the
    [requests] library and its sleeps. *)
Inductive Event : Type :=
| EvHttp (method url : string) (payload : PyVal)
| EvSleep (seconds : Z).

(** The environment: what the [n]-th call to the [requests] library
    meets, the [n]-th reading of the clock, the order in which the
    futures of a thread pool complete, and whether the platform refuses
    the sleep that is asked for once [n] calls have been made (a
    duration beyond what its clock can hold). *)
Record Env : Type := {
  net : nat -> Attempt;
  wallclock : nat -> Z;
  as_completed : list Future -> list Future;
  sleep_refused : nat -> bool
}.

(** [PesaLinkClient]: the only object of the engine that is mutated
    while it runs ([api_key] is fetched on first use). *)
Record PesaLinkClient : Type := {
  base_url : string;
  api_key : PyVal;
  timeout : Z;
  max_retries : Z;
  retry_delay : Z
}.

Definition PesaLinkClient_init (config : Config) : PesaLinkClient :=
  {| base_url := PESALINK_API_BASE_URL config;
     api_key := PESALINK_API_KEY config;
     timeout := REQUEST_TIMEOUT config;
     max_retries := MAX_RETRIES config;
     retry_delay := RETRY_DELAY config |}.

Definition with_api_key (self : PesaLinkClient) (key : PyVal) : PesaLinkClient :=
  {| base_url := base_url self; api_key := key; timeout := timeout self;
     max_retries := max_retries self; retry_delay := retry_delay self |}.

Record State : Type := {
  client : PesaLinkClient;
  net_pos : nat;
  uuid_pos : nat;
  clock_pos : nat;
  trace : list Event
}.

Definition initial_state (config : Config) : State :=
  {| client := PesaLinkClient_init config; net_pos := 0; uuid_pos := 0;
     clock_pos := 0; trace := [] |}.

(** ** The monad of the engine *)

(** A computation ends with a value or with a raised exception. *)
Inductive Res (A : Type) : Type :=
| Ok (a : A)
| Raise (e : Exn).
Arguments Ok {A} a.
Arguments Raise {A} e.

Definition M (A : Type) : Type := State -> Res A * State.

#[global] Instance M_ret : MRet M := fun A a st => (Ok a, st).

#[global] Instance M_bind : MBind M := fun A B f m st =>
  match m st with
  | (Ok a, st') => f a st'
  | (Raise e, st') => (Raise e, st')
  end.

Definition raise {A} (e : Exn) : M A := fun st => (Raise e, st).

(** [try: body  except Exception as e: handler e] *)
Definition try_except {A} (body : M A) (handler : Exn -> M A) : M A := fun st =>
  match body st with
  | (Raise e, st') => handler e st'
  | other => other
  end.

Definition get_client : M PesaLinkClient := fun st => (Ok (client st), st).

Definition set_api_key (key : PyVal) : M unit := fun st =>
  (Ok tt, {| client := with_api_key (client st) key; net_pos := net_pos st;
             uuid_pos := uuid_pos st; clock_pos := clock_pos st; trace := trace st |}).

(** The state once one more event is on the trace, and once one more
    answer of the network is used up. *)
Definition record_event (ev : Event) (st : State) : State :=
  {| client := client st; net_pos := net_pos st; uuid_pos := uuid_pos st;
     clock_pos := clock_pos st; trace := trace st ++ [ev] |}.

Definition advance_net (st : State) : State :=
  {| client := client st; net_pos := S (net_pos st); uuid_pos := uuid_pos st;
     clock_pos := clock_pos st; trace := trace st |}.

Definition emit (ev : Event) : M unit := fun st => (Ok tt, record_event ev st).

(** [str(uuid.uuid4())] *)
Definition uuid4 : M Uuid := fun st =>
  (Ok (uuid (uuid_pos st)),
   {| client := client st; net_pos := net_pos st; uuid_pos := S (uuid_pos st);
      clock_pos := clock_pos st; trace := trace st |}).

(** [for x in xs: acc = step acc x] with effects. *)
Fixpoint foldM {A B} (step : B -> A -> M B) (acc : B) (xs : list A) : M B :=
  match xs with
  | [] => mret acc
  | x :: rest => acc' ← step acc x; foldM step acc' rest
  end.

(** [[f x for x in xs]] with effects. *)
Fixpoint mapM {A B} (f : A -> M B) (xs : list A) : M (list B) :=
  match xs with
  | [] => mret []
  | x :: rest => y ← f x; ys ← mapM f rest; mret (y :: ys)
  end.

Section Engine.

Variable env : Env.

(** [datetime.now()] *)
Definition datetime_now : M Z := fun st =>
  (Ok (wallclock env (clock_pos st)),
   {| client := client st; net_pos := net_pos st; uuid_pos := uuid_pos st;
      clock_pos := S (clock_pos st); trace := trace st |}).

(** [requests.request(method, url, json=payload, ...)] *)
Definition requests_request (method url : string) (payload : PyVal) : M Response := fun st =>
  let st' := advance_net (record_event (EvHttp method url payload) st) in
  match net env (net_pos st) with
  | NetConnectionError => (Raise ConnectionError, st')
  | NetTimeout => (Raise Timeout, st')
  | NetRequestException => (Raise RequestException, st')
  | NetOtherException => (Raise OtherException, st')
  | NetResponse r => (Ok r, st')
  | NetTooManyRedirects r => (Raise (TooManyRedirects r), st')
  end.

(** [response.raise_for_status()] *)
Definition raise_for_status (r : Response) : M unit :=
  if (400 <=? status_code r) && (status_code r <? 600) then raise (HTTPError r)
  else mret tt.

(** [response.json()] *)
Definition response_json (r : Response) : M PyVal :=
  match content r with
  | JsonText v => mret v
  | NoContent | Garbled => raise JSONDecodeError
  end.

(** [if response.content] *)
Definition has_content (r : Response) : bool :=
  match content r with NoContent => false | _ => true end.

(** [time.sleep(seconds)] for an integer: the duration is converted to
    nanoseconds in 64 bits, which fails beyond 9223372036 seconds on
    either side; a negative duration is then refused, and it is for the
    platform to accept the others. *)
Definition time_sleep (seconds : Z) : M unit := fun st =>
  if (seconds <? -9223372036) || (9223372036 <? seconds) then (Raise OverflowError, st)
  else if seconds <? 0 then (Raise ValueError, st)
  else if sleep_refused env (net_pos st) then (Raise OSError, st)
  else (Ok tt, record_event (EvSleep seconds) st).

(* ===================================================================== *)
(** ** Error taxonomy (app/core/error_handler.py) *)
(* ===================================================================== *)

(** [ErrorCode]: the enumeration of the codes of the system. *)
Inductive ErrorCode : Type :=
| INVALID_FORMAT | MISSING_FIELD | INVALID_BANK_CODE | INVALID_ACCOUNT_NUMBER
| ACCOUNT_NOT_FOUND | ACCOUNT_INACTIVE | ACCOUNT_CLOSED | ACCOUNT_BLOCKED
| API_ERROR | CONNECTION_ERROR | TIMEOUT_ERROR | AUTHENTICATION_ERROR | RATE_LIMIT_ERROR
| INVALID_ACCOUNT | BANK_NOT_FOUND | INVALID_REQUEST
| UNKNOWN_ERROR.

(** [code.value] *)
Definition ErrorCode_value (code : ErrorCode) : string :=
  match code with
  | INVALID_FORMAT => "INVALID_FORMAT"
  | MISSING_FIELD => "MISSING_FIELD"
  | INVALID_BANK_CODE => "INVALID_BANK_CODE"
  | INVALID_ACCOUNT_NUMBER => "INVALID_ACCOUNT_NUMBER"
  | ACCOUNT_NOT_FOUND => "ACCOUNT_NOT_FOUND"
  | ACCOUNT_INACTIVE => "ACCOUNT_INACTIVE"
  | ACCOUNT_CLOSED => "ACCOUNT_CLOSED"
  | ACCOUNT_BLOCKED => "ACCOUNT_BLOCKED"
  | API_ERROR => "API_ERROR"
  | CONNECTION_ERROR => "CONNECTION_ERROR"
  | TIMEOUT_ERROR => "TIMEOUT_ERROR"
  | AUTHENTICATION_ERROR => "AUTHENTICATION_ERROR"
  | RATE_LIMIT_ERROR => "RATE_LIMIT_ERROR"
  | INVALID_ACCOUNT => "INVALID_ACCOUNT"
  | BANK_NOT_FOUND => "BANK_NOT_FOUND"
  | INVALID_REQUEST => "INVALID_REQUEST"
  | UNKNOWN_ERROR => "UNKNOWN_ERROR"
  end.

Definition all_error_codes : list ErrorCode :=
  [INVALID_FORMAT; MISSING_FIELD; INVALID_BANK_CODE; INVALID_ACCOUNT_NUMBER;
   ACCOUNT_NOT_FOUND; ACCOUNT_INACTIVE; ACCOUNT_CLOSED; ACCOUNT_BLOCKED;
   API_ERROR; CONNECTION_ERROR; TIMEOUT_ERROR; AUTHENTICATION_ERROR; RATE_LIMIT_ERROR;
   INVALID_ACCOUNT; BANK_NOT_FOUND; INVALID_REQUEST; UNKNOWN_ERROR].

(** [ErrorCode.map_pesalink_error] *)
Definition map_pesalink_error (status_code : Z) (message : string) : string :=
  if status_code =? 400 then ErrorCode_value INVALID_REQUEST
  else if status_code =? 404 then
    if str_contains "account" (lower message) then ErrorCode_value ACCOUNT_NOT_FOUND
    else if str_contains "bank" (lower message) then ErrorCode_value BANK_NOT_FOUND
    else ErrorCode_value INVALID_ACCOUNT
  else if (status_code =? 401) || (status_code =? 403) then ErrorCode_value AUTHENTICATION_ERROR
  else if status_code =? 429 then ErrorCode_value RATE_LIMIT_ERROR
  else if 500 <=? status_code then ErrorCode_value API_ERROR
  else ErrorCode_value UNKNOWN_ERROR.

(* ===================================================================== *)
(** ** The remote validation client (app/api/pesalink_client.py) *)
(* ===================================================================== *)

(** What [_make_request] hands back: a parsed body, or the dict
    [{"error": str(e)}] it builds itself for a rejection without body. *)
Inductive Reply : Type :=
| Parsed (v : PyVal)
| ErrorOnly (e : Exn).

(** How one pass through the body of the retry loop ends. *)
Inductive LoopStep : Type :=
| Return (r : Reply)
| Continue.

(** [isinstance(e, (ConnectionError, Timeout))] *)
Definition is_connection_or_timeout (e : Exn) : bool :=
  match e with ConnectionError | Timeout => true | _ => false end.

(** [isinstance(e, RequestException)] *)
Definition is_request_exception (e : Exn) : bool :=
  match e with
  | ConnectionError | Timeout | HTTPError _ | JSONDecodeError | RequestException
  | TooManyRedirects _ => true
  | _ => false
  end.

(** [e.response] *)
Definition exn_response (e : Exn) : option Response :=
  match e with HTTPError r | TooManyRedirects r => Some r | _ => None end.

(** [PesaLinkClient._fetch_api_key] *)
Definition _fetch_api_key : M PyVal :=
  try_except
    (self ← get_client;
     response ← requests_request "GET" (base_url self +:+ "/api/key") PyNone;
     _ ← raise_for_status response;
     data ← response_json response;
     api_key ← match data with
               | PyDict entries => mret (default PyNone (dict_get "apiKey" entries))
               | _ => raise AttributeError
               end;
     if negb (truthy api_key) then raise ValueError
     else mret api_key)
    (fun e => raise e).

(** [PesaLinkClient._get_api_key] *)
Definition _get_api_key : M PyVal :=
  self ← get_client;
  if negb (truthy (api_key self)) then
    key ← _fetch_api_key;
    _ ← set_api_key key;
    self' ← get_client;
    mret (api_key self')
  else mret (api_key self).

(** The [for attempt in range(self.max_retries)] loop of
    [_make_request], over the attempt numbers still to come. *)
Fixpoint _make_request_loop (method url : string) (data : PyVal) (attempts : list Z)
    : M Reply :=
  match attempts with
  | [] => mret (Parsed PyNone)
  | attempt :: rest =>
    self ← get_client;
    step ← try_except
      (response ← requests_request method url data;
       _ ← raise_for_status response;
       if has_content response then
         v ← response_json response; mret (Return (Parsed v))
       else mret (Return (Parsed (PyDict []))))
      (fun e =>
         if is_connection_or_timeout e then
           if attempt <? max_retries self - 1 then
             _ ← time_sleep (retry_delay self * 2 ^ attempt); mret Continue
           else raise e
         else if is_request_exception e then
           match exn_response e with
           | None => raise AttributeError
           | Some r =>
             if (400 <=? status_code r) && (status_code r <? 500) then
               if has_content r then
                 v ← response_json r; mret (Return (Parsed v))
               else mret (Return (ErrorOnly e))
             else if attempt <? max_retries self - 1 then
               _ ← time_sleep (retry_delay self * 2 ^ attempt); mret Continue
             else raise e
           end
         else raise e);
    match step with
    | Return r => mret r
    | Continue => _make_request_loop method url data rest
    end
  end.

(** [range(n)] *)
Definition range (n : Z) : list Z := map Z.of_nat (seq 0 (Z.to_nat n)).

(** [PesaLinkClient._make_request] *)
Definition _make_request (method endpoint : string) (data : PyVal) : M Reply :=
  self ← get_client;
  let url := base_url self +:+ endpoint in
  _ ← _get_api_key;
  _make_request_loop method url data (range (max_retries self)).

(** [{"accountNumber": ..., "bankCode": ...}] *)
Definition request_data (a : Account) : PyVal :=
  PyDict [("accountNumber", account_number a); ("bankCode", bank_code a)].

(** ["error" in response] *)
Definition has_error_member (response : Reply) : M bool :=
  match response with
  | ErrorOnly _ => mret true
  | Parsed (PyDict entries) => mret (dict_has "error" entries)
  | Parsed (PyList items) =>
    mret (existsb (fun v => match v with PyStr s => String.eqb s "error" | _ => false end) items)
  | Parsed (PyStr s) => mret (str_contains "error" s)
  | Parsed _ => raise TypeError
  end.

(** [response.get(key, fallback)] *)
Definition reply_get (response : Reply) (key : string) (fallback : PyVal) : M PyText :=
  match response with
  | ErrorOnly e => mret (if String.eqb key "error" then StrOf e else Value fallback)
  | Parsed (PyDict entries) => mret (Value (default fallback (dict_get key entries)))
  | Parsed _ => raise AttributeError
  end.

Definition text_value (t : PyText) : PyVal :=
  match t with Value v => v | StrOf _ => PyNone end.

Definition is_Valid (t : PyText) : bool :=
  match t with Value (PyStr s) => String.eqb s "Valid" | _ => false end.

(** The result the [except Exception] clause of [validate_account]
    builds. *)
Definition exception_result (a : Account) (e : Exn) : ValidationResult :=
  failure_result a ERROR "EXCEPTION" (StrOf e).

(** [PesaLinkClient.validate_account] *)
Definition validate_account (a : Account) : M ValidationResult :=
  try_except
    (response ← _make_request "POST" "/api/validate" (request_data a);
     failed ← has_error_member response;
     if failed : bool then
       (message ← reply_get response "error" (PyStr "Unknown API error");
        mret (failure_result a ERROR "API_ERROR" message)) : M ValidationResult
     else
       st ← reply_get response "status" PyNone;
       if is_Valid st then
         (holder ← reply_get response "accountHolderName" PyNone;
          bank ← reply_get response "bankName" PyNone;
          mret {| account := a; status := VALID; validated_name := text_value holder;
                  account_status := Some "ACTIVE"; error_code := None;
                  error_message := Value PyNone; bank_name := text_value bank |})
         : M ValidationResult
       else
         message ← reply_get response "status" (PyStr "Account validation failed");
         mret (failure_result a INVALID "INVALID_ACCOUNT" message))
    (fun e => mret (exception_result a e)).

(* ===================================================================== *)
(** ** The validator (app/core/validator.py) *)
(* ===================================================================== *)

(** [x or fallback] for an optional integer argument. *)
Definition int_or (x : option Z) (fallback : Z) : Z :=
  match x with
  | Some z => if z =? 0 then fallback else z
  | None => fallback
  end.

(** [AccountValidator]; its [pesalink_client] is the client of the
    [State]. *)
Record AccountValidator : Type := {
  use_parallel : bool;
  worker_threads : Z
}.

Definition AccountValidator_init (config : Config) (use_parallel : bool)
    (worker_threads : option Z) : AccountValidator :=
  {| use_parallel := use_parallel && ENABLE_PARALLEL_PROCESSING config;
     worker_threads := int_or worker_threads (WORKER_THREADS config) |}.

(** [AccountValidator._validate_format] *)
Definition _validate_format (a : Account) : bool :=
  if negb (truthy (account_number a)) then false
  else if negb (truthy (bank_code a)) then false
  else true.

(** [AccountValidator.validate_single] *)
Definition validate_single (a : Account) : M ValidationResult :=
  try_except
    (if negb (_validate_format a) then
       mret (failure_result a INVALID (ErrorCode_value INVALID_FORMAT)
               (Value (PyStr "Account number format is invalid")))
     else validate_account a)
    (fun e => mret (failure_result a ERROR (ErrorCode_value UNKNOWN_ERROR) (StrOf e))).

(** [executor.submit(self.validate_single, account)], run to its end. *)
Definition submit (a : Account) : M Future := fun st =>
  match validate_single a st with
  | (Ok r, st') => (Ok {| future_account := a; future_outcome := inl r |}, st')
  | (Raise e, st') => (Ok {| future_account := a; future_outcome := inr e |}, st')
  end.

(** The body of the [for future in as_completed(...)] loop. *)
Definition collect (f : Future) : ValidationResult :=
  match future_outcome f with
  | inl result => result
  | inr e => failure_result (future_account f) ERROR (ErrorCode_value UNKNOWN_ERROR) (StrOf e)
  end.

(** [AccountValidator.validate_batch]. In the parallel mode the tasks
    are run one after the other, in the order of submission, against the
    shared client, and the environment decides the order in which the
    futures are handed back; [ThreadPoolExecutor] refuses a worker count
    that is not positive. *)
Definition validate_batch (self : AccountValidator) (accs : list Account)
    : M (list ValidationResult) :=
  if negb (use_parallel self) then mapM validate_single accs
  else if worker_threads self <=? 0 then raise ValueError
  else
    futures ← mapM submit accs;
    mret (map collect (as_completed env futures)).

(** The dict [{"valid": ..., "invalid": ...}] of [pre_validate_batch]. *)
Record PreValidation : Type := {
  valid_accounts : list Account;
  invalid_accounts : list Account
}.

(** [AccountValidator.pre_validate_batch] *)
Definition pre_validate_batch (accs : list Account) : PreValidation :=
  {| valid_accounts := List.filter _validate_format accs;
     invalid_accounts := List.filter (fun a => negb (_validate_format a)) accs |}.

(* ===================================================================== *)
(** ** Splitting (app/models/batch.py) *)
(* ===================================================================== *)

(** [Batch(accounts=accs, metadata=meta)]: the identifier and the
    creation time are drawn by the default factories, in field order. *)
Definition Batch_init (accs : list Account) (meta : gmap string PyVal) : M Batch :=
  id ← uuid4;
  now ← datetime_now;
  mret (new_batch accs id now meta).

(** [Batch.split] *)
Definition Batch_split (batch : Batch) (max_size : Z) : M (list Batch) :=
  if Z.of_nat (length (accounts batch)) <=? max_size then mret [batch]
  else
    match py_range 0 (Z.of_nat (length (accounts batch))) max_size with
    | None => raise ValueError
    | Some starts =>
      mapM (fun i => Batch_init (py_slice (accounts batch) i (i + max_size)) (metadata batch))
           starts
    end.

(* ===================================================================== *)
(** ** The batch processor (app/core/processor.py) *)
(* ===================================================================== *)

(** [BatchProcessor]; [bp_worker_threads] is its [worker_threads]. *)
Record BatchProcessor : Type := {
  max_batch_size : Z;
  bp_worker_threads : Z;
  enable_parallel : bool;
  validator : AccountValidator
}.

Definition BatchProcessor_init (config : Config) (max_batch_size worker_threads : option Z)
    (enable_parallel : bool) : BatchProcessor :=
  let size := int_or max_batch_size (MAX_BATCH_SIZE config) in
  let workers := int_or worker_threads (WORKER_THREADS config) in
  let parallel := enable_parallel && ENABLE_PARALLEL_PROCESSING config in
  {| max_batch_size := size;
     bp_worker_threads := workers;
     enable_parallel := parallel;
     validator := AccountValidator_init config parallel (Some workers) |}.

(** The outcome given to an account that fails the format check. *)
Definition format_outcome (a : Account) : ValidationResult :=
  failure_result a INVALID "INVALID_FORMAT" (Value (PyStr "Account format is invalid")).

(** [BatchValidationResult(batch_id=id, results=rs)] *)
Definition BatchValidationResult_init (id : Uuid) (rs : list ValidationResult)
    : M BatchValidationResult :=
  now ← datetime_now;
  mret {| bvr_batch_id := id; results := rs; started_at := now;
          completed_at := None; processing_time := None |}.

Definition with_results (self : BatchValidationResult) (rs : list ValidationResult)
    : BatchValidationResult :=
  {| bvr_batch_id := bvr_batch_id self; results := rs; started_at := started_at self;
     completed_at := completed_at self; processing_time := processing_time self |}.

(** [BatchProcessor.process_batch]. The recursion of the source is
    bounded here by [fuel], and [None] says that the fuel was spent; the
    value returned otherwise is the batch result together with the batch
    object as the call leaves it. *)
Fixpoint process_batch (fuel : nat) (self : BatchProcessor) (batch : Batch)
    : M (option (BatchValidationResult * Batch)) :=
  match fuel with
  | O => mret None
  | S fuel' =>
    if max_batch_size self <? total_accounts batch then
      sub_batches ← Batch_split batch (max_batch_size self);
      all_results ← foldM
        (fun (all_results : option (list ValidationResult)) sub_batch =>
           sub_result ← process_batch fuel' self sub_batch;
           mret (rs ← all_results; sub ← sub_result; Some (rs ++ results (fst sub))))
        (Some []) sub_batches;
      result ← BatchValidationResult_init (batch_id batch) (default [] all_results);
      now ← datetime_now;
      mret (_ ← all_results; Some (mark_completed result now, batch))
    else
      batch_result ← BatchValidationResult_init (batch_id batch) [];
      let pre_validation := pre_validate_batch (accounts batch) in
      let rejected := map format_outcome (invalid_accounts pre_validation) in
      valid_format_results ← validate_batch (validator self) (valid_accounts pre_validation);
      processed ← datetime_now;
      now ← datetime_now;
      mret (Some
        (mark_completed (with_results batch_result (rejected ++ valid_format_results)) now,
         mark_processed batch processed))
  end.

(** [time.time()] *)
Definition time_time : M Z := datetime_now.

(** [BatchProcessor.process] *)
Definition process (fuel : nat) (self : BatchProcessor) (accs : list Account)
    : M (option (list ValidationResult)) :=
  match accs with
  | [] => mret (Some [])
  | _ =>
    start_time ← time_time;
    batch ← Batch_init accs ∅;
    result ← process_batch fuel self batch;
    end_time ← time_time;
    mret (r ← result; Some (results (fst r)))
  end.

End Engine.

(** ** Statistics ([BatchProcessor.get_statistics]) *)

(** [a / b] on two counts: Python's true division, in binary64. A count
    below 2^53, as the length of a list in memory always is, converts
    exactly, so that the quotient is the correctly rounded one. *)
Definition float_of_count (n : nat) : float := PrimFloat.of_uint63 (Uint63.of_Z (Z.of_nat n)).

Definition true_div (a b : nat) : float := (float_of_count a / float_of_count b)%float.

(** [(count / total) * 100 if total > 0 else 0] *)
Definition percent (count total : nat) : PyVal :=
  if (0 <? total)%nat then PyFloat (true_div count total * float_of_count 100)%float
  else PyInt 0.

(** [r.error_code] read as a condition. *)
Definition code_truthy (code : option string) : bool :=
  match code with
  | Some c => negb (String.eqb c "")
  | None => false
  end.

(** The body of the loop that groups the error codes. *)
Definition count_code (codes : gmap string nat) (r : ValidationResult) : gmap string nat :=
  match error_code r with
  | Some c =>
    if (status_eqb (status r) INVALID || status_eqb (status r) ERROR) && code_truthy (Some c)
    then <[c := (default 0%nat (codes !! c) + 1)%nat]> codes
    else codes
  | None => codes
  end.

(** The dict that [get_statistics] returns. *)
Record Statistics : Type := {
  total : nat;
  valid : nat;
  invalid : nat;
  error : nat;
  valid_percent : PyVal;
  invalid_percent : PyVal;
  error_percent : PyVal;
  error_codes : gmap string nat
}.

(** [BatchProcessor.get_statistics] *)
Definition get_statistics (rs : list ValidationResult) : Statistics :=
  let total := length rs in
  let valid_count := count_status VALID rs in
  let invalid_count := count_status INVALID rs in
  let error_count := count_status ERROR rs in
  {| total := total;
     valid := valid_count;
     invalid := invalid_count;
     error := error_count;
     valid_percent := percent valid_count total;
     invalid_percent := percent invalid_count total;
     error_percent := percent error_count total;
     error_codes := fold_left count_code rs ∅ |}.

(* ===================================================================== *)
(** ** Vocabulary of the statements *)
(* ===================================================================== *)

(** The account lists of the sub-batches of [Batch.split], when it
    returns. *)
Definition split_accounts (accs : list Account) (max_size : Z) : option (list (list Account)) :=
  if Z.of_nat (length accs) <=? max_size then Some [accs]
  else
    match py_range 0 (Z.of_nat (length accs)) max_size with
    | None => None
    | Some starts => Some (map (fun i => py_slice accs i (i + max_size)) starts)
    end.

(** The [k]-th block of [size] consecutive elements of a list. *)
Definition block {A} (size : nat) (l : list A) (k : nat) : list A :=
  take size (drop (k * size) l).

(** Whether a result is one that the grouping loop of [get_statistics]
    counts under the code [c]. *)
Definition carries_code (c : string) (r : ValidationResult) : bool :=
  (status_eqb (status r) INVALID || status_eqb (status r) ERROR)
  && match error_code r with Some c' => String.eqb c' c | None => false end.

Definition code_count (c : string) (rs : list ValidationResult) : nat :=
  length (List.filter (carries_code c) rs).

(** No result of the list is still [PENDING]. *)
Definition all_settled (rs : list ValidationResult) : bool :=
  forallb (fun r => negb (status_eqb (status r) PENDING)) rs.

(** The failures that the specification names as retried: a connection
    failure, a timeout, a server error. *)
Definition retryable (a : Attempt) : bool :=
  match a with
  | NetConnectionError | NetTimeout => true
  | NetResponse r => (500 <=? status_code r) && (status_code r <? 600)
  | NetRequestException | NetOtherException | NetTooManyRedirects _ => false
  end.

(** Every failure after which the loop goes on when the attempt is not
    the last: those three, and an exception that carries a response
    whose status is not from 400 to 499, as [TooManyRedirects] does. *)
Definition retried (a : Attempt) : bool :=
  match a with
  | NetConnectionError | NetTimeout => true
  | NetResponse r => (500 <=? status_code r) && (status_code r <? 600)
  | NetTooManyRedirects r => negb ((400 <=? status_code r) && (status_code r <? 500))
  | NetRequestException | NetOtherException => false
  end.

(** Whether [time.sleep] goes through with a duration, asked for once
    [pos] calls have been made: the duration is not negative, it fits
    the conversion, and the platform does not refuse it. *)
Definition sleeps_through (env : Env) (pos : nat) (seconds : Z) : bool :=
  (0 <=? seconds) && (seconds <=? 9223372036) && negb (sleep_refused env pos).


(** The events of [failures] attempts that fail and are retried, the
    first of them numbered [attempt]: each time the request, then a
    sleep of [delay * 2 ^ attempt]. *)
Fixpoint backoff_trace (request : Event) (delay attempt : Z) (failures : nat) : list Event :=
  match failures with
  | O => []
  | S more => request :: EvSleep (delay * 2 ^ attempt)
              :: backoff_trace request delay (attempt + 1) more
  end.

(** The requests and the sleeps of a trace. *)
Definition is_http (ev : Event) : bool :=
  match ev with EvHttp _ _ _ => true | EvSleep _ => false end.

Definition requests_of (t : list Event) : list Event := List.filter is_http t.

Definition sleeps_of (t : list Event) : list Z :=
  flat_map (fun ev => match ev with EvSleep d => [d] | EvHttp _ _ _ => [] end) t.

(** What the loop returns at a rejection (a status from 400 to 499). *)
Definition rejection_reply (r : Response) : Res Reply :=
  match content r with
  | NoContent => Ok (ErrorOnly (HTTPError r))
  | JsonText v => Ok (Parsed v)
  | Garbled => Raise JSONDecodeError
  end.

(** The message of an error body, as [ErrorHandler.handle_api_error]
    reads it: [body.get("message", body.get("error", "Unknown API error"))]. *)
Definition api_error_message (entries : list (string * PyVal)) : PyVal :=
  default (default (PyStr "Unknown API error") (dict_get "error" entries))
          (dict_get "message" entries).

(** The accounts that [validate_batch] was given, as they come back with
    the results: in the order given in the sequential mode, in some
    order in the parallel mode. *)
Definition coordinated (parallel : bool) (accs : list Account)
    (rs : list ValidationResult) : Prop :=
  if parallel then map account rs ≡ₚ accs else map account rs = accs.

(** The results of one batch that is not split: the outcomes of the
    accounts that fail the format check, in input order, then what the
    validator returns for the others. *)
Definition chunk_outcomes (parallel : bool) (chunk : list Account)
    (rs : list ValidationResult) : Prop :=
  exists validated,
    rs = map format_outcome (invalid_accounts (pre_validate_batch chunk)) ++ validated
    /\ coordinated parallel (valid_accounts (pre_validate_batch chunk)) validated.

(** No result for an account that fails the format check comes after a
    result for an account that passes it. *)
Fixpoint malformed_first (rs : list ValidationResult) : bool :=
  match rs with
  | [] => true
  | r :: rest =>
    if _validate_format (account r)
    then forallb (fun r' => _validate_format (account r')) rest
    else malformed_first rest
  end.

(** The events that validating the account [a] may cause: sleeps, the
    fetch of the credential (a request without payload), and requests
    that carry the number and the bank code of [a]. *)
Definition event_of (a : Account) (ev : Event) : Prop :=
  match ev with
  | EvSleep _ => True
  | EvHttp _ _ payload => payload = PyNone \/ payload = request_data a
  end.

(** Every event that the computation [m] adds to the trace satisfies
    [P]. *)
Definition emits {A} (P : Event -> Prop) (m : M A) : Prop :=
  forall st, exists evs, trace (snd (m st)) = trace st ++ evs /\ Forall P evs.

(** The events allowed to a pipeline that was given the accounts
    [accs]: those of its accounts that pass the format check. *)
Definition event_of_checked (accs : list Account) (ev : Event) : Prop :=
  exists a, In a accs /\ _validate_format a = true /\ event_of a ev.

(* ===================================================================== *)
(** ** Sample inputs *)
(* ===================================================================== *)

Definition sample_account (number code : PyVal) : Account :=
  {| account_number := number; bank_code := code; reference_id := PyStr "REF-1";
     amount := 0%float; currency := PyStr "KES"; account_name := PyNone;
     phone_number := PyNone; transaction_type := PyNone |}.

(** A well-formed account, one without account number, and one whose
    account number was read from a JSON file as a number. *)
Definition account_ok : Account := sample_account (PyStr "1234567890") (PyStr "01").
Definition account_blank : Account := sample_account (PyStr "") (PyStr "01").
Definition account_numeric : Account := sample_account (PyInt 1234567890) (PyStr "01").

(** The defaults of app/config.py, with a configured credential. *)
Definition sample_config : Config :=
  {| PESALINK_API_BASE_URL := "https://account-validation-service.dev.pesalink.co.ke";
     PESALINK_API_KEY := PyStr "secret";
     MAX_BATCH_SIZE := 1000;
     WORKER_THREADS := 10;
     REQUEST_TIMEOUT := 30;
     MAX_RETRIES := 3;
     RETRY_DELAY := 2;
     ENABLE_PARALLEL_PROCESSING := true |}.

(** An environment whose network gives the listed answers, then always
    the same one; its clock counts, its pool completes the futures last
    first, and its platform refuses no sleep. *)
Definition scripted (answers : list Attempt) (otherwise : Attempt) : Env :=
  {| net := fun n => nth n answers otherwise;
     wallclock := Z.of_nat;
     as_completed := @rev Future;
     sleep_refused := fun _ => false |}.

Definition answer (status : Z) (body : Body) : Attempt :=
  NetResponse {| status_code := status; content := body |}.

Definition valid_body : Body :=
  JsonText (PyDict [("status", PyStr "Valid"); ("accountHolderName", PyStr "John Doe");
                    ("bankName", PyStr "ABC Bank"); ("currency", PyStr "KES")]).

Definition not_found_body : Body :=
  JsonText (PyDict [("message", PyStr "account not found")]).

Definition not_found_error_body : Body :=
  JsonText (PyDict [("error", PyStr "account not found")]).

Definition sample_url : string :=
  "https://account-validation-service.dev.pesalink.co.ke/api/validate".

(** A processor over [sample_config]. *)
Definition sample_processor (max_size : Z) (parallel : bool) : BatchProcessor :=
  BatchProcessor_init sample_config (Some max_size) None parallel.

Definition sample_batch (accs : list Account) : Batch :=
  new_batch accs (uuid 0) 0 {["source_file" := PyStr "accounts.csv"]}.



(* ===================================================================== *)
(** ** The rest of the embedding *)
(* ===================================================================== *)

(** *** The error handler (app/core/error_handler.py) *)

(** The table [descriptions] of [ErrorCode.get_description]. *)
Definition descriptions : list (string * string) :=
  [(ErrorCode_value INVALID_FORMAT, "The format of the account information is invalid.");
   (ErrorCode_value MISSING_FIELD, "Required field is missing.");
   (ErrorCode_value INVALID_BANK_CODE, "Bank code is invalid or unrecognized.");
   (ErrorCode_value INVALID_ACCOUNT_NUMBER, "Account number format is invalid.");
   (ErrorCode_value ACCOUNT_NOT_FOUND, "Account does not exist.");
   (ErrorCode_value ACCOUNT_INACTIVE, "Account is inactive.");
   (ErrorCode_value ACCOUNT_CLOSED, "Account is closed.");
   (ErrorCode_value ACCOUNT_BLOCKED, "Account is blocked.");
   (ErrorCode_value API_ERROR, "API returned an error.");
   (ErrorCode_value CONNECTION_ERROR, "Connection to the API failed.");
   (ErrorCode_value TIMEOUT_ERROR, "Request to the API timed out.");
   (ErrorCode_value AUTHENTICATION_ERROR, "Authentication with the API failed.");
   (ErrorCode_value RATE_LIMIT_ERROR, "API rate limit exceeded.");
   (ErrorCode_value INVALID_ACCOUNT, "The account is invalid or cannot be validated.");
   (ErrorCode_value BANK_NOT_FOUND, "The specified bank was not found.");
   (ErrorCode_value INVALID_REQUEST, "The request format was invalid.");
   (ErrorCode_value UNKNOWN_ERROR, "An unknown error occurred.")].

(** [table.get(key)] on a table of texts. *)
Fixpoint table_get (key : string) (table : list (string * string)) : option string :=
  match table with
  | [] => None
  | (k, v) :: rest => if String.eqb k key then Some v else table_get key rest
  end.

(** [ErrorCode.get_description] *)
Definition get_description (code : string) : string :=
  default ("Error code: " +:+ code) (table_get code descriptions).

(** The dict [{"error_code": ..., "error_message": ...}] that the
    handlers return. *)
Record ErrorInfo : Type := {
  info_error_code : string;
  info_error_message : PyVal
}.

(** [ErrorHandler.handle_error] *)
Definition handle_error (code : string) (message : PyVal) : ErrorInfo :=
  {| info_error_code := code;
     info_error_message := if truthy message then message
                           else PyStr (get_description code) |}.

(** [ErrorHandler.handle_api_error]. The message is whatever the body
    holds; [map_pesalink_error] calls [lower] on it for a status 404
    only, which a value that is not a text does not have. *)
Definition handle_api_error (status_code : Z) (response_body : list (string * PyVal))
    : Res ErrorInfo :=
  let message := api_error_message response_body in
  match message with
  | PyStr text => Ok (handle_error (map_pesalink_error status_code text) message)
  | _ =>
    if status_code =? 404 then Raise AttributeError
    else Ok (handle_error (map_pesalink_error status_code "") message)
  end.

(** The three lists of [ErrorHandler.classify_error]. *)
Definition format_errors : list string :=
  [ErrorCode_value INVALID_FORMAT; ErrorCode_value MISSING_FIELD;
   ErrorCode_value INVALID_BANK_CODE; ErrorCode_value INVALID_ACCOUNT_NUMBER;
   ErrorCode_value INVALID_REQUEST].

Definition account_errors : list string :=
  [ErrorCode_value ACCOUNT_NOT_FOUND; ErrorCode_value ACCOUNT_INACTIVE;
   ErrorCode_value ACCOUNT_CLOSED; ErrorCode_value ACCOUNT_BLOCKED;
   ErrorCode_value INVALID_ACCOUNT; ErrorCode_value BANK_NOT_FOUND].

Definition system_errors : list string :=
  [ErrorCode_value API_ERROR; ErrorCode_value CONNECTION_ERROR;
   ErrorCode_value TIMEOUT_ERROR; ErrorCode_value AUTHENTICATION_ERROR;
   ErrorCode_value RATE_LIMIT_ERROR].

(** [code in codes] *)
Definition code_in (code : string) (codes : list string) : bool :=
  existsb (String.eqb code) codes.

(** [ErrorHandler.classify_error] *)
Definition classify_error (code : string) : string :=
  if code_in code format_errors then "FORMAT_ERROR"
  else if code_in code account_errors then "ACCOUNT_ERROR"
  else if code_in code system_errors then "SYSTEM_ERROR"
  else "OTHER_ERROR".

(** *** The client, continued (app/api/pesalink_client.py) *)

(** [PesaLinkClient.validate_accounts_batch] *)
Definition validate_accounts_batch (env : Env) (accs : list Account)
    : M (list ValidationResult) :=
  mapM (validate_account env) accs.

(** *** Accounts from and to dicts (app/models/account.py) *)

Section Builtins.

(** [float(x)] for an integer and for a text: what Python's conversion
    gives, a float or an exception. *)
Variable float_of_int : Z -> Res float.
Variable float_of_str : string -> Res float.

(** [float(v)] *)
Definition py_float (v : PyVal) : Res float :=
  match v with
  | PyFloat f => Ok f
  | PyBool b => Ok (if b then 1 else 0)%float
  | PyInt z => float_of_int z
  | PyStr s => float_of_str s
  | PyNone | PyList _ | PyDict _ => Raise TypeError
  end.

(** [Account.from_dict] *)
Definition from_dict (data : list (string * PyVal)) : Res Account :=
  match py_float (default (PyFloat 0) (dict_get "amount" data)) with
  | Raise e => Raise e
  | Ok value =>
    Ok {| account_number := default PyNone (dict_get "account_number" data);
          bank_code := default PyNone (dict_get "bank_code" data);
          reference_id := default (PyStr "") (dict_get "reference_id" data);
          amount := value;
          currency := default (PyStr "KES") (dict_get "currency" data);
          account_name := default PyNone (dict_get "account_name" data);
          phone_number := default PyNone (dict_get "phone_number" data);
          transaction_type := default PyNone (dict_get "transaction_type" data) |}
  end.

End Builtins.

(** [Account.to_dict] *)
Definition to_dict (self : Account) : list (string * PyVal) :=
  [("account_number", account_number self);
   ("bank_code", bank_code self);
   ("reference_id", reference_id self);
   ("amount", PyFloat (amount self));
   ("currency", currency self);
   ("account_name", account_name self);
   ("phone_number", phone_number self);
   ("transaction_type", transaction_type self)].

(* ===================================================================== *)
(** ** Vocabulary of the further statements *)
(* ===================================================================== *)

(** The requests of a trace that use the method [m], and the number of
    events that [counted] selects. *)
Definition uses_method (m : string) (ev : Event) : bool :=
  match ev with
  | EvHttp method _ _ => String.eqb method m
  | EvSleep _ => false
  end.

(** The calls with the method [m] whose payload [selected] picks. *)
Definition carries (m : string) (selected : PyVal -> bool) (ev : Event) : bool :=
  match ev with
  | EvHttp method _ payload => String.eqb method m && selected payload
  | EvSleep _ => false
  end.

Definition count_events (counted : Event -> bool) (evs : list Event) : nat :=
  length (List.filter counted evs).

(** From every state that satisfies [I], the computation [m] adds at
    most [n] counted events to the trace and leaves a state that
    satisfies [I]. *)
Definition costs {A} (counted : Event -> bool) (I : State -> Prop) (n : nat) (m : M A)
    : Prop :=
  forall st, I st ->
    exists evs, trace (snd (m st)) = trace st ++ evs
                /\ (count_events counted evs <= n)%nat
                /\ I (snd (m st)).

(** Every value that [m] returns satisfies [Q]. *)
Definition yields {A} (Q : A -> Prop) (m : M A) : Prop :=
  forall st a st', m st = (Ok a, st') -> Q a.

(** The outcomes that the pipeline hands out: for an account that fails
    the format check the outcome built locally, for any other account a
    VALID outcome without error code, an INVALID one with the code
    INVALID_ACCOUNT, or an ERROR one with the code API_ERROR or
    EXCEPTION. *)
Definition pipeline_outcome (r : ValidationResult) : Prop :=
  if _validate_format (account r) then
    match status r with
    | VALID => error_code r = None /\ account_status r = Some "ACTIVE"
    | INVALID => error_code r = Some "INVALID_ACCOUNT"
    | ERROR => error_code r = Some "API_ERROR" \/ error_code r = Some "EXCEPTION"
    | PENDING => False
    end
  else r = format_outcome (account r).

(** The number of accounts of a list that fail, and that pass, the
    format check. *)
Definition malformed (accs : list Account) : nat :=
  length (List.filter (fun a => negb (_validate_format a)) accs).

Definition well_formed (accs : list Account) : nat :=
  length (List.filter _validate_format accs).

(** The accounts that pass the format check and whose request body
    [selected] picks. *)
Definition well_formed_among (selected : PyVal -> bool) (accs : list Account) : nat :=
  length (List.filter (fun a => _validate_format a && selected (request_data a)) accs).

(** [s.isascii()] *)
Fixpoint isascii (s : string) : bool :=
  match s with
  | EmptyString => true
  | String c rest => (nat_of_ascii c <? 128)%nat && isascii rest
  end.

(** ** Further sample inputs *)

(** The defaults of app/config.py without a configured credential. *)
Definition keyless_config : Config :=
  {| PESALINK_API_BASE_URL := "https://account-validation-service.dev.pesalink.co.ke";
     PESALINK_API_KEY := PyNone;
     MAX_BATCH_SIZE := 1000;
     WORKER_THREADS := 10;
     REQUEST_TIMEOUT := 30;
     MAX_RETRIES := 3;
     RETRY_DELAY := 2;
     ENABLE_PARALLEL_PROCESSING := true |}.

Definition key_body : Body := JsonText (PyDict [("apiKey", PyStr "fetched")]).

Definition key_url : string :=
  "https://account-validation-service.dev.pesalink.co.ke/api/key".

(** [sample_config] with other retry settings. *)
Definition retry_config (retries delay : Z) : Config :=
  {| PESALINK_API_BASE_URL := PESALINK_API_BASE_URL sample_config;
     PESALINK_API_KEY := PESALINK_API_KEY sample_config;
     MAX_BATCH_SIZE := MAX_BATCH_SIZE sample_config;
     WORKER_THREADS := WORKER_THREADS sample_config;
     REQUEST_TIMEOUT := REQUEST_TIMEOUT sample_config;
     MAX_RETRIES := retries;
     RETRY_DELAY := delay;
     ENABLE_PARALLEL_PROCESSING := ENABLE_PARALLEL_PROCESSING sample_config |}.

(** What the loop returns for an answer that [raise_for_status] lets
    through (a status below 400). *)
Definition accepted_reply (r : Response) : Res Reply :=
  match content r with
  | NoContent => Ok (Parsed (PyDict []))
  | JsonText v => Ok (Parsed v)
  | Garbled => Raise AttributeError
  end.

(** [isinstance(v, dict)] *)
Definition is_dict (v : PyVal) : bool :=
  match v with PyDict _ => true | _ => false end.

(** The events that the interface of the service allows to a client
    whose base URL is [b]: a sleep, the GET of the credential, without
    payload, and a POST to the validation endpoint that carries an
    account number and a bank code. *)
Definition is_request_data (payload : PyVal) : bool :=
  match payload with
  | PyDict [(k1, _); (k2, _)] => String.eqb k1 "accountNumber" && String.eqb k2 "bankCode"
  | _ => false
  end.

Definition endpoint_event (b : string) (ev : Event) : bool :=
  match ev with
  | EvSleep _ => true
  | EvHttp method url payload =>
    (String.eqb method "GET" && String.eqb url (b +:+ "/api/key")
     && match payload with PyNone => true | _ => false end)
    || (String.eqb method "POST" && String.eqb url (b +:+ "/api/validate")
        && is_request_data payload)
  end.

(* ===================================================================== *)
(** ** Reading accounts from JSON (app/utils/file_parser.py) *)
(* ===================================================================== *)

(** [f"REF-{i}"] *)
Definition reference_for (i : nat) : PyVal :=
  PyStr ("REF-" +:+ NilZero.string_of_uint (Nat.to_uint i)).

(** [d[key] = v] on the entries of a dict. *)
Fixpoint dict_set (key : string) (v : PyVal) (entries : list (string * PyVal))
    : list (string * PyVal) :=
  match entries with
  | [] => [(key, v)]
  | (k, x) :: rest =>
    if String.eqb k key then (k, v) :: rest else (k, x) :: dict_set key v rest
  end.

(** What [for x in v] goes through; [None] when [v] cannot be iterated. *)
Definition py_iter (v : PyVal) : option (list PyVal) :=
  match v with
  | PyList items => Some items
  | PyStr s => Some (map (fun c => PyStr (String c EmptyString)) (list_ascii_of_string s))
  | PyDict entries => Some (map (fun kv => PyStr (fst kv)) entries)
  | PyNone | PyBool _ | PyInt _ | PyFloat _ => None
  end.

Section Parser.

Variable float_of_int : Z -> Res float.
Variable float_of_str : string -> Res float.

(** The body of the loop of [FileParser._parse_json] for the entry
    numbered [i]: the account, or [None] when the entry is skipped
    because something was raised. *)
Definition parse_entry (i : nat) (account_data : PyVal) : option Account :=
  match account_data with
  | PyDict entries =>
    let entries' :=
      if negb (truthy (default PyNone (dict_get "reference_id" entries)))
      then dict_set "reference_id" (reference_for i) entries
      else entries in
    match from_dict float_of_int float_of_str entries' with
    | Ok a => Some a
    | Raise _ => None
    end
  | _ => None
  end.

(** [for i, account_data in enumerate(accounts_data, start=i)] *)
Fixpoint parse_entries (i : nat) (accounts_data : list PyVal) : list Account :=
  match accounts_data with
  | [] => []
  | account_data :: rest =>
    match parse_entry i account_data with
    | Some a => a :: parse_entries (S i) rest
    | None => parse_entries (S i) rest
    end
  end.

(** [FileParser._parse_json], given what opening the file and
    [json.load] produce: the document, or the exception they raise. *)
Definition _parse_json (loaded : Res PyVal) : Res (list Account) :=
  match loaded with
  | Raise e => Raise e
  | Ok (PyList items) => Ok (parse_entries 1 items)
  | Ok (PyDict entries) =>
    if dict_has "accounts" entries then
      match py_iter (default (PyList []) (dict_get "accounts" entries)) with
      | Some items => Ok (parse_entries 1 items)
      | None => Raise TypeError
      end
    else Raise ValueError
  | Ok _ => Raise ValueError
  end.

End Parser.

(** An entry that [from_dict] accepts whatever [float] does: an object
    whose amount is absent or a float. *)
Definition plain_entry (v : PyVal) : bool :=
  match v with
  | PyDict entries =>
    match dict_get "amount" entries with
    | None | Some (PyFloat _) => true
    | Some _ => false
    end
  | _ => false
  end.

(** [v.get(key)] for an entry of the document. *)
Definition entry_get (key : string) (v : PyVal) : PyVal :=
  match v with
  | PyDict entries => default PyNone (dict_get key entries)
  | _ => PyNone
  end.

(* ===================================================================== *)
(** * Properties *)
(* ===================================================================== *)

(** ** Running the monad *)

Ltac unfold_M :=
  unfold mbind, M_bind, mret, M_ret, try_except, raise in *.

Lemma bind_Ok {A B} (m : M A) (f : A -> M B) st a st' :
  m st = (Ok a, st') -> (m ≫= f) st = f a st'.
Proof. intros H. unfold mbind, M_bind. by rewrite H. Qed.

Lemma bind_Raise {A B} (m : M A) (f : A -> M B) st e st' :
  m st = (Raise e, st') -> (m ≫= f) st = (Raise e, st').
Proof. intros H. unfold mbind, M_bind. by rewrite H. Qed.

(** ** Blocks of a list *)

Section Blocks.
Context {A : Type}.
Implicit Types l : list A.

Lemma take_plus l (a b : nat) : take (a + b) l = take a l ++ take b (drop a l).
Proof.
  revert l; induction a as [|a IH]; intros [|x l]; simpl; try done.
  - by rewrite take_nil.
  - by rewrite IH.
Qed.

Lemma concat_blocks l (size count : nat) :
  concat (map (block size l) (seq 0 count)) = take (count * size) l.
Proof.
  induction count as [|c IH]; [done|].
  rewrite seq_S, map_app, concat_app, IH. simpl.
  rewrite app_nil_r. unfold block.
  replace (size + c * size)%nat with (c * size + size)%nat by lia.
  by rewrite take_plus.
Qed.

Lemma py_slice_block l (size : Z) (k : nat) :
  0 < size -> (k * Z.to_nat size <= length l)%nat ->
  py_slice l (0 + Z.of_nat k * size) (0 + Z.of_nat k * size + size) = block (Z.to_nat size) l k.
Proof.
  intros Hs Hk. unfold py_slice, slice_bound, block.
  assert (Hi : 0 <= Z.of_nat k * size) by nia.
  destruct (Z.ltb_spec (0 + Z.of_nat k * size) 0) as [?|_]; [lia|].
  destruct (Z.ltb_spec (0 + Z.of_nat k * size + size) 0) as [?|_]; [lia|].
  assert (Hlo : Z.to_nat (0 `max` (Z.of_nat (length l) `min` (0 + Z.of_nat k * size)))
                = (k * Z.to_nat size)%nat) by nia.
  rewrite Hlo.
  destruct (Z.le_gt_cases (0 + Z.of_nat k * size + size) (Z.of_nat (length l))) as [Hin|Hout].
  - f_equal. nia.
  - rewrite !take_ge; [done| |]; rewrite length_drop; nia.
Qed.

End Blocks.

(** The number of starting points that [range(0, n, size)] produces. *)
Lemma range_count_bounds (n size : Z) :
  0 < size -> 0 <= n ->
  let c := (n - 0 + size - 1) / size in
  0 <= c /\ (c - 1) * size < n /\ n <= c * size.
Proof.
  intros Hs Hn c.
  pose proof (Z.div_mod (n - 0 + size - 1) size ltac:(lia)) as Hdm.
  pose proof (Z.mod_pos_bound (n - 0 + size - 1) size Hs) as Hmod.
  fold c in Hdm. nia.
Qed.

Lemma split_accounts_small accs max_size :
  Z.of_nat (length accs) <= max_size -> split_accounts accs max_size = Some [accs].
Proof.
  intros H. unfold split_accounts. by destruct (Z.leb_spec (Z.of_nat (length accs)) max_size); [|lia].
Qed.

Lemma split_accounts_blocks accs max_size :
  1 <= max_size -> max_size < Z.of_nat (length accs) ->
  exists count : nat,
    split_accounts accs max_size = Some (map (block (Z.to_nat max_size) accs) (seq 0 count))
    /\ (length accs <= count * Z.to_nat max_size)%nat
    /\ ((count - 1) * Z.to_nat max_size < length accs)%nat.
Proof.
  intros Hs Hn. unfold split_accounts, py_range.
  destruct (Z.leb_spec (Z.of_nat (length accs)) max_size); [lia|].
  destruct (Z.eqb_spec max_size 0); [lia|].
  destruct (Z.ltb_spec 0 max_size); [|lia].
  destruct (range_count_bounds (Z.of_nat (length accs)) max_size) as (Hc0 & Hc1 & Hc2); [lia..|].
  set (c := (Z.of_nat (length accs) - 0 + max_size - 1) / max_size) in *.
  exists (Z.to_nat c). split; [|nia].
  f_equal. rewrite map_map. apply map_ext_in. intros k Hk%in_seq.
  apply py_slice_block; nia.
Qed.

(** ** Batch.split *)

Lemma mapM_Batch_init env (g : Z -> list Account) meta (starts : list Z) st :
  exists subs st',
    mapM (fun i => Batch_init env (g i) meta) starts st = (Ok subs, st')
    /\ map accounts subs = map g starts
    /\ map batch_id subs = map uuid (seq (uuid_pos st) (length starts))
    /\ Forall (fun sub => metadata sub = meta
                          /\ total_accounts sub = Z.of_nat (length (accounts sub))) subs
    /\ client st' = client st /\ net_pos st' = net_pos st /\ trace st' = trace st.
Proof.
  revert st. induction starts as [|i starts IH]; intros st; simpl.
  - exists [], st. by repeat split.
  - unfold mbind at 1, M_bind at 1. unfold Batch_init at 1.
    unfold mbind at 1, M_bind at 1. simpl.
    unfold mbind at 1, M_bind at 1. simpl.
    match goal with |- context [mapM _ starts ?s] => destruct (IH s) as (subs & st' & Hrun & Ha & Hid & Hm & Hc & Hn & Ht) end.
    unfold mbind, M_bind. rewrite Hrun. simpl.
    eexists _, _. split; [reflexivity|]. simpl in *.
    rewrite Ha, Hid. repeat split; try done.
    constructor; [done|exact Hm].
Qed.

(** A batch that is too large: what [Batch.split] draws and returns. *)
Lemma Batch_split_large env batch max_size st :
  1 <= max_size ->
  max_size < Z.of_nat (length (accounts batch)) ->
  exists subs st',
    Batch_split env batch max_size st = (Ok subs, st')
    /\ split_accounts (accounts batch) max_size = Some (map accounts subs)
    /\ map batch_id subs = map uuid (seq (uuid_pos st) (length subs))
    /\ Forall (fun sub => metadata sub = metadata batch
                          /\ total_accounts sub = Z.of_nat (length (accounts sub))) subs
    /\ client st' = client st /\ net_pos st' = net_pos st /\ trace st' = trace st.
Proof.
  intros Hmax Hlen. unfold Batch_split, split_accounts.
  destruct (Z.leb_spec (Z.of_nat (length (accounts batch))) max_size); [lia|].
  unfold py_range. destruct (Z.eqb_spec max_size 0); [lia|].
  destruct (Z.ltb_spec 0 max_size); [|lia].
  match goal with |- context [mapM _ ?starts st] =>
    destruct (mapM_Batch_init env
                (fun i => py_slice (accounts batch) i (i + max_size)) (metadata batch) starts st)
      as (subs & st' & Hrun & Ha & Hid & Hm & Hc & Hn & Ht);
    assert (Hstarts : length starts = length subs)
      by (by rewrite <- (length_map accounts subs), Ha, !length_map)
  end.
  exists subs, st'. rewrite Hstarts in Hid. by rewrite Ha.
Qed.

Lemma split_accounts_concat accs max_size chunks :
  1 <= max_size ->
  split_accounts accs max_size = Some chunks ->
  concat chunks = accs
  /\ Forall (fun chunk => Z.of_nat (length chunk) <= max_size) chunks.
Proof.
  intros Hmax Hsplit.
  destruct (Z.le_gt_cases (Z.of_nat (length accs)) max_size) as [Hsmall|Hlarge].
  - rewrite split_accounts_small in Hsplit by done. injection Hsplit as <-.
    simpl. rewrite app_nil_r. split; [done|]. by constructor.
  - destruct (split_accounts_blocks accs max_size) as (count & Hblocks & Hhi & _); [lia..|].
    rewrite Hblocks in Hsplit. injection Hsplit as <-. split.
    + rewrite concat_blocks. apply take_ge. lia.
    + apply Forall_forall. intros chunk (k & <- & _)%list_elem_of_In%in_map_iff.
      unfold block. rewrite length_take. lia.
Qed.

(** C7: for every batch and every maximum size of at least one, a batch
    that has at most that many accounts is returned as it is, alone and
    with nothing drawn or changed; a larger batch is cut into the
    consecutive blocks of that many accounts, in input order, whose
    concatenation is the account list of the batch, each block no longer
    than the maximum (so that splitting it again returns it unchanged),
    each sub-batch holding the metadata of the parent and the next
    identifier drawn from the generator, which no two of them share and
    which was never drawn before. *)
Theorem Batch_split_chunks env batch max_size st :
  1 <= max_size ->
  (Z.of_nat (length (accounts batch)) <= max_size ->
     Batch_split env batch max_size st = (Ok [batch], st))
  /\ (max_size < Z.of_nat (length (accounts batch)) ->
      exists subs st',
        Batch_split env batch max_size st = (Ok subs, st')
        /\ map accounts subs
           = map (block (Z.to_nat max_size) (accounts batch)) (seq 0 (length subs))
        /\ concat (map accounts subs) = accounts batch
        /\ Forall (fun sub => (length (accounts sub) <= Z.to_nat max_size)%nat) subs
        /\ Forall (fun sub => forall st2, Batch_split env sub max_size st2 = (Ok [sub], st2)) subs
        /\ Forall (fun sub => metadata sub = metadata batch) subs
        /\ map batch_id subs = map uuid (seq (uuid_pos st) (length subs))
        /\ NoDup (map batch_id subs)
        /\ (forall n, (n < uuid_pos st)%nat -> ~ In (uuid n) (map batch_id subs))
        /\ trace st' = trace st).
Proof.
  intros Hmax. split; intros Hlen.
  - unfold Batch_split.
    by destruct (Z.leb_spec (Z.of_nat (length (accounts batch))) max_size); [|lia].
  - destruct (Batch_split_large env batch max_size st)
      as (subs & st' & Hrun & Hsplit & Hid & Hm & _ & _ & Ht); [done..|].
    destruct (split_accounts_concat _ _ _ Hmax Hsplit) as [Hconcat Hshort].
    destruct (split_accounts_blocks (accounts batch) max_size) as (count & Hblocks & _);
      [lia..|].
    rewrite Hsplit in Hblocks. injection Hblocks as Hblocks.
    assert (Hcount : length subs = count).
    { by rewrite <- (length_map accounts), Hblocks, length_map, length_seq. }
    rewrite Forall_map in Hshort.
    exists subs, st'. repeat split; try done.
    + by rewrite Hcount.
    + eapply Forall_impl; [exact Hshort|]. simpl. lia.
    + eapply Forall_impl; [exact Hshort|]. intros sub Hsub st2. simpl in Hsub.
      unfold Batch_split.
      by destruct (Z.leb_spec (Z.of_nat (length (accounts sub))) max_size); [|lia].
    + eapply Forall_impl; [exact Hm|]. by intros sub [? _].
    + rewrite Hid. apply NoDup_fmap_2; [by intros ? ? [=]|]. apply NoDup_seq.
    + intros n Hn Hin. rewrite Hid in Hin.
      apply in_map_iff in Hin as (k & [= ->] & Hk%in_seq). lia.
Qed.

Lemma Batch_split_chunks_witness :
  exists subs st',
    Batch_split (scripted [] NetTimeout)
      (sample_batch [account_ok; account_blank; account_ok]) 2 (initial_state sample_config)
    = (Ok subs, st')
    /\ concat (map accounts subs) = [account_ok; account_blank; account_ok]
    /\ Forall (fun sub => (length (accounts sub) <= 2)%nat) subs
    /\ map batch_id subs = map uuid (seq 0 (length subs)).
Proof.
  destruct (Batch_split_chunks (scripted [] NetTimeout)
              (sample_batch [account_ok; account_blank; account_ok]) 2
              (initial_state sample_config)) as [_ Hlarge].
  - lia.
  - destruct Hlarge as (subs & st' & Hrun & _ & Hconcat & Hshort & _ & _ & Hids & _ & _ & _).
    + simpl. lia.
    + exists subs, st'.
      split; [exact Hrun|]. split; [exact Hconcat|]. split; [exact Hshort|exact Hids].
Defined.

(** C10: on a batch with at least one account, a maximum size of zero
    makes [Batch.split] raise (the range is given a zero step), and every
    negative maximum size makes it return no sub-batch at all, whatever
    the accounts. *)
Theorem Batch_split_needs_positive_size env batch st :
  accounts batch <> [] ->
  Batch_split env batch 0 st = (Raise ValueError, st)
  /\ (forall max_size, max_size < 0 -> Batch_split env batch max_size st = (Ok [], st)).
Proof.
  intros Hne.
  assert (Hlen : 0 < Z.of_nat (length (accounts batch))).
  { destruct (accounts batch); [done|simpl; lia]. }
  split.
  - unfold Batch_split.
    destruct (Z.leb_spec (Z.of_nat (length (accounts batch))) 0); [lia|]. done.
  - intros max_size Hneg. unfold Batch_split, py_range.
    destruct (Z.leb_spec (Z.of_nat (length (accounts batch))) max_size); [lia|].
    destruct (Z.eqb_spec max_size 0); [lia|].
    destruct (Z.ltb_spec 0 max_size); [lia|].
    set (len := Z.of_nat (length (accounts batch))) in *.
    assert (Hq : (0 - len - max_size - 1) / - max_size <= 0).
    { apply Z.lt_succ_r. apply Z.div_lt_upper_bound; lia. }
    replace (Z.to_nat ((0 - len - max_size - 1) / - max_size)) with 0%nat by lia.
    done.
Qed.

Lemma Batch_split_needs_positive_size_witness :
  accounts (sample_batch [account_ok]) <> []
  /\ Batch_split (scripted [] NetTimeout) (sample_batch [account_ok]) 0
       (initial_state sample_config)
     = (Raise ValueError, initial_state sample_config)
  /\ Batch_split (scripted [] NetTimeout) (sample_batch [account_ok]) (-3)
       (initial_state sample_config)
     = (Ok [], initial_state sample_config).
Proof.
  assert (Hne : accounts (sample_batch [account_ok]) <> []) by discriminate.
  destruct (Batch_split_needs_positive_size (scripted [] NetTimeout)
              (sample_batch [account_ok]) (initial_state sample_config) Hne) as [Hzero Hneg].
  split; [exact Hne|]. split; [exact Hzero|]. apply Hneg. lia.
Defined.

(** ** Statistics *)

Lemma count_status_cons s r rs :
  count_status s (r :: rs)
  = ((if status_eqb (status r) s then 1 else 0) + count_status s rs)%nat.
Proof. unfold count_status. simpl. by destruct (status_eqb (status r) s). Qed.

Lemma count_status_total rs :
  (count_status VALID rs + count_status INVALID rs + count_status ERROR rs
   + count_status PENDING rs = length rs)%nat.
Proof.
  induction rs as [|r rs IH]; [done|].
  rewrite !count_status_cons. simpl length.
  destruct (status r); simpl; lia.
Qed.

Lemma count_status_settled rs :
  all_settled rs = true -> count_status PENDING rs = 0%nat.
Proof.
  induction rs as [|r rs IH]; [done|]. simpl.
  intros [Hr Hrs]%andb_prop. rewrite count_status_cons, (IH Hrs).
  by destruct (status_eqb (status r) PENDING).
Qed.

Lemma count_code_lookup c codes r :
  code_truthy (Some c) = true ->
  count_code codes r !! c
  = if carries_code c r then Some (default 0%nat (codes !! c) + 1)%nat else codes !! c.
Proof.
  intros Hc. unfold count_code, carries_code.
  destruct (error_code r) as [c'|]; [|by rewrite andb_false_r].
  destruct (status_eqb (status r) INVALID || status_eqb (status r) ERROR); simpl; [|done].
  destruct (String.eqb_spec c' c) as [->|Hne].
  - simpl in Hc. rewrite Hc. by rewrite lookup_insert_eq.
  - destruct (negb (c' =? ""))%string; [|done]. by rewrite lookup_insert_ne.
Qed.

Lemma count_code_lookup_empty codes r :
  codes !! "" = None -> count_code codes r !! "" = None.
Proof.
  intros H. unfold count_code.
  destruct (error_code r) as [c'|]; [|done]. simpl.
  destruct (String.eqb_spec c' "") as [->|Hne]; simpl.
  - by rewrite andb_false_r.
  - destruct (status_eqb (status r) INVALID || status_eqb (status r) ERROR); simpl; [|done].
    by rewrite lookup_insert_ne.
Qed.

Lemma fold_count_code c rs codes :
  code_truthy (Some c) = true ->
  fold_left count_code rs codes !! c
  = match code_count c rs with
    | O => codes !! c
    | S n => Some (default 0%nat (codes !! c) + S n)%nat
    end.
Proof.
  intros Hc. revert codes. induction rs as [|r rs IH]; intros codes; [done|].
  simpl fold_left. rewrite IH, count_code_lookup by done.
  unfold code_count. simpl List.filter.
  destruct (carries_code c r); simpl.
  - destruct (length (List.filter (carries_code c) rs)); f_equal; lia.
  - done.
Qed.

Lemma fold_count_code_empty rs codes :
  codes !! "" = None -> fold_left count_code rs codes !! "" = None.
Proof.
  revert codes. induction rs as [|r rs IH]; intros codes H; [done|].
  simpl. apply IH. by apply count_code_lookup_empty.
Qed.




(** ** The retry loop *)

Section Client.
Variable env : Env.

Lemma get_api_key_ready st :
  truthy (api_key (client st)) = true ->
  _get_api_key env st = (Ok (api_key (client st)), st).
Proof. intros H. unfold _get_api_key, get_client. unfold_M. by rewrite H. Qed.

(** Fetching the credential leaves the settings of the client alone. *)
Lemma get_api_key_settings st key st1 :
  _get_api_key env st = (Ok key, st1) ->
  max_retries (client st1) = max_retries (client st)
  /\ retry_delay (client st1) = retry_delay (client st)
  /\ base_url (client st1) = base_url (client st).
Proof.
  unfold _get_api_key, _fetch_api_key, get_client, set_api_key, requests_request,
    raise_for_status, response_json.
  unfold_M. intros H.
  repeat (case_match; simplify_eq/=); done.
Qed.

Lemma time_sleep_through st seconds :
  sleeps_through env (net_pos st) seconds = true ->
  time_sleep env seconds st = (Ok tt, record_event (EvSleep seconds) st).
Proof.
  unfold sleeps_through, time_sleep.
  intros [[H0%Z.leb_le Hmax%Z.leb_le]%andb_prop Hok%negb_true_iff]%andb_prop.
  destruct (Z.ltb_spec seconds (-9223372036)); [lia|].
  destruct (Z.ltb_spec 9223372036 seconds); [lia|].
  destruct (Z.ltb_spec seconds 0); [lia|]. simpl. by rewrite Hok.
Qed.

Lemma retryable_retried a : retryable a = true -> retried a = true.
Proof. by destruct a. Qed.

Lemma loop_step_retry method url data attempt rest st :
  retried (net env (net_pos st)) = true ->
  attempt < max_retries (client st) - 1 ->
  sleeps_through env (S (net_pos st)) (retry_delay (client st) * 2 ^ attempt) = true ->
  _make_request_loop env method url data (attempt :: rest) st
  = _make_request_loop env method url data rest
      (record_event (EvSleep (retry_delay (client st) * 2 ^ attempt))
         (advance_net (record_event (EvHttp method url data) st))).
Proof.
  intros Hnet Hlt Hsleep. simpl.
  pose proof (time_sleep_through
                (advance_net (record_event (EvHttp method url data) st)) _ Hsleep) as Hnap.
  unfold get_client, requests_request, raise_for_status. unfold_M.
  destruct (Z.ltb_spec attempt (max_retries (client st) - 1)); [|lia].
  destruct (net env (net_pos st)) as [| | | |r|r]; simpl in *; try done;
    try by rewrite Hnap.
  - apply andb_prop in Hnet as [H5 H6].
    assert ((400 <=? status_code r) = true) as -> by lia.
    rewrite H6. simpl.
    assert ((status_code r <? 500) = false) as -> by lia.
    rewrite andb_false_r. simpl.
    destruct (Z.ltb_spec attempt (max_retries (client st) - 1)); [|lia].
    by rewrite Hnap.
  - apply negb_true_iff in Hnet. rewrite Hnet.
    destruct (Z.ltb_spec attempt (max_retries (client st) - 1)); [|lia].
    by rewrite Hnap.
Qed.


Lemma loop_step_rejected method url data attempt rest st r :
  net env (net_pos st) = NetResponse r ->
  400 <= status_code r <= 499 ->
  _make_request_loop env method url data (attempt :: rest) st
  = (rejection_reply r, advance_net (record_event (EvHttp method url data) st)).
Proof.
  intros Hnet Hr. simpl.
  unfold get_client, requests_request, raise_for_status, has_content, response_json,
    rejection_reply.
  unfold_M. rewrite Hnet. simpl.
  assert (H4 : (400 <=? status_code r) = true) by lia.
  assert (H6 : (status_code r <? 600) = true) by lia.
  assert (H5 : (status_code r <? 500) = true) by lia.
  rewrite H4, H6. simpl. rewrite H4, H5. simpl. by destruct (content r).
Qed.

(** [failures] attempts in a row that fail and are retried. *)
Lemma loop_retries method url data (failures first : nat) rest st :
  Z.of_nat (first + failures) <= max_retries (client st) - 1 ->
  (forall k, (k < failures)%nat -> retryable (net env (net_pos st + k)) = true) ->
  (forall k, (k < failures)%nat ->
     sleeps_through env (net_pos st + S k)
       (retry_delay (client st) * 2 ^ Z.of_nat (first + k)) = true) ->
  exists st',
    _make_request_loop env method url data (map Z.of_nat (seq first failures) ++ rest) st
    = _make_request_loop env method url data rest st'
    /\ client st' = client st
    /\ net_pos st' = (net_pos st + failures)%nat
    /\ trace st' = trace st ++ backoff_trace (EvHttp method url data)
                                (retry_delay (client st)) (Z.of_nat first) failures.
Proof.
  revert first st.
  induction failures as [|j IH]; intros first st Hmax Hnet Hsleep.
  - exists st. simpl. rewrite app_nil_r. repeat split; [lia..].
  - simpl seq. simpl map. simpl app.
    rewrite loop_step_retry; cycle 1.
    { specialize (Hnet 0%nat ltac:(lia)). rewrite Nat.add_0_r in Hnet.
      by apply retryable_retried. }
    { lia. }
    { specialize (Hsleep 0%nat ltac:(lia)).
      replace (S (net_pos st)) with (net_pos st + 1)%nat by lia.
      by replace (Z.of_nat first) with (Z.of_nat (first + 0)) by lia. }
    set (st2 := record_event _ (advance_net _)).
    destruct (IH (S first) st2) as (st' & Hrun & Hc & Hn & Ht).
    { simpl. lia. }
    { intros k Hk. specialize (Hnet (S k) ltac:(lia)).
      simpl. by rewrite Nat.add_succ_r in Hnet. }
    { intros k Hk. specialize (Hsleep (S k) ltac:(lia)).
      replace (net_pos st2 + S k)%nat with (net_pos st + S (S k))%nat
        by (subst st2; simpl; lia).
      by replace (Z.of_nat (S first + k)) with (Z.of_nat (first + S k)) by lia. }
    exists st'. rewrite Hrun, Hc, Hn, Ht. simpl.
    repeat split; [lia|].
    rewrite <- !app_assoc. simpl. do 4 f_equal. lia.
Qed.


Lemma range_split (n j : nat) :
  (j < n)%nat ->
  range (Z.of_nat n)
  = map Z.of_nat (seq 0 j) ++ Z.of_nat j :: map Z.of_nat (seq (S j) (n - S j)).
Proof.
  intros Hj. unfold range. rewrite Nat2Z.id.
  replace n with (j + S (n - S j))%nat at 1 by lia.
  by rewrite seq_app, map_app.
Qed.


(** A rejection ends the loop at once, after however many retried
    failures it comes. *)
Lemma loop_rejected method url data (failures : nat) st r :
  Z.of_nat failures < max_retries (client st) ->
  (forall k, (k < failures)%nat -> retryable (net env (net_pos st + k)) = true) ->
  (forall k, (k < failures)%nat ->
     sleeps_through env (net_pos st + S k) (retry_delay (client st) * 2 ^ Z.of_nat k) = true) ->
  net env (net_pos st + failures) = NetResponse r ->
  400 <= status_code r <= 499 ->
  exists st',
    _make_request_loop env method url data (range (max_retries (client st))) st
    = (rejection_reply r, st')
    /\ client st' = client st
    /\ net_pos st' = (net_pos st + S failures)%nat
    /\ trace st' = trace st ++ backoff_trace (EvHttp method url data)
                                (retry_delay (client st)) 0 failures
                              ++ [EvHttp method url data].
Proof.
  intros Hmax Hnet Hsleep Hr Hstatus.
  replace (range (max_retries (client st)))
    with (range (Z.of_nat (Z.to_nat (max_retries (client st))))) by (f_equal; lia).
  rewrite (range_split _ failures) by lia.
  destruct (loop_retries method url data failures 0
              (Z.of_nat failures :: map Z.of_nat (seq (S failures)
                 (Z.to_nat (max_retries (client st)) - S failures))) st)
    as (st' & Hrun & Hc & Hn & Ht); [lia|done|exact Hsleep|].
  rewrite Hrun, (loop_step_rejected _ _ _ _ _ _ r); [|by rewrite Hn|done].
  eexists. split; [done|]. simpl.
  rewrite Hc, Hn, Ht. repeat split; [lia|]. by rewrite <- app_assoc.
Qed.

Lemma backoff_requests request delay attempt failures :
  is_http request = true ->
  requests_of (backoff_trace request delay attempt failures) = repeat request failures.
Proof.
  intros Hreq. revert attempt. induction failures as [|j IH]; intros attempt; [done|].
  unfold requests_of in *. simpl. by rewrite Hreq, IH.
Qed.

Lemma backoff_sleeps request delay attempt failures :
  is_http request = true ->
  sleeps_of (backoff_trace request delay attempt failures)
  = map (fun i => delay * 2 ^ (attempt + Z.of_nat i)) (seq 0 failures).
Proof.
  intros Hreq. revert attempt. induction failures as [|j IH]; intros attempt; [done|].
  destruct request; [|done]. simpl. rewrite IH, <- seq_shift, map_map.
  f_equal; [by rewrite Z.add_0_r|]. apply map_ext. intros i. do 2 f_equal. lia.
Qed.

End Client.

(** ** Text *)

Lemma prefix_lower needle hay :
  String.prefix needle hay = true -> String.prefix (lower needle) (lower hay) = true.
Proof.
  revert hay. induction needle as [|c needle IH]; intros [|d hay]; simpl; try done.
  destruct (ascii_dec c d) as [->|]; [|done].
  intros H. destruct (ascii_dec (lower_ascii d) (lower_ascii d)); [by apply IH|done].
Qed.

Lemma str_contains_unfold needle hay :
  str_contains needle hay
  = String.prefix needle hay
    || match hay with
       | EmptyString => false
       | String _ rest => str_contains needle rest
       end.
Proof.
  destruct hay as [|d hay]; cbn [str_contains].
  - by destruct (String.prefix needle "").
  - by destruct (String.prefix needle (String d hay)).
Qed.

Lemma str_contains_lower needle hay :
  str_contains needle hay = true -> str_contains (lower needle) (lower hay) = true.
Proof.
  induction hay as [|d hay IH]; intros H;
    rewrite str_contains_unfold in H; rewrite str_contains_unfold;
    apply orb_prop in H as [Hp|H]; apply orb_true_iff.
  - left. by apply (prefix_lower needle "").
  - done.
  - left. by apply (prefix_lower needle (String d hay)).
  - right. by apply IH.
Qed.

Lemma prefix_shorter (n1 n2 hay : string) :
  String.prefix (n1 +:+ n2) hay = true -> String.prefix n1 hay = true.
Proof.
  revert hay. induction n1 as [|c n1 IH]; intros hay.
  - intros _. by destruct hay.
  - change (String c n1 +:+ n2) with (String c (n1 +:+ n2)).
    destruct hay as [|d hay]; simpl; [done|].
    destruct (ascii_dec c d); [apply IH|done].
Qed.

Lemma str_contains_shorter (n1 n2 hay : string) :
  str_contains (n1 +:+ n2) hay = true -> str_contains n1 hay = true.
Proof.
  induction hay as [|d hay IH]; intros H;
    rewrite str_contains_unfold in H; rewrite str_contains_unfold;
    apply orb_prop in H as [Hp|H]; apply orb_true_iff.
  - left. by apply prefix_shorter in Hp.
  - done.
  - left. by apply prefix_shorter in Hp.
  - right. by apply IH.
Qed.

(** The classifier on a 404 whose message speaks of an account that was
    not found. *)
Lemma map_pesalink_error_not_found message :
  str_contains "account not found" message = true ->
  map_pesalink_error 404 message = ErrorCode_value ACCOUNT_NOT_FOUND.
Proof.
  intros H. apply str_contains_lower in H.
  change (lower "account not found") with ("account" +:+ " not found") in H.
  apply str_contains_shorter in H.
  unfold map_pesalink_error. simpl. by rewrite H.
Qed.

(** ** The client *)

Section ClientResults.
Variable env : Env.

Lemma make_request_with_key method endpoint data st key st1 :
  _get_api_key env st = (Ok key, st1) ->
  _make_request env method endpoint data st
  = _make_request_loop env method (base_url (client st) +:+ endpoint) data
      (range (max_retries (client st))) st1.
Proof. intros Hkey. unfold _make_request, get_client. unfold_M. by rewrite Hkey. Qed.

Lemma validate_account_raised a st e st' :
  _make_request env "POST" "/api/validate" (request_data a) st = (Raise e, st') ->
  validate_account env a st = (Ok (exception_result a e), st').
Proof. intros H. unfold validate_account. unfold_M. by rewrite H. Qed.

(** The first attempt of a call is rejected. *)
Lemma make_request_rejected method endpoint data st key st1 r :
  _get_api_key env st = (Ok key, st1) ->
  1 <= max_retries (client st) ->
  net env (net_pos st1) = NetResponse r ->
  400 <= status_code r <= 499 ->
  _make_request env method endpoint data st
  = (rejection_reply r,
     advance_net (record_event (EvHttp method (base_url (client st) +:+ endpoint) data) st1)).
Proof.
  intros Hkey Hmax Hnet Hr.
  rewrite (make_request_with_key _ _ _ _ _ _ Hkey).
  replace (range (max_retries (client st)))
    with (range (Z.of_nat (Z.to_nat (max_retries (client st))))) by (f_equal; lia).
  rewrite (range_split _ 0) by lia. simpl app.
  by apply loop_step_rejected.
Qed.

(** C5: when the answer to the first attempt of a call carries a status
    from 400 to 499, the call ends there, whatever [max_retries] (at
    least one, for an attempt to be made at all): the events of the call
    are that single request, with no sleep and no further request, and a
    single answer of the network is used. *)
Theorem rejection_is_not_retried method endpoint data st key st1 r :
  _get_api_key env st = (Ok key, st1) ->
  1 <= max_retries (client st) ->
  net env (net_pos st1) = NetResponse r ->
  400 <= status_code r <= 499 ->
  exists st',
    _make_request env method endpoint data st = (rejection_reply r, st')
    /\ trace st' = trace st1 ++ [EvHttp method (base_url (client st) +:+ endpoint) data]
    /\ length (requests_of (trace st')) = S (length (requests_of (trace st1)))
    /\ sleeps_of (trace st') = sleeps_of (trace st1)
    /\ net_pos st' = S (net_pos st1).
Proof.
  intros Hkey Hmax Hnet Hr.
  eexists. split; [by eapply make_request_rejected|]. simpl.
  repeat split.
  - unfold requests_of. rewrite List.filter_app, length_app. simpl. lia.
  - unfold sleeps_of. rewrite flat_map_app. simpl. by rewrite app_nil_r.
Qed.


(** C2, as the code has it: when the first attempt is answered with
    status 404 and a JSON object, the client never consults the
    classifier. The outcome is ERROR with code API_ERROR and the "error"
    member as message when the object has such a member; otherwise it is
    read from the "status" member, INVALID with code INVALID_ACCOUNT
    unless that member is "Valid". In no case is the code
    ACCOUNT_NOT_FOUND, which is what the classifier returns for a 404
    whose message contains "account not found". *)
Theorem not_found_is_passed_through a st key st1 r entries :
  _get_api_key env st = (Ok key, st1) ->
  1 <= max_retries (client st) ->
  net env (net_pos st1) = NetResponse r ->
  status_code r = 404 ->
  content r = JsonText (PyDict entries) ->
  exists res st',
    validate_account env a st = (Ok res, st')
    /\ res = (if dict_has "error" entries then
                failure_result a ERROR "API_ERROR"
                  (Value (default (PyStr "Unknown API error") (dict_get "error" entries)))
              else if is_Valid (Value (default PyNone (dict_get "status" entries))) then
                {| account := a; status := VALID;
                   validated_name := default PyNone (dict_get "accountHolderName" entries);
                   account_status := Some "ACTIVE"; error_code := None;
                   error_message := Value PyNone;
                   bank_name := default PyNone (dict_get "bankName" entries) |}
              else
                failure_result a INVALID "INVALID_ACCOUNT"
                  (Value (default (PyStr "Account validation failed")
                            (dict_get "status" entries))))
    /\ error_code res <> Some (ErrorCode_value ACCOUNT_NOT_FOUND)
    /\ (forall message,
          api_error_message entries = PyStr message ->
          str_contains "account not found" message = true ->
          map_pesalink_error (status_code r) message = ErrorCode_value ACCOUNT_NOT_FOUND).
Proof.
  intros Hkey Hmax Hnet Hstatus Hbody.
  pose proof (make_request_rejected "POST" "/api/validate" (request_data a)
                _ _ _ _ Hkey Hmax Hnet ltac:(lia)) as Hrun.
  unfold rejection_reply in Hrun. rewrite Hbody in Hrun.
  eexists _, _. split; [|split; [reflexivity|split]].
  - unfold validate_account. unfold_M. rewrite Hrun. simpl.
    destruct (dict_has "error" entries); simpl; [done|].
    unfold is_Valid. by repeat case_match.
  - destruct (dict_has "error" entries); [done|].
    by destruct (is_Valid (Value (default PyNone (dict_get "status" entries)))).
  - intros message _ Hm. rewrite Hstatus. by apply map_pesalink_error_not_found.
Qed.

Lemma validate_account_total a st :
  exists res st', validate_account env a st = (Ok res, st').
Proof.
  unfold validate_account, try_except.
  match goal with |- context [?body st] => destruct (body st) as [[res|e] st'] end; eauto.
Qed.

End ClientResults.

(** C6: [validate_account] always returns a result, and so does
    [validate_single]; whatever is raised during the call is caught and
    becomes an ERROR outcome. The code of that outcome is the literal
    "EXCEPTION": not UNKNOWN_ERROR, and no member of the enumeration
    [ErrorCode]. So it is when the service answers 200 with a body that
    is not JSON. *)
Theorem validate_account_catches_all :
  (forall env a st, exists res st', validate_account env a st = (Ok res, st'))
  /\ (forall env a st, exists res st', validate_single env a st = (Ok res, st'))
  /\ (forall env a st e st',
        _make_request env "POST" "/api/validate" (request_data a) st = (Raise e, st') ->
        validate_account env a st = (Ok (exception_result a e), st'))
  /\ (forall a e, status (exception_result a e) = ERROR
                  /\ error_code (exception_result a e) = Some "EXCEPTION"
                  /\ error_code (exception_result a e) <> Some (ErrorCode_value UNKNOWN_ERROR))
  /\ Forall (fun code => ErrorCode_value code <> "EXCEPTION") all_error_codes
  /\ fst (validate_account (scripted [] (answer 200 Garbled)) account_ok
            (initial_state sample_config))
     = Ok (failure_result account_ok ERROR "EXCEPTION" (StrOf AttributeError)).
Proof.
  split; [exact validate_account_total|]. split; [|split; [|split; [|split]]].
  - intros env a st. unfold validate_single, try_except.
    destruct (negb (_validate_format a)); [eauto|].
    destruct (validate_account_total env a st) as (res & st' & ->). eauto.
  - exact validate_account_raised.
  - done.
  - repeat constructor; done.
  - reflexivity.
Qed.

Lemma rejection_is_not_retried_witness :
  exists st',
    _make_request (scripted [answer 404 not_found_body] NetTimeout) "POST" "/api/validate"
      (request_data account_ok) (initial_state sample_config)
    = (Ok (Parsed (PyDict [("message", PyStr "account not found")])), st')
    /\ trace st' = [EvHttp "POST" sample_url (request_data account_ok)]
    /\ net_pos st' = 1%nat.
Proof.
  destruct (rejection_is_not_retried (scripted [answer 404 not_found_body] NetTimeout)
              "POST" "/api/validate" (request_data account_ok) (initial_state sample_config)
              (PyStr "secret") (initial_state sample_config)
              {| status_code := 404; content := not_found_body |})
    as (st' & Hrun & Htrace & _ & _ & Hpos).
  - reflexivity.
  - vm_compute. discriminate.
  - reflexivity.
  - simpl. lia.
  - exists st'. split; [exact Hrun|]. split; [exact Htrace|exact Hpos].
Defined.



Lemma not_found_is_passed_through_witness :
  exists res st',
    validate_account (scripted [answer 404 not_found_body] NetTimeout) account_ok
      (initial_state sample_config) = (Ok res, st')
    /\ status res = INVALID
    /\ error_code res = Some "INVALID_ACCOUNT"
    /\ map_pesalink_error 404 "account not found" = "ACCOUNT_NOT_FOUND".
Proof.
  destruct (not_found_is_passed_through (scripted [answer 404 not_found_body] NetTimeout)
              account_ok (initial_state sample_config) (PyStr "secret")
              (initial_state sample_config)
              {| status_code := 404; content := not_found_body |}
              [("message", PyStr "account not found")])
    as (res & st' & Hrun & Hres & _ & Hclass).
  - reflexivity.
  - vm_compute. discriminate.
  - reflexivity.
  - reflexivity.
  - reflexivity.
  - exists res, st'. split; [exact Hrun|]. rewrite Hres.
    split; [reflexivity|]. split; [reflexivity|].
    exact (Hclass "account not found" eq_refl eq_refl).
Defined.

(** A 404 whose message is "account not found": the outcome is INVALID
    with code INVALID_ACCOUNT when the message is the "message" member of
    the body, ERROR with code API_ERROR when it is its "error" member;
    the classifier, had it been asked, would have said
    ACCOUNT_NOT_FOUND. *)
Lemma not_found_outcome_is_not_classified :
  fst (validate_account (scripted [answer 404 not_found_body] NetTimeout) account_ok
         (initial_state sample_config))
  = Ok (failure_result account_ok INVALID "INVALID_ACCOUNT"
          (Value (PyStr "Account validation failed")))
  /\ fst (validate_account (scripted [answer 404 not_found_error_body] NetTimeout) account_ok
            (initial_state sample_config))
     = Ok (failure_result account_ok ERROR "API_ERROR" (Value (PyStr "account not found")))
  /\ map_pesalink_error 404 "account not found" = "ACCOUNT_NOT_FOUND".
Proof. repeat split. Qed.

(** ** A success after retries *)

Section RetryThenSuccess.
Variable env : Env.

Lemma loop_step_answered method url data attempt rest st r v :
  net env (net_pos st) = NetResponse r ->
  200 <= status_code r < 400 ->
  content r = JsonText v ->
  _make_request_loop env method url data (attempt :: rest) st
  = (Ok (Parsed v), advance_net (record_event (EvHttp method url data) st)).
Proof.
  intros Hnet Hr Hbody. simpl.
  unfold get_client, requests_request, raise_for_status, has_content, response_json.
  unfold_M. rewrite Hnet. simpl.
  assert (H4 : (400 <=? status_code r) = false) by lia.
  rewrite H4, Hbody. done.
Qed.

Lemma loop_answered method url data (failures : nat) st r v :
  Z.of_nat failures < max_retries (client st) ->
  (forall k, (k < failures)%nat -> retryable (net env (net_pos st + k)) = true) ->
  (forall k, (k < failures)%nat ->
     sleeps_through env (net_pos st + S k) (retry_delay (client st) * 2 ^ Z.of_nat k) = true) ->
  net env (net_pos st + failures) = NetResponse r ->
  200 <= status_code r < 400 ->
  content r = JsonText v ->
  exists st',
    _make_request_loop env method url data (range (max_retries (client st))) st
    = (Ok (Parsed v), st')
    /\ trace st' = trace st ++ backoff_trace (EvHttp method url data)
                                (retry_delay (client st)) 0 failures
                              ++ [EvHttp method url data].
Proof.
  intros Hmax Hnet Hsleep Hr Hstatus Hbody.
  replace (range (max_retries (client st)))
    with (range (Z.of_nat (Z.to_nat (max_retries (client st))))) by (f_equal; lia).
  rewrite (range_split _ failures) by lia.
  destruct (loop_retries env method url data failures 0
              (Z.of_nat failures :: map Z.of_nat (seq (S failures)
                 (Z.to_nat (max_retries (client st)) - S failures))) st)
    as (st' & Hrun & Hc & Hn & Ht); [lia|done|exact Hsleep|].
  rewrite Hrun, (loop_step_answered _ _ _ _ _ _ r v); [|by rewrite Hn|done..].
  eexists. split; [done|]. simpl. rewrite Ht. by rewrite <- app_assoc.
Qed.

(** X2: when the first [k] attempts of a call fail with a retryable
    condition, with [k] below [max_retries], when [time.sleep] goes
    through with each of the [k] delays [retry_delay * 2 ^ i] (a delay
    from 0 to 9223372036 seconds that the platform does not refuse),
    and the next attempt is answered 200 with an object whose status is
    "Valid" (and without "error" member), the outcome is VALID with the holder and bank names
    of the answer, after exactly [k] sleeps of [retry_delay * 2 ^ i],
    [i] from 0 to [k - 1], and [k + 1] requests. *)
Theorem retry_then_success a st key st1 (k : nat) r entries :
  _get_api_key env st = (Ok key, st1) ->
  Z.of_nat k < max_retries (client st) ->
  (forall i, (i < k)%nat -> retryable (net env (net_pos st1 + i)) = true) ->
  (forall i, (i < k)%nat ->
     sleeps_through env (net_pos st1 + S i) (retry_delay (client st) * 2 ^ Z.of_nat i) = true) ->
  net env (net_pos st1 + k) = NetResponse r ->
  status_code r = 200 ->
  content r = JsonText (PyDict entries) ->
  dict_has "error" entries = false ->
  dict_get "status" entries = Some (PyStr "Valid") ->
  let request := EvHttp "POST" (base_url (client st) +:+ "/api/validate") (request_data a) in
  exists res st',
    validate_account env a st = (Ok res, st')
    /\ status res = VALID
    /\ validated_name res = default PyNone (dict_get "accountHolderName" entries)
    /\ bank_name res = default PyNone (dict_get "bankName" entries)
    /\ error_code res = None
    /\ trace st' = trace st1 ++ backoff_trace request (retry_delay (client st)) 0 k ++ [request]
    /\ sleeps_of (backoff_trace request (retry_delay (client st)) 0 k ++ [request])
       = map (fun i => retry_delay (client st) * 2 ^ Z.of_nat i) (seq 0 k)
    /\ length (requests_of (backoff_trace request (retry_delay (client st)) 0 k ++ [request]))
       = S k.
Proof.
  intros Hkey Hk Hnet Hsleep Hr Hstatus Hbody Herr Hvalid request.
  destruct (get_api_key_settings env _ _ _ Hkey) as (Hm & Hd & _).
  destruct (loop_answered "POST" (base_url (client st) +:+ "/api/validate")
              (request_data a) k st1 r (PyDict entries)) as (st' & Hrun & Ht);
    [by rewrite Hm|done|by intros i Hi; rewrite Hd; apply Hsleep|done|lia|done|].
  rewrite Hm in Hrun. rewrite Hd in Ht.
  rewrite <- (make_request_with_key env _ _ _ _ _ _ Hkey) in Hrun.
  eexists _, st'. split.
  { unfold validate_account. unfold_M. rewrite Hrun. simpl. rewrite Herr. simpl.
    rewrite Hvalid. simpl. reflexivity. }
  simpl. repeat split; try done.
  - unfold sleeps_of. rewrite flat_map_app.
    fold (sleeps_of (backoff_trace request (retry_delay (client st)) 0 k)).
    rewrite backoff_sleeps by done. simpl. by rewrite app_nil_r.
  - unfold requests_of. rewrite List.filter_app, length_app.
    fold (requests_of (backoff_trace request (retry_delay (client st)) 0 k)).
    rewrite backoff_requests by done. rewrite repeat_length. simpl. lia.
Qed.

End RetryThenSuccess.

Lemma retry_then_success_witness :
  exists res st',
    validate_account
      (scripted [answer 503 NoContent; answer 503 NoContent] (answer 200 valid_body))
      account_ok (initial_state sample_config)
    = (Ok res, st')
    /\ status res = VALID
    /\ validated_name res = PyStr "John Doe"
    /\ sleeps_of (trace st') = [2; 4].
Proof.
  destruct (retry_then_success
              (scripted [answer 503 NoContent; answer 503 NoContent] (answer 200 valid_body))
              account_ok (initial_state sample_config) (PyStr "secret")
              (initial_state sample_config) 2
              {| status_code := 200; content := valid_body |}
              [("status", PyStr "Valid"); ("accountHolderName", PyStr "John Doe");
               ("bankName", PyStr "ABC Bank"); ("currency", PyStr "KES")])
    as (res & st' & Hrun & Hstatus & Hname & _ & _ & Htrace & Hsleeps & _).
  - reflexivity.
  - reflexivity.
  - intros [|[|i]] Hi; [reflexivity..|lia].
  - intros [|[|i]] Hi; [reflexivity..|lia].
  - reflexivity.
  - reflexivity.
  - reflexivity.
  - reflexivity.
  - reflexivity.
  - exists res, st'. split; [exact Hrun|]. split; [exact Hstatus|]. split; [exact Hname|].
    rewrite Htrace. exact Hsleeps.
Defined.

(** ** The validator *)

Section Validator.
Variable env : Env.

Lemma validate_account_account a st res st' :
  validate_account env a st = (Ok res, st') -> account res = a.
Proof.
  unfold validate_account. unfold_M.
  destruct (_make_request env "POST" "/api/validate" (request_data a) st)
    as [[reply|e] st1]; simpl; [|by intros; simplify_eq].
  unfold has_error_member, reply_get, is_Valid, text_value. unfold_M.
  intros H. repeat (case_match; simplify_eq/=); done.
Qed.

Lemma validate_single_total a st :
  exists res st', validate_single env a st = (Ok res, st') /\ account res = a.
Proof.
  unfold validate_single, try_except.
  destruct (negb (_validate_format a)); [by eexists _, _|].
  destruct (validate_account env a st) as [[res|e] st'] eqn:H; [|by eexists _, _].
  exists res, st'. split; [done|]. by eapply validate_account_account.
Qed.

Lemma mapM_validate_single accs st :
  exists rs st', mapM (validate_single env) accs st = (Ok rs, st') /\ map account rs = accs.
Proof.
  revert st. induction accs as [|a accs IH]; intros st; simpl.
  - by eexists _, _.
  - destruct (validate_single_total a st) as (res & st1 & Hres & Ha).
    destruct (IH st1) as (rs & st2 & Hrs & Has).
    exists (res :: rs), st2. unfold_M. rewrite Hres, Hrs. simpl. by rewrite Ha, Has.
Qed.

Lemma mapM_submit accs st :
  exists futures st',
    mapM (submit env) accs st = (Ok futures, st')
    /\ map (fun f => account (collect f)) futures = accs.
Proof.
  revert st. induction accs as [|a accs IH]; intros st; simpl.
  - by eexists _, _.
  - destruct (validate_single_total a st) as (res & st1 & Hres & Ha).
    destruct (IH st1) as (fs & st2 & Hfs & Has).
    eexists (_ :: fs), st2. unfold_M. unfold submit at 1. rewrite Hres, Hfs. simpl.
    split; [done|]. simpl. unfold collect at 1. simpl. by rewrite Has, Ha.
Qed.

Hypothesis as_completed_each_once : forall futures, as_completed env futures ≡ₚ futures.

Lemma validate_batch_total self accs st :
  (use_parallel self = true -> 1 <= worker_threads self) ->
  exists rs st',
    validate_batch env self accs st = (Ok rs, st')
    /\ coordinated (use_parallel self) accs rs.
Proof.
  intros Hworkers. unfold validate_batch, coordinated.
  destruct (use_parallel self); simpl.
  - destruct (Z.leb_spec (worker_threads self) 0); [lia|].
    destruct (mapM_submit accs st) as (fs & st' & Hfs & Hacc).
    eexists _, st'. unfold_M. rewrite Hfs. split; [done|].
    rewrite map_map, <- Hacc. by apply Permutation_map.
  - apply mapM_validate_single.
Qed.

End Validator.

(** ** The batch processor *)

Lemma filter_partition {A} (f : A -> bool) (l : list A) :
  List.filter (fun x => negb (f x)) l ++ List.filter f l ≡ₚ l.
Proof.
  induction l as [|x l IH]; [done|]. simpl.
  destruct (f x); simpl.
  - rewrite <- Permutation_middle. by constructor.
  - by constructor.
Qed.

Lemma coordinated_perm parallel accs rs :
  coordinated parallel accs rs -> map account rs ≡ₚ accs.
Proof. unfold coordinated. destruct parallel; [done|]. by intros ->. Qed.

Lemma chunk_outcomes_accounts parallel chunk rs :
  chunk_outcomes parallel chunk rs -> map account rs ≡ₚ chunk.
Proof.
  intros (validated & -> & Hco%coordinated_perm).
  rewrite map_app, map_map. simpl. rewrite map_id, Hco.
  apply filter_partition.
Qed.

Lemma chunks_outcomes_accounts parallel chunks per_chunk :
  Forall2 (chunk_outcomes parallel) chunks per_chunk ->
  map account (concat per_chunk) ≡ₚ concat chunks.
Proof.
  induction 1 as [|chunk rs chunks per_chunk Hrs _ IH]; [done|].
  simpl. rewrite map_app, IH. by rewrite (chunk_outcomes_accounts _ _ _ Hrs).
Qed.

Lemma malformed_first_app rejected validated :
  Forall (fun a => _validate_format a = false) rejected ->
  forallb (fun r => _validate_format (account r)) validated = true ->
  malformed_first (map format_outcome rejected ++ validated) = true.
Proof.
  intros Hrej Hvalid. induction Hrej as [|a rejected Ha _ IH]; simpl.
  - destruct validated as [|r validated]; [done|]. simpl in *.
    apply andb_prop in Hvalid as [Hr Hrest]. by rewrite Hr.
  - by rewrite Ha.
Qed.

Lemma chunk_outcomes_malformed_first parallel chunk rs :
  chunk_outcomes parallel chunk rs -> malformed_first rs = true.
Proof.
  intros (validated & -> & Hco%coordinated_perm). apply malformed_first_app.
  - apply Forall_forall. intros a [_ Ha]%list_elem_of_In%filter_In.
    by destruct (_validate_format a).
  - apply forallb_forall. intros r Hr.
    assert (Hin : In (account r) (map account validated)) by by apply in_map.
    apply list_elem_of_In in Hin. rewrite Hco in Hin.
    apply list_elem_of_In, filter_In in Hin. by destruct Hin.
Qed.

Section Processor.
Variable env : Env.
Hypothesis as_completed_each_once : forall futures, as_completed env futures ≡ₚ futures.

Variable self : BatchProcessor.
Hypothesis workers_positive :
  use_parallel (validator self) = true -> 1 <= worker_threads (validator self).

(** A batch within the maximum size is validated as it is. *)
Lemma process_batch_small fuel batch st :
  total_accounts batch <= max_batch_size self ->
  exists result batch' st',
    process_batch env (S fuel) self batch st = (Ok (Some (result, batch')), st')
    /\ chunk_outcomes (use_parallel (validator self)) (accounts batch) (results result).
Proof.
  intros Hsmall. simpl.
  destruct (Z.ltb_spec (max_batch_size self) (total_accounts batch)); [lia|].
  unfold BatchValidationResult_init, datetime_now. unfold_M.
  match goal with |- context [validate_batch env ?v ?accs ?s] =>
    destruct (validate_batch_total env as_completed_each_once v accs s workers_positive)
      as (rs & st' & Hrs & Hco)
  end.
  rewrite Hrs. eexists _, _, _. split; [done|]. simpl. by exists rs.
Qed.

Lemma process_sub_batches fuel subs acc st :
  Forall (fun sub => total_accounts sub <= max_batch_size self) subs ->
  exists per_chunk st',
    foldM (fun (all_results : option (list ValidationResult)) sub_batch =>
             sub_result ← process_batch env (S fuel) self sub_batch;
             mret (rs ← all_results; sub ← sub_result; Some (rs ++ results (fst sub))))
          (Some acc) subs st
    = (Ok (Some (acc ++ concat per_chunk)), st')
    /\ Forall2 (chunk_outcomes (use_parallel (validator self))) (map accounts subs) per_chunk.
Proof.
  intros Hsmall. revert acc st.
  set (step := fun (all_results : option (list ValidationResult)) sub_batch => _).
  induction Hsmall as [|sub subs Hsub _ IH]; intros acc st.
  - exists [], st. simpl. rewrite app_nil_r. by split.
  - destruct (process_batch_small fuel sub st Hsub) as (result & sub' & st1 & Hrun & Hout).
    destruct (IH (acc ++ results result) st1) as (per_chunk & st2 & Hfold & Hall).
    assert (Hstep : step (Some acc) sub st = (Ok (Some (acc ++ results result)), st1)).
    { unfold step. unfold_M. by rewrite Hrun. }
    exists (results result :: per_chunk), st2. split.
    + cbn [foldM]. rewrite (bind_Ok _ _ _ _ _ Hstep), Hfold. simpl. by rewrite <- app_assoc.
    + by constructor.
Qed.

(** A batch beyond the maximum size is split, and its sub-batches are
    validated one after the other. *)
Lemma process_batch_large fuel batch st :
  1 <= max_batch_size self ->
  total_accounts batch = Z.of_nat (length (accounts batch)) ->
  max_batch_size self < total_accounts batch ->
  exists result st' chunks per_chunk,
    process_batch env (S (S fuel)) self batch st = (Ok (Some (result, batch)), st')
    /\ split_accounts (accounts batch) (max_batch_size self) = Some chunks
    /\ results result = concat per_chunk
    /\ Forall2 (chunk_outcomes (use_parallel (validator self))) chunks per_chunk.
Proof.
  intros Hmax Htotal Hlarge.
  destruct (Batch_split_large env batch (max_batch_size self) st)
    as (subs & st1 & Hsplit & Hchunks & _ & Hsubs & _); [done|lia|].
  assert (Hshort : Forall (fun sub => total_accounts sub <= max_batch_size self) subs).
  { destruct (split_accounts_concat _ _ _ Hmax Hchunks) as [_ Hlen].
    rewrite Forall_map in Hlen. rewrite Forall_forall in Hlen, Hsubs.
    apply Forall_forall. intros sub Hin.
    destruct (Hsubs sub Hin) as [_ ->]. exact (Hlen sub Hin). }
  destruct (process_sub_batches fuel subs [] st1 Hshort) as (per_chunk & st2 & Hfold & Hall).
  remember (S fuel) as fuel' eqn:Hfuel. cbn [process_batch].
  destruct (Z.ltb_spec (max_batch_size self) (total_accounts batch)); [|lia].
  rewrite (bind_Ok _ _ _ _ _ Hsplit), (bind_Ok _ _ _ _ _ Hfold).
  eexists _, _, (map accounts subs), per_chunk. split; [reflexivity|]. done.
Qed.

(** What [process] returns, chunk by chunk. *)
Lemma process_structure fuel accs st :
  (2 <= fuel)%nat ->
  1 <= max_batch_size self ->
  exists rs st' chunks per_chunk,
    process env fuel self accs st = (Ok (Some rs), st')
    /\ split_accounts accs (max_batch_size self) = Some chunks
    /\ rs = concat per_chunk
    /\ Forall2 (chunk_outcomes (use_parallel (validator self))) chunks per_chunk.
Proof.
  intros Hfuel Hmax.
  destruct fuel as [|[|fuel]]; [lia..|].
  destruct accs as [|a accs].
  { exists [], st, [[]], [[]]. repeat split; try done.
    - by rewrite split_accounts_small by (simpl; lia).
    - constructor; [|done]. exists []. split; [done|].
      unfold coordinated. by destruct (use_parallel (validator self)). }
  set (all := a :: accs).
  unfold process. cbn [all]. fold all.
  erewrite bind_Ok by reflexivity. erewrite bind_Ok by reflexivity.
  match goal with |- context [(process_batch env _ self ?b ≫= _) ?s] =>
    set (batch := b); set (st0 := s) end.
  destruct (Z.le_gt_cases (Z.of_nat (length all)) (max_batch_size self)) as [Hsmall|Hlarge].
  - destruct (process_batch_small (S fuel) batch st0) as (result & b' & st1 & Hrun & Hout);
      [done|].
    rewrite (bind_Ok _ _ _ _ _ Hrun). erewrite bind_Ok by reflexivity.
    eexists _, _, [all], [results result]. split; [reflexivity|]. repeat split.
    + by apply split_accounts_small.
    + simpl. by rewrite app_nil_r.
    + by constructor.
  - destruct (process_batch_large fuel batch st0)
      as (result & st1 & chunks & per_chunk & Hrun & Hchunks & Hres & Hall);
      [done|done|change (max_batch_size self < Z.of_nat (length all)); lia|].
    rewrite (bind_Ok _ _ _ _ _ Hrun). erewrite bind_Ok by reflexivity.
    eexists _, _, chunks, per_chunk. split; [reflexivity|]. done.
Qed.

End Processor.

(** ** The pipeline as a whole *)

(** C1, as the code has it: for every list of accounts, with a maximum
    batch size of at least one, a positive worker count when the
    parallel mode is on, a pool that hands back every future once, and
    enough fuel for the one level of recursion, [process] returns a list
    with exactly one result per input account: its length is that of the
    input, and the accounts of the results are those of the input, each
    as often as it was given. *)
Theorem process_one_result_per_account env fuel self accs st :
  (forall futures, as_completed env futures ≡ₚ futures) ->
  (use_parallel (validator self) = true -> 1 <= worker_threads (validator self)) ->
  1 <= max_batch_size self ->
  (2 <= fuel)%nat ->
  exists rs st',
    process env fuel self accs st = (Ok (Some rs), st')
    /\ length rs = length accs
    /\ map account rs ≡ₚ accs.
Proof.
  intros Hpool Hworkers Hmax Hfuel.
  destruct (process_structure env Hpool self Hworkers fuel accs st Hfuel Hmax)
    as (rs & st' & chunks & per_chunk & Hrun & Hsplit & -> & Hall).
  destruct (split_accounts_concat _ _ _ Hmax Hsplit) as [Hconcat _].
  assert (Hperm : map account (concat per_chunk) ≡ₚ accs).
  { rewrite <- Hconcat. by eapply chunks_outcomes_accounts. }
  exists (concat per_chunk), st'. repeat split; [done| |done].
  by rewrite <- (length_map account), Hperm.
Qed.

Lemma process_one_result_per_account_witness :
  exists rs st',
    process (scripted [] (answer 200 valid_body)) 2 (sample_processor 2 true)
      [account_ok; account_blank; account_ok] (initial_state sample_config)
    = (Ok (Some rs), st')
    /\ length rs = 3%nat
    /\ map account rs ≡ₚ [account_ok; account_blank; account_ok].
Proof.
  apply (process_one_result_per_account (scripted [] (answer 200 valid_body)) 2
           (sample_processor 2 true) [account_ok; account_blank; account_ok]
           (initial_state sample_config)).
  - intros futures. symmetry. apply Permutation_rev.
  - intros _. vm_compute. discriminate.
  - vm_compute. discriminate.
  - lia.
Defined.

(** With a negative maximum batch size every account is lost. *)
Lemma process_negative_size_loses_accounts :
  fst (process (scripted [] (answer 200 valid_body)) 2 (sample_processor (-1) false)
         [account_ok] (initial_state sample_config))
  = Ok (Some []).
Proof. reflexivity. Qed.

(** C8, as the code has it, for a maximum batch size of at least one
    and, in parallel mode, a worker count of at least one (the pool
    hands the results over in any order of completion): [process]
    first cuts the input into chunks of at most the maximum batch size,
    and only then, within each chunk, separates the accounts that fail the format check from the
    others. The list returned is the concatenation, chunk after chunk
    in input order, of the INVALID_FORMAT outcomes of the chunk followed
    by the validator's results for the rest of the chunk; within a chunk,
    and so for an input that fits in one batch, no outcome of a format
    failure comes after a validator result. *)
Theorem process_malformed_first_per_chunk env fuel self accs st :
  (forall futures, as_completed env futures ≡ₚ futures) ->
  (use_parallel (validator self) = true -> 1 <= worker_threads (validator self)) ->
  1 <= max_batch_size self ->
  (2 <= fuel)%nat ->
  exists rs st' chunks per_chunk,
    process env fuel self accs st = (Ok (Some rs), st')
    /\ split_accounts accs (max_batch_size self) = Some chunks
    /\ concat chunks = accs
    /\ Forall (fun chunk => Z.of_nat (length chunk) <= max_batch_size self) chunks
    /\ rs = concat per_chunk
    /\ Forall2 (chunk_outcomes (use_parallel (validator self))) chunks per_chunk
    /\ Forall (fun chunk_rs => malformed_first chunk_rs = true) per_chunk
    /\ (Z.of_nat (length accs) <= max_batch_size self ->
        chunk_outcomes (use_parallel (validator self)) accs rs
        /\ malformed_first rs = true).
Proof.
  intros Hpool Hworkers Hmax Hfuel.
  destruct (process_structure env Hpool self Hworkers fuel accs st Hfuel Hmax)
    as (rs & st' & chunks & per_chunk & Hrun & Hsplit & -> & Hall).
  destruct (split_accounts_concat _ _ _ Hmax Hsplit) as [Hconcat Hshort].
  exists (concat per_chunk), st', chunks, per_chunk.
  repeat split; try done.
  - clear -Hall. induction Hall as [|chunk rs chunks per_chunk Hrs _ IH]; constructor; [|done].
    by eapply chunk_outcomes_malformed_first.
  - rewrite split_accounts_small in Hsplit by done. injection Hsplit as <-.
    inversion Hall as [|? rs ? rest Hrs Hrest]; subst. inversion Hrest; subst.
    simpl. by rewrite app_nil_r.
  - rewrite split_accounts_small in Hsplit by done. injection Hsplit as <-.
    inversion Hall as [|? rs ? rest Hrs Hrest]; subst. inversion Hrest; subst.
    simpl. rewrite app_nil_r. by eapply chunk_outcomes_malformed_first.
Qed.

Lemma process_malformed_first_per_chunk_witness :
  exists rs st' chunks per_chunk,
    process (scripted [] (answer 200 valid_body)) 2 (sample_processor 2 false)
      [account_ok; account_blank; account_ok] (initial_state sample_config)
    = (Ok (Some rs), st')
    /\ split_accounts [account_ok; account_blank; account_ok]
         (max_batch_size (sample_processor 2 false)) = Some chunks
    /\ concat chunks = [account_ok; account_blank; account_ok]
    /\ Forall (fun chunk => Z.of_nat (length chunk) <= max_batch_size (sample_processor 2 false))
         chunks
    /\ rs = concat per_chunk
    /\ Forall2 (chunk_outcomes (use_parallel (validator (sample_processor 2 false))))
         chunks per_chunk
    /\ Forall (fun chunk_rs => malformed_first chunk_rs = true) per_chunk
    /\ (Z.of_nat (length [account_ok; account_blank; account_ok])
        <= max_batch_size (sample_processor 2 false) ->
        chunk_outcomes (use_parallel (validator (sample_processor 2 false)))
          [account_ok; account_blank; account_ok] rs
        /\ malformed_first rs = true).
Proof.
  apply (process_malformed_first_per_chunk (scripted [] (answer 200 valid_body)) 2
           (sample_processor 2 false) [account_ok; account_blank; account_ok]
           (initial_state sample_config)).
  - intros futures. symmetry. apply Permutation_rev.
  - vm_compute. discriminate.
  - vm_compute. discriminate.
  - lia.
Defined.

(** With a maximum batch size of one, the result for a well-formed
    account comes before the INVALID_FORMAT outcome of the malformed
    account that follows it in the input. *)
Lemma process_malformed_after_validated :
  exists validated st',
    process (scripted [] (answer 200 valid_body)) 2 (sample_processor 1 false)
      [account_ok; account_blank] (initial_state sample_config)
    = (Ok (Some [validated; format_outcome account_blank]), st')
    /\ status validated = VALID
    /\ _validate_format (account validated) = true
    /\ malformed_first [validated; format_outcome account_blank] = false.
Proof. eexists _, _. split; [vm_compute; reflexivity|]. by vm_compute. Qed.

(** C4, at an account whose number is a JSON number: the format check of
    the pipeline accepts it, although it is not text and the check of
    the account model refuses it; the account is sent to the service and
    gets the service's verdict, not INVALID_FORMAT. *)
Theorem numeric_account_number_is_validated_remotely :
  is_str (account_number account_numeric) = false
  /\ validate_format account_numeric = false
  /\ _validate_format account_numeric = true
  /\ exists result st',
       process (scripted [] (answer 200 valid_body)) 2 (sample_processor 1000 false)
         [account_numeric] (initial_state sample_config)
       = (Ok (Some [result]), st')
       /\ status result = VALID
       /\ error_code result = None
       /\ trace st' = [EvHttp "POST" sample_url (request_data account_numeric)].
Proof.
  repeat split; try reflexivity.
  eexists _, _. split; [vm_compute; reflexivity|]. by vm_compute.
Qed.

(** The accounts that the format check of the pipeline does refuse are
    those with a number or a bank code that Python takes for false. *)
Lemma validate_format_spec a :
  _validate_format a = truthy (account_number a) && truthy (bank_code a).
Proof. unfold _validate_format. by destruct (truthy (account_number a)), (truthy (bank_code a)). Qed.

(** ** What reaches the network *)

Section Emits.
Variable P : Event -> Prop.

Lemma emits_silent {A} (m : M A) :
  (forall st, trace (snd (m st)) = trace st) -> emits P m.
Proof. intros H st. exists []. by rewrite H, app_nil_r. Qed.

Lemma emits_ret {A} (a : A) : emits P (mret a).
Proof. by apply emits_silent. Qed.

Lemma emits_raise {A} (e : Exn) : emits P (raise e : M A).
Proof. by apply emits_silent. Qed.

Lemma emits_bind {A B} (m : M A) (f : A -> M B) :
  emits P m -> (forall a, emits P (f a)) -> emits P (m ≫= f).
Proof.
  intros Hm Hf st. destruct (Hm st) as (evs & Ht & Hevs).
  unfold mbind, M_bind. destruct (m st) as [[a|e] st1]; simpl in *.
  - destruct (Hf a st1) as (evs' & Ht' & Hevs').
    exists (evs ++ evs'). rewrite Ht', Ht, app_assoc. split; [done|]. by apply Forall_app.
  - by exists evs.
Qed.

Lemma emits_try {A} (body : M A) (handler : Exn -> M A) :
  emits P body -> (forall e, emits P (handler e)) -> emits P (try_except body handler).
Proof.
  intros Hm Hh st. destruct (Hm st) as (evs & Ht & Hevs).
  unfold try_except. destruct (body st) as [[a|e] st1]; simpl in *.
  - by exists evs.
  - destruct (Hh e st1) as (evs' & Ht' & Hevs').
    exists (evs ++ evs'). rewrite Ht', Ht, app_assoc. split; [done|]. by apply Forall_app.
Qed.

Lemma emits_mapM {A B} (f : A -> M B) (xs : list A) :
  (forall x, In x xs -> emits P (f x)) -> emits P (mapM f xs).
Proof.
  induction xs as [|x xs IH]; intros Hf; simpl; [apply emits_ret|].
  apply emits_bind; [apply Hf; by left|]. intros y.
  apply emits_bind; [apply IH; intros; apply Hf; by right|]. intros ys. apply emits_ret.
Qed.

Lemma emits_foldM {A B} (step : B -> A -> M B) (xs : list A) (acc : B) :
  (forall acc' x, In x xs -> emits P (step acc' x)) -> emits P (foldM step acc xs).
Proof.
  revert acc. induction xs as [|x xs IH]; intros acc Hf; simpl; [apply emits_ret|].
  apply emits_bind; [apply Hf; by left|]. intros acc'. apply IH. intros. apply Hf. by right.
Qed.

End Emits.

Lemma emits_mono {A} (P Q : Event -> Prop) (m : M A) :
  (forall ev, P ev -> Q ev) -> emits P m -> emits Q m.
Proof.
  intros HPQ Hm st. destruct (Hm st) as (evs & Ht & Hevs).
  exists evs. split; [done|]. eapply Forall_impl; [exact Hevs|exact HPQ].
Qed.

(** Goes through binds, branches, returns and raises. *)
Ltac emits_steps :=
  repeat first
    [ apply emits_raise | apply emits_ret
    | apply emits_bind; [|intros ?]
    | case_match ].

Section EmitsEngine.
Variable env : Env.
Variable P : Event -> Prop.

Lemma emits_requests_request method url payload :
  P (EvHttp method url payload) -> emits P (requests_request env method url payload).
Proof.
  intros HP st. exists [EvHttp method url payload].
  unfold requests_request. split; [by destruct (net env (net_pos st))|]. by constructor.
Qed.

Lemma emits_raise_for_status r : emits P (raise_for_status r).
Proof. unfold raise_for_status. case_match; [apply emits_raise|apply emits_ret]. Qed.

Lemma emits_response_json r : emits P (response_json r).
Proof. unfold response_json. case_match; first [apply emits_raise|apply emits_ret]. Qed.

Lemma emits_time_sleep seconds : P (EvSleep seconds) -> emits P (time_sleep env seconds).
Proof.
  intros HP st. unfold time_sleep.
  repeat case_match; try by (exists []; split; [by rewrite app_nil_r|]).
  exists [EvSleep seconds]. split; [done|]. by constructor.
Qed.

Hypothesis sleeps_allowed : forall seconds, P (EvSleep seconds).
Hypothesis fetch_allowed : forall url, P (EvHttp "GET" url PyNone).

Lemma emits_get_api_key : emits P (_get_api_key env).
Proof.
  unfold _get_api_key, _fetch_api_key.
  apply emits_bind; [by apply emits_silent|]. intros self.
  case_match; [|apply emits_ret].
  apply emits_bind.
  - apply emits_try; [|intros; apply emits_raise].
    apply emits_bind; [by apply emits_silent|]. intros self'.
    apply emits_bind; [by apply emits_requests_request|]. intros response.
    apply emits_bind; [apply emits_raise_for_status|]. intros _.
    apply emits_bind; [apply emits_response_json|]. intros data.
    apply emits_bind; [case_match; first [apply emits_raise|apply emits_ret]|].
    intros key. case_match; [apply emits_raise|apply emits_ret].
  - intros key. apply emits_bind; [by apply emits_silent|]. intros _.
    apply emits_bind; [by apply emits_silent|]. intros self'. apply emits_ret.
Qed.

Lemma emits_make_request_loop method url data attempts :
  P (EvHttp method url data) -> emits P (_make_request_loop env method url data attempts).
Proof.
  intros HP. induction attempts as [|attempt rest IH]; simpl; [apply emits_ret|].
  apply emits_bind; [by apply emits_silent|]. intros self.
  apply emits_bind.
  - apply emits_try.
    + apply emits_bind; [by apply emits_requests_request|]. intros response.
      apply emits_bind; [apply emits_raise_for_status|]. intros _.
      case_match; [|apply emits_ret].
      apply emits_bind; [apply emits_response_json|]. intros v. apply emits_ret.
    + intros e.
      repeat first
        [ apply emits_response_json | apply emits_time_sleep, sleeps_allowed
        | progress emits_steps ].
  - intros [r|]; [apply emits_ret|exact IH].
Qed.

Lemma emits_make_request method endpoint data :
  (forall url, P (EvHttp method url data)) -> emits P (_make_request env method endpoint data).
Proof.
  intros HP. unfold _make_request.
  apply emits_bind; [by apply emits_silent|]. intros self.
  apply emits_bind; [apply emits_get_api_key|]. intros _.
  by apply emits_make_request_loop.
Qed.

End EmitsEngine.

Section EmitsPipeline.
Variable env : Env.

Lemma emits_validate_account a : emits (event_of a) (validate_account env a).
Proof.
  unfold validate_account.
  apply emits_try; [|intros; apply emits_ret].
  apply emits_bind.
  { apply emits_make_request; simpl; auto. }
  intros response. unfold has_error_member, reply_get. emits_steps.
Qed.

Lemma emits_validate_single a : emits (event_of a) (validate_single env a).
Proof.
  unfold validate_single. apply emits_try; [|intros; apply emits_ret].
  case_match; [apply emits_ret|apply emits_validate_account].
Qed.

Lemma emits_submit a : emits (event_of a) (submit env a).
Proof.
  intros st. destruct (emits_validate_single a st) as (evs & Ht & Hevs).
  exists evs. unfold submit. by destruct (validate_single env a st) as [[r|e] st'].
Qed.

Lemma emits_validate_batch self accs :
  Forall (fun a => _validate_format a = true) accs ->
  emits (event_of_checked accs) (validate_batch env self accs).
Proof.
  intros Hok. rewrite Forall_forall in Hok.
  assert (Hone : forall a, In a accs -> forall ev, event_of a ev -> event_of_checked accs ev).
  { intros a Hin ev Hev. exists a. repeat split; [done| |done]. by apply Hok, list_elem_of_In. }
  unfold validate_batch.
  case_match; [apply emits_mapM; intros a Hin;
               by eapply emits_mono; [apply (Hone a Hin)|apply emits_validate_single]|].
  case_match; [apply emits_raise|].
  apply emits_bind; [|intros; apply emits_ret].
  apply emits_mapM. intros a Hin.
  by eapply emits_mono; [apply (Hone a Hin)|apply emits_submit].
Qed.

End EmitsPipeline.

Lemma emits_bind_post {A B} (P : Event -> Prop) (Q : A -> Prop) (m : M A) (f : A -> M B) :
  emits P m ->
  (forall st a st', m st = (Ok a, st') -> Q a) ->
  (forall a, Q a -> emits P (f a)) ->
  emits P (m ≫= f).
Proof.
  intros Hm HQ Hf st. destruct (Hm st) as (evs & Ht & Hevs).
  unfold mbind, M_bind. destruct (m st) as [[a|e] st1] eqn:Hrun; simpl in *.
  - destruct (Hf a (HQ _ _ _ Hrun) st1) as (evs' & Ht' & Hevs').
    exists (evs ++ evs'). rewrite Ht', Ht, app_assoc. split; [done|]. by apply Forall_app.
  - by exists evs.
Qed.

Lemma event_of_checked_mono (accs accs' : list Account) ev :
  (forall a, In a accs -> In a accs') ->
  event_of_checked accs ev -> event_of_checked accs' ev.
Proof. intros Hsub (a & Hin & Hok & Hev). exists a. auto. Qed.

Section EmitsProcessor.
Variable env : Env.

Lemma emits_Batch_init P accs meta : emits P (Batch_init env accs meta).
Proof. by apply emits_silent. Qed.

Lemma Batch_init_accounts accs meta st batch st' :
  Batch_init env accs meta st = (Ok batch, st') -> accounts batch = accs.
Proof. unfold Batch_init, uuid4, datetime_now. unfold_M. by intros [= <- _]. Qed.

Lemma emits_Batch_split P batch max_size : emits P (Batch_split env batch max_size).
Proof.
  unfold Batch_split. case_match; [apply emits_ret|].
  case_match; [|apply emits_raise].
  apply emits_mapM. intros. apply emits_Batch_init.
Qed.

(** The accounts of a sub-batch are accounts of the batch. *)
Lemma Batch_split_accounts batch max_size st subs st' :
  Batch_split env batch max_size st = (Ok subs, st') ->
  forall sub, In sub subs -> forall a, In a (accounts sub) -> In a (accounts batch).
Proof.
  unfold Batch_split. case_match.
  { intros [= <- _] sub [<-|[]]. done. }
  case_match; [|done].
  match goal with |- context [mapM _ ?starts st] =>
    destruct (mapM_Batch_init env
                (fun i => py_slice (accounts batch) i (i + max_size)) (metadata batch) starts st)
      as (subs' & st'' & Hrun & Ha & _)
  end.
  rewrite Hrun. intros [= <- _] sub Hsub a Hin.
  assert (Hacc : In (accounts sub) (map accounts subs')) by by apply in_map.
  rewrite Ha in Hacc. apply in_map_iff in Hacc as (i & Hi & _).
  rewrite <- Hi in Hin. unfold py_slice in Hin.
  apply list_elem_of_In. apply list_elem_of_In in Hin.
  by apply subseteq_take, subseteq_drop in Hin.
Qed.

Lemma emits_process_batch fuel self batch :
  emits (event_of_checked (accounts batch)) (process_batch env fuel self batch).
Proof.
  revert batch. induction fuel as [|fuel IH]; intros batch; simpl; [apply emits_ret|].
  case_match.
  - eapply (emits_bind_post _
              (fun subs => forall sub, In sub subs ->
                           forall a, In a (accounts sub) -> In a (accounts batch))).
    + apply emits_Batch_split.
    + intros st subs st' Hrun. by eapply Batch_split_accounts.
    + intros subs Hsubs.
      apply emits_bind.
      * apply emits_foldM. intros acc sub Hin.
        apply emits_bind; [|intros; apply emits_ret].
        eapply emits_mono; [|apply IH].
        intros ev. apply event_of_checked_mono. by apply Hsubs.
      * intros all_results.
        apply emits_bind; [by apply emits_silent|]. intros result.
        apply emits_bind; [by apply emits_silent|]. intros now. apply emits_ret.
  - apply emits_bind; [by apply emits_silent|]. intros batch_result.
    apply emits_bind.
    + eapply emits_mono; [|apply emits_validate_batch].
      * intros ev. apply event_of_checked_mono. intros a Hin.
        by apply filter_In in Hin as [? _].
      * apply Forall_forall. intros a Hin%list_elem_of_In. by apply filter_In in Hin as [_ ?].
    + intros rs. apply emits_bind; [by apply emits_silent|]. intros processed.
      apply emits_bind; [by apply emits_silent|]. intros now. apply emits_ret.
Qed.

Lemma emits_process fuel self accs :
  emits (event_of_checked accs) (process env fuel self accs).
Proof.
  unfold process. destruct accs as [|a accs]; [apply emits_ret|].
  apply emits_bind; [by apply emits_silent|]. intros start_time.
  eapply (emits_bind_post _ (fun batch => accounts batch = a :: accs)).
  - apply emits_Batch_init.
  - intros st batch st'. apply Batch_init_accounts.
  - intros batch Hbatch.
    apply emits_bind; [rewrite <- Hbatch; apply emits_process_batch|]. intros result.
    apply emits_bind; [by apply emits_silent|]. intros end_time. apply emits_ret.
Qed.

End EmitsProcessor.

Lemma request_data_format a a' :
  request_data a = request_data a' -> _validate_format a = _validate_format a'.
Proof. intros [= Hn Hc]. by rewrite !validate_format_spec, Hn, Hc. Qed.

Lemma in_concat_chunk {A B} (R : list A -> list B -> Prop) chunks per_chunk (x : B) :
  Forall2 R chunks per_chunk -> In x (concat per_chunk) ->
  exists chunk rs, In chunk chunks /\ R chunk rs /\ In x rs.
Proof.
  induction 1 as [|chunk rs chunks per_chunk Hrs _ IH]; simpl; [done|].
  intros [Hx|Hx]%in_app_or.
  - exists chunk, rs. auto.
  - destruct (IH Hx) as (chunk' & rs' & ? & ? & ?). exists chunk', rs'. auto.
Qed.

Lemma in_chunk_concat {A B} (R : list A -> list B -> Prop) chunks per_chunk (a : A) :
  Forall2 R chunks per_chunk -> In a (concat chunks) ->
  exists chunk rs, In a chunk /\ R chunk rs /\ forall x, In x rs -> In x (concat per_chunk).
Proof.
  induction 1 as [|chunk rs chunks per_chunk Hrs _ IH]; simpl; [done|].
  intros [Ha|Ha]%in_app_or.
  - exists chunk, rs. repeat split; [done..|]. intros x Hx. apply in_or_app. by left.
  - destruct (IH Ha) as (chunk' & rs' & ? & ? & Hsub). exists chunk', rs'.
    repeat split; [done..|]. intros x Hx. apply in_or_app. right. by apply Hsub.
Qed.

(** X1: for every account of the input that the format check refuses,
    under the conditions of C1: the result list holds its INVALID
    outcome with code INVALID_FORMAT, every result for it is that
    outcome, and no request that [process] sends carries it. *)
Theorem malformed_accounts_stay_local env fuel self accs st a :
  (forall futures, as_completed env futures ≡ₚ futures) ->
  (use_parallel (validator self) = true -> 1 <= worker_threads (validator self)) ->
  1 <= max_batch_size self ->
  (2 <= fuel)%nat ->
  In a accs ->
  _validate_format a = false ->
  exists rs st' evs,
    process env fuel self accs st = (Ok (Some rs), st')
    /\ In (format_outcome a) rs
    /\ (forall r, In r rs -> account r = a -> r = format_outcome a)
    /\ status (format_outcome a) = INVALID
    /\ error_code (format_outcome a) = Some (ErrorCode_value INVALID_FORMAT)
    /\ trace st' = trace st ++ evs
    /\ (forall method url, ~ In (EvHttp method url (request_data a)) evs).
Proof.
  intros Hpool Hworkers Hmax Hfuel Hin Hbad.
  destruct (process_structure env Hpool self Hworkers fuel accs st Hfuel Hmax)
    as (rs & st' & chunks & per_chunk & Hrun & Hsplit & -> & Hall).
  destruct (split_accounts_concat _ _ _ Hmax Hsplit) as [Hconcat _].
  destruct (emits_process env fuel self accs st) as (evs & Htrace & Hevs).
  rewrite Hrun in Htrace. simpl in Htrace.
  exists (concat per_chunk), st', evs. repeat split; try done.
  - rewrite <- Hconcat in Hin.
    destruct (in_chunk_concat _ _ _ _ Hall Hin) as (chunk & rs & Ha & (validated & -> & _) & Hsub).
    apply Hsub, in_or_app. left. apply in_map, filter_In. by rewrite Hbad.
  - intros r Hr Hacc.
    destruct (in_concat_chunk _ _ _ _ Hall Hr) as (chunk & rs & _ & (validated & -> & Hco) & Hrs).
    apply in_app_or in Hrs as [Hrs|Hrs].
    + apply in_map_iff in Hrs as (a' & <- & _). simpl in Hacc. by subst a'.
    + apply coordinated_perm in Hco.
      assert (Hv : In (account r) (map account validated)) by by apply in_map.
      apply list_elem_of_In in Hv. rewrite Hco in Hv.
      apply list_elem_of_In, filter_In in Hv as [_ Hv]. congruence.
  - intros method url Hev. rewrite Forall_forall in Hevs.
    apply list_elem_of_In, Hevs in Hev as (a' & _ & Hok & [Hnone|Hsame]); [done|].
    apply request_data_format in Hsame. congruence.
Qed.

Lemma malformed_accounts_stay_local_witness :
  exists rs st' evs,
    process (scripted [] (answer 200 valid_body)) 2 (sample_processor 2 true)
      [account_ok; account_blank; account_ok] (initial_state sample_config)
    = (Ok (Some rs), st')
    /\ In (format_outcome account_blank) rs
    /\ trace st' = trace (initial_state sample_config) ++ evs
    /\ (forall method url, ~ In (EvHttp method url (request_data account_blank)) evs).
Proof.
  destruct (malformed_accounts_stay_local (scripted [] (answer 200 valid_body)) 2
              (sample_processor 2 true) [account_ok; account_blank; account_ok]
              (initial_state sample_config) account_blank)
    as (rs & st' & evs & Hrun & Hin & _ & _ & _ & Htrace & Hnone).
  - intros futures. symmetry. apply Permutation_rev.
  - intros _. vm_compute. discriminate.
  - vm_compute. discriminate.
  - lia.
  - right. by left.
  - reflexivity.
  - exists rs, st', evs.
    split; [exact Hrun|]. split; [exact Hin|]. split; [exact Htrace|exact Hnone].
Defined.

(* ===================================================================== *)
(** * Further properties *)
(* ===================================================================== *)

(** ** Counting what reaches the network *)

Lemma count_events_app counted evs evs' :
  count_events counted (evs ++ evs')
  = (count_events counted evs + count_events counted evs')%nat.
Proof. unfold count_events. by rewrite List.filter_app, length_app. Qed.

Section Costs.
Variable counted : Event -> bool.
Variable I : State -> Prop.
Hypothesis I_client : forall st st', client st' = client st -> I st -> I st'.

Lemma costs_mono {A} (n n' : nat) (m : M A) :
  (n <= n')%nat -> costs counted I n m -> costs counted I n' m.
Proof.
  intros Hn Hm st HI. destruct (Hm st HI) as (evs & Ht & Hc & HI').
  exists evs. repeat split; [done|lia|done].
Qed.

Lemma costs_silent {A} (n : nat) (m : M A) :
  (forall st, trace (snd (m st)) = trace st /\ client (snd (m st)) = client st) ->
  costs counted I n m.
Proof.
  intros H st HI. destruct (H st) as [Ht Hc]. exists [].
  rewrite Ht, app_nil_r. repeat split; [cbn; lia|]. by eapply I_client.
Qed.

Lemma costs_ret {A} (n : nat) (a : A) : costs counted I n (mret a).
Proof. intros st HI. exists []. simpl. rewrite app_nil_r. repeat split; [cbn; lia|done]. Qed.

Lemma costs_raise {A} (n : nat) (e : Exn) : costs counted I n (raise e : M A).
Proof. intros st HI. exists []. simpl. rewrite app_nil_r. repeat split; [cbn; lia|done]. Qed.

Lemma costs_bind {A B} (n1 n2 : nat) (m : M A) (f : A -> M B) :
  costs counted I n1 m -> (forall a, costs counted I n2 (f a)) ->
  costs counted I (n1 + n2) (m ≫= f).
Proof.
  intros Hm Hf st HI. destruct (Hm st HI) as (evs & Ht & Hc & HI1).
  unfold mbind, M_bind. destruct (m st) as [[a|e] st1]; simpl in *.
  - destruct (Hf a st1 HI1) as (evs' & Ht' & Hc' & HI2).
    exists (evs ++ evs'). rewrite Ht', Ht, app_assoc, count_events_app.
    repeat split; [lia|done].
  - exists evs. repeat split; [done|lia|done].
Qed.

Lemma costs_bind_post {A B} (n1 n2 : nat) (Q : A -> Prop) (m : M A) (f : A -> M B) :
  costs counted I n1 m ->
  yields Q m ->
  (forall a, Q a -> costs counted I n2 (f a)) ->
  costs counted I (n1 + n2) (m ≫= f).
Proof.
  intros Hm HQ Hf st HI. destruct (Hm st HI) as (evs & Ht & Hc & HI1).
  unfold mbind, M_bind. destruct (m st) as [[a|e] st1] eqn:Hrun; simpl in *.
  - destruct (Hf a (HQ _ _ _ Hrun) st1 HI1) as (evs' & Ht' & Hc' & HI2).
    exists (evs ++ evs'). rewrite Ht', Ht, app_assoc, count_events_app.
    repeat split; [lia|done].
  - exists evs. repeat split; [done|lia|done].
Qed.

(** The binds of which one side adds nothing that is counted. *)
Lemma costs_bind_r {A B} (n : nat) (m : M A) (f : A -> M B) :
  costs counted I 0 m -> (forall a, costs counted I n (f a)) -> costs counted I n (m ≫= f).
Proof. apply (costs_bind 0 n). Qed.

Lemma costs_bind_l {A B} (n : nat) (m : M A) (f : A -> M B) :
  costs counted I n m -> (forall a, costs counted I 0 (f a)) -> costs counted I n (m ≫= f).
Proof. intros Hm Hf. eapply costs_mono; [|by apply (costs_bind n 0)]. lia. Qed.

Lemma costs_try {A} (n : nat) (body : M A) (handler : Exn -> M A) :
  costs counted I n body -> (forall e, costs counted I 0 (handler e)) ->
  costs counted I n (try_except body handler).
Proof.
  intros Hm Hh st HI. destruct (Hm st HI) as (evs & Ht & Hc & HI1).
  unfold try_except. destruct (body st) as [[a|e] st1]; simpl in *.
  - by exists evs.
  - destruct (Hh e st1 HI1) as (evs' & Ht' & Hc' & HI2).
    exists (evs ++ evs'). rewrite Ht', Ht, app_assoc, count_events_app.
    repeat split; [lia|done].
Qed.

Lemma costs_mapM {A B} (w : A -> nat) (f : A -> M B) (xs : list A) :
  (forall x, In x xs -> costs counted I (w x) (f x)) ->
  costs counted I (sum_list_with w xs) (mapM f xs).
Proof.
  induction xs as [|x xs IH]; intros Hf; simpl; [apply costs_ret|].
  apply costs_bind; [apply Hf; by left|]. intros y.
  apply costs_bind_l; [apply IH; intros; apply Hf; by right|]. intros ys. apply costs_ret.
Qed.

Lemma costs_foldM {A B} (w : A -> nat) (step : B -> A -> M B) (xs : list A) (acc : B) :
  (forall acc' x, In x xs -> costs counted I (w x) (step acc' x)) ->
  costs counted I (sum_list_with w xs) (foldM step acc xs).
Proof.
  revert acc. induction xs as [|x xs IH]; intros acc Hf; simpl; [apply costs_ret|].
  apply costs_bind; [apply Hf; by left|]. intros acc'. apply IH. intros. apply Hf. by right.
Qed.

End Costs.

(** Goes through binds, branches, returns and raises that add nothing. *)
Ltac costs_free :=
  repeat first
    [ apply costs_raise | apply costs_ret
    | apply costs_bind_r; [|intros ?]
    | case_match ].

Lemma length_range (n : Z) : length (range n) = Z.to_nat n.
Proof. unfold range. by rewrite length_map, length_seq. Qed.

Lemma fetch_api_key_client env st : client (snd (_fetch_api_key env st)) = client st.
Proof.
  unfold _fetch_api_key, get_client, requests_request, raise_for_status, response_json.
  unfold_M. repeat (case_match; simplify_eq/=); done.
Qed.

Lemma fetch_api_key_truthy env st key st' :
  _fetch_api_key env st = (Ok key, st') -> truthy key = true.
Proof.
  unfold _fetch_api_key, get_client, requests_request, raise_for_status, response_json.
  unfold_M. intros H.
  repeat (case_match; simplify_eq/=); by destruct (truthy _).
Qed.

(** A client without credential fetches one and stores it. *)
Lemma get_api_key_fetch env st :
  truthy (api_key (client st)) = false ->
  _get_api_key env st
  = match _fetch_api_key env st with
    | (Ok key, st1) => (Ok key, snd (set_api_key key st1))
    | (Raise e, st1) => (Raise e, st1)
    end.
Proof.
  intros H. unfold _get_api_key, get_client. unfold_M. rewrite H. simpl.
  by destruct (_fetch_api_key env st) as [[key|e] st1].
Qed.

Lemma sum_list_with_concat {A} (w : A -> nat) (ls : list (list A)) :
  sum_list_with w (concat ls) = sum_list_with (fun l => sum_list_with w l) ls.
Proof. induction ls as [|l ls IH]; [done|]. simpl. by rewrite sum_list_with_app, IH. Qed.

Lemma sum_list_with_filter {A} (w : A -> nat) (f : A -> bool) (l : list A) :
  (sum_list_with w (List.filter f l) <= sum_list_with w l)%nat.
Proof.
  induction l as [|x l IH]; [done|]. simpl. destruct (f x); simpl; lia.
Qed.

Lemma sum_list_with_weight {A} (f : A -> bool) (c : nat) (l : list A) :
  sum_list_with (fun x => if f x then c else 0%nat) l = (length (List.filter f l) * c)%nat.
Proof.
  induction l as [|x l IH]; [done|]. simpl. rewrite IH. destruct (f x); simpl; lia.
Qed.

(** [Batch.split] touches neither the trace nor the client. *)
Lemma Batch_split_silent env batch max_size st :
  trace (snd (Batch_split env batch max_size st)) = trace st
  /\ client (snd (Batch_split env batch max_size st)) = client st.
Proof.
  unfold Batch_split. case_match; [done|]. case_match; [|done].
  match goal with |- context [mapM _ ?starts st] =>
    destruct (mapM_Batch_init env
                (fun i => py_slice (accounts batch) i (i + max_size)) (metadata batch) starts st)
      as (subs & st' & Hrun & _ & _ & _ & Hc & _ & Ht)
  end.
  by rewrite Hrun.
Qed.

(** The sub-batches of [Batch.split] hold the accounts of the batch, or
    there is no sub-batch at all. *)
Lemma Batch_split_outcome env batch max_size st subs st' :
  Batch_split env batch max_size st = (Ok subs, st') ->
  concat (map accounts subs) = accounts batch \/ subs = [].
Proof.
  intros Hrun.
  destruct (Z.le_gt_cases (Z.of_nat (length (accounts batch))) max_size) as [Hsmall|Hlarge].
  { unfold Batch_split in Hrun.
    destruct (Z.leb_spec (Z.of_nat (length (accounts batch))) max_size); [|lia].
    injection Hrun as <- _. left. simpl. apply app_nil_r. }
  destruct (Z.le_gt_cases 1 max_size) as [Hpos|Hneg].
  - destruct (Batch_split_large env batch max_size st)
      as (subs' & st'' & Hrun' & Hsplit & _); [done|lia|].
    rewrite Hrun in Hrun'. injection Hrun' as <- _.
    left. by destruct (split_accounts_concat _ _ _ Hpos Hsplit).
  - right. unfold Batch_split, py_range in Hrun.
    destruct (Z.leb_spec (Z.of_nat (length (accounts batch))) max_size); [lia|].
    destruct (Z.eqb_spec max_size 0); [done|].
    destruct (Z.ltb_spec 0 max_size); [lia|].
    set (len := Z.of_nat (length (accounts batch))) in *.
    assert (Hq : (0 - len - max_size - 1) / - max_size <= 0).
    { apply Z.lt_succ_r. apply Z.div_lt_upper_bound; lia. }
    replace (Z.to_nat ((0 - len - max_size - 1) / - max_size)) with 0%nat in Hrun by lia.
    simpl in Hrun. by injection Hrun as <- _.
Qed.

Lemma Batch_split_weight env (w : Account -> nat) batch max_size st subs st' :
  Batch_split env batch max_size st = (Ok subs, st') ->
  (sum_list_with (fun sub => sum_list_with w (accounts sub)) subs
   <= sum_list_with w (accounts batch))%nat.
Proof.
  intros [Hconcat| ->]%Batch_split_outcome; [|simpl; lia].
  rewrite <- Hconcat, sum_list_with_concat.
  clear Hconcat. induction subs as [|sub subs IH]; simpl; lia.
Qed.

Section CostsEngine.
Variable env : Env.
Variable counted : Event -> bool.
Variable I : State -> Prop.
Hypothesis I_client : forall st st', client st' = client st -> I st -> I st'.
Hypothesis sleeps_free : forall seconds, counted (EvSleep seconds) = false.

Lemma costs_requests_request method url payload :
  costs counted I (count_events counted [EvHttp method url payload])
    (requests_request env method url payload).
Proof.
  intros st HI. exists [EvHttp method url payload]. unfold requests_request.
  destruct (net env (net_pos st)); simpl;
    (split; [done|split; [lia|by apply (I_client st)]]).
Qed.

Lemma costs_raise_for_status n r : costs counted I n (raise_for_status r).
Proof. unfold raise_for_status. case_match; [apply costs_raise|apply costs_ret]. Qed.

Lemma costs_response_json n r : costs counted I n (response_json r).
Proof. unfold response_json. case_match; first [apply costs_raise|apply costs_ret]. Qed.

Lemma costs_time_sleep n seconds : costs counted I n (time_sleep env seconds).
Proof.
  intros st HI. unfold time_sleep.
  repeat case_match;
    try by (exists []; split; [by rewrite app_nil_r|]; split; [cbn; lia|done]).
  exists [EvSleep seconds]. split; [done|]. split.
  - unfold count_events. simpl. rewrite sleeps_free. simpl. lia.
  - by apply (I_client st).
Qed.

Lemma costs_make_request_loop method url data attempts :
  costs counted I (length attempts * count_events counted [EvHttp method url data])
    (_make_request_loop env method url data attempts).
Proof.
  induction attempts as [|attempt rest IH]; [apply costs_ret|].
  cbn [_make_request_loop length Nat.mul].
  apply costs_bind_r; [by apply costs_silent|]. intros self.
  apply costs_bind.
  - apply costs_try.
    + apply costs_bind_l; [apply costs_requests_request|]. intros response.
      apply costs_bind_r; [apply costs_raise_for_status|]. intros _.
      case_match; [|apply costs_ret].
      apply costs_bind_r; [apply costs_response_json|]. intros v. apply costs_ret.
    + intros e.
      repeat first
        [ apply costs_response_json | apply costs_time_sleep
        | progress costs_free ].
  - intros [r|]; [apply costs_ret|exact IH].
Qed.

Lemma costs_fetch_api_key n st :
  I st ->
  (count_events counted [EvHttp "GET" (base_url (client st) +:+ "/api/key") PyNone] <= n)%nat ->
  exists evs, trace (snd (_fetch_api_key env st)) = trace st ++ evs
              /\ (count_events counted evs <= n)%nat
              /\ I (snd (_fetch_api_key env st)).
Proof.
  intros HI Hget. unfold _fetch_api_key.
  match goal with |- context [try_except (get_client ≫= ?F) ?h] =>
    assert (Hbody : costs counted I n (try_except (F (client st)) h))
  end.
  { cbn beta. apply costs_try; [|intros; apply costs_raise].
    apply costs_bind_l.
    { eapply costs_mono; [exact Hget|apply costs_requests_request]. }
    intros response.
    apply costs_bind_r; [apply costs_raise_for_status|]. intros _.
    apply costs_bind_r; [apply costs_response_json|]. intros data.
    costs_free. }
  exact (Hbody st HI).
Qed.

(** What the call for an account may spend: [fetch_cost] on the
    credential, and [call_cost] of the account on the requests of its
    retry loop. *)
Variable fetch_cost : nat.
Variable call_cost : Account -> nat.

Hypothesis fetch_bound : forall st,
  I st -> truthy (api_key (client st)) = false ->
  (count_events counted [EvHttp "GET" (base_url (client st) +:+ "/api/key") PyNone]
   <= fetch_cost)%nat.

Hypothesis I_key : forall st key,
  I st -> truthy (api_key (client st)) = false -> I (snd (set_api_key key st)).

Hypothesis loop_bound : forall st a,
  I st ->
  (Z.to_nat (max_retries (client st))
   * count_events counted
       [EvHttp "POST" (base_url (client st) +:+ "/api/validate") (request_data a)]
   <= call_cost a)%nat.

Lemma costs_get_api_key : costs counted I fetch_cost (_get_api_key env).
Proof.
  intros st HI.
  destruct (truthy (api_key (client st))) eqn:Hkey.
  { rewrite get_api_key_ready by done. exists []. simpl. rewrite app_nil_r.
    repeat split; [cbn; lia|exact HI]. }
  rewrite get_api_key_fetch by done.
  destruct (costs_fetch_api_key fetch_cost st HI (fetch_bound st HI Hkey))
    as (evs & Ht & Hc & HI1).
  pose proof (fetch_api_key_client env st) as Hclient.
  destruct (_fetch_api_key env st) as [[key|e] st1]; simpl in *; exists evs.
  - repeat split; [done..|]. apply I_key; [done|]. by rewrite Hclient.
  - done.
Qed.

Lemma costs_make_request a :
  costs counted I (fetch_cost + call_cost a)
    (_make_request env "POST" "/api/validate" (request_data a)).
Proof.
  intros st HI.
  assert (Hloop : forall key : PyVal,
            costs counted I (call_cost a)
              (_make_request_loop env "POST" (base_url (client st) +:+ "/api/validate")
                 (request_data a)
                 (range (max_retries (client st))))).
  { intros _. eapply costs_mono; [|apply costs_make_request_loop].
    rewrite length_range. by apply loop_bound. }
  exact (costs_bind counted I fetch_cost (call_cost a) _ _ costs_get_api_key Hloop st HI).
Qed.

Lemma costs_validate_account a :
  costs counted I (fetch_cost + call_cost a) (validate_account env a).
Proof.
  unfold validate_account.
  apply costs_try; [|intros; apply costs_ret].
  apply costs_bind_l; [apply costs_make_request|].
  intros response. unfold has_error_member, reply_get. costs_free.
Qed.

(** What validating one account may spend: nothing when it fails the
    format check. *)
Lemma costs_validate_single a :
  costs counted I (if _validate_format a then fetch_cost + call_cost a else 0)%nat
    (validate_single env a).
Proof.
  unfold validate_single. apply costs_try; [|intros; apply costs_ret].
  destruct (_validate_format a); simpl; [apply costs_validate_account|apply costs_ret].
Qed.

Lemma costs_submit a :
  costs counted I (if _validate_format a then fetch_cost + call_cost a else 0)%nat
    (submit env a).
Proof.
  intros st HI. destruct (costs_validate_single a st HI) as (evs & Ht & Hc & HI1).
  exists evs. unfold submit. by destruct (validate_single env a st) as [[r|e] st'].
Qed.

Lemma costs_validate_batch self accs :
  costs counted I
    (sum_list_with (fun a => if _validate_format a then fetch_cost + call_cost a else 0)%nat accs)
    (validate_batch env self accs).
Proof.
  unfold validate_batch.
  case_match; [apply costs_mapM; intros; apply costs_validate_single|].
  case_match; [apply costs_raise|].
  apply costs_bind_l; [|intros; apply costs_ret].
  apply costs_mapM. intros. apply costs_submit.
Qed.

Lemma costs_process_batch fuel self batch :
  costs counted I
    (sum_list_with (fun a => if _validate_format a then fetch_cost + call_cost a else 0)%nat
       (accounts batch))
    (process_batch env fuel self batch).
Proof.
  set (w := fun a : Account => (if _validate_format a then fetch_cost + call_cost a else 0)%nat).
  revert batch. induction fuel as [|fuel IH]; intros batch; simpl; [apply costs_ret|].
  case_match.
  - apply (costs_bind_post counted I 0 _
             (fun subs => (sum_list_with (fun sub => sum_list_with w (accounts sub)) subs
                           <= sum_list_with w (accounts batch))%nat)).
    + apply costs_silent; [done|]. intros st. apply Batch_split_silent.
    + intros st subs st' Hrun. by eapply Batch_split_weight.
    + intros subs Hsubs.
      apply costs_bind_l.
      * eapply costs_mono; [exact Hsubs|].
        apply (costs_foldM counted I (fun sub => sum_list_with w (accounts sub))).
        intros acc sub _.
        apply costs_bind_l; [apply IH|intros; apply costs_ret].
      * intros all_results.
        apply costs_bind_r; [by apply costs_silent|]. intros result.
        apply costs_bind_r; [by apply costs_silent|]. intros now. apply costs_ret.
  - apply costs_bind_r; [by apply costs_silent|]. intros batch_result.
    apply costs_bind_l.
    + eapply costs_mono; [|apply costs_validate_batch]. apply sum_list_with_filter.
    + intros rs. apply costs_bind_r; [by apply costs_silent|]. intros processed.
      apply costs_bind_r; [by apply costs_silent|]. intros now. apply costs_ret.
Qed.

Lemma costs_process_weighted fuel self accs :
  costs counted I
    (sum_list_with (fun a => if _validate_format a then fetch_cost + call_cost a else 0)%nat
       accs)
    (process env fuel self accs).
Proof.
  set (w := fun a : Account => (if _validate_format a then fetch_cost + call_cost a else 0)%nat).
  unfold process. destruct accs as [|a accs]; [apply costs_ret|].
  apply costs_bind_r; [by apply costs_silent|]. intros start_time.
  apply (costs_bind_post counted I 0 (sum_list_with w (a :: accs))
           (fun batch => accounts batch = a :: accs)).
  - by apply costs_silent.
  - intros st batch st'. apply Batch_init_accounts.
  - intros batch Hbatch.
    apply costs_bind_l; [rewrite <- Hbatch; apply costs_process_batch|]. intros result.
    apply costs_bind_r; [by apply costs_silent|]. intros end_time. apply costs_ret.
Qed.

End CostsEngine.

(** The same with one cost for every account. *)
Lemma costs_process env counted (I : State -> Prop)
    (I_client : forall st st', client st' = client st -> I st -> I st')
    (sleeps_free : forall seconds, counted (EvSleep seconds) = false)
    (fetch_cost call_cost : nat)
    (fetch_bound : forall st,
       I st -> truthy (api_key (client st)) = false ->
       (count_events counted [EvHttp "GET" (base_url (client st) +:+ "/api/key") PyNone]
        <= fetch_cost)%nat)
    (I_key : forall st key,
       I st -> truthy (api_key (client st)) = false -> I (snd (set_api_key key st)))
    (loop_bound : forall st a,
       I st ->
       (Z.to_nat (max_retries (client st))
        * count_events counted
            [EvHttp "POST" (base_url (client st) +:+ "/api/validate") (request_data a)]
        <= call_cost)%nat)
    fuel self accs :
  costs counted I (well_formed accs * (fetch_cost + call_cost))
    (process env fuel self accs).
Proof.
  unfold well_formed. rewrite <- sum_list_with_weight.
  by apply (costs_process_weighted env counted I I_client sleeps_free
              fetch_cost (fun _ => call_cost)).
Qed.
(** X3: whatever the outcomes of the calls, whatever the settings and
    the mode, and for every set of request bodies: the calls of
    [requests.request] with the method POST whose body is in the set
    are at most [max_retries] for each account of the input that passes
    the format check and whose body is in the set. For the set of one
    body these are the calls for the accounts with that account number
    and bank code; for the set of all bodies, all the validation calls.
    [process] calls for the credential (GET) at most once for each
    account that passes the format check, and it never changes
    [max_retries]. *)
Theorem process_requests_bounded env fuel self accs st (selected : PyVal -> bool) :
  exists evs,
    trace (snd (process env fuel self accs st)) = trace st ++ evs
    /\ (count_events (carries "POST" selected) evs
        <= well_formed_among selected accs * Z.to_nat (max_retries (client st)))%nat
    /\ (count_events (uses_method "GET") evs <= well_formed accs)%nat
    /\ max_retries (client (snd (process env fuel self accs st))) = max_retries (client st).
Proof.
  destruct (costs_process_weighted env (carries "POST" selected)
              (fun s => max_retries (client s) = max_retries (client st)))
    with (fetch_cost := 0%nat)
         (call_cost := fun a => if selected (request_data a)
                                then Z.to_nat (max_retries (client st)) else 0%nat)
         (fuel := fuel) (self := self) (accs := accs) (st := st)
    as (evs & Ht & Hposts & Hsame).
  { intros s s' Hc Hs. by rewrite Hc. }
  { done. }
  { intros s _ _. cbn. lia. }
  { intros s key Hs _. exact Hs. }
  { intros s a Hs. rewrite Hs. unfold count_events. cbn.
    destruct (selected (request_data a)); cbn; lia. }
  { done. }
  destruct (costs_process env (uses_method "GET") (fun _ => True))
    with (fetch_cost := 1%nat) (call_cost := 0%nat)
         (fuel := fuel) (self := self) (accs := accs) (st := st)
    as (evs' & Ht' & Hgets & _).
  { done. }
  { done. }
  { intros s _ _. cbn. lia. }
  { done. }
  { intros s data _. cbn. lia. }
  { done. }
  rewrite Ht in Ht'. apply app_inv_head in Ht'. subst evs'.
  exists evs. split; [exact Ht|]. split; [|split; [lia|exact Hsame]].
  etransitivity; [exact Hposts|]. unfold well_formed_among.
  rewrite <- sum_list_with_weight. clear.
  generalize (Z.to_nat (max_retries (client st))). intros m.
  induction accs as [|a accs IH]; [done|]. cbn [sum_list_with].
  destruct (_validate_format a), (selected (request_data a)); cbn [andb]; lia.
Qed.

(** X4: when the client holds a credential, [process] never asks the
    service for one, and it leaves the client as it was: no event of the
    run is a GET. *)
Theorem configured_key_is_never_fetched env fuel self accs st :
  truthy (api_key (client st)) = true ->
  exists evs,
    trace (snd (process env fuel self accs st)) = trace st ++ evs
    /\ count_events (uses_method "GET") evs = 0%nat
    /\ client (snd (process env fuel self accs st)) = client st.
Proof.
  intros Hkey.
  destruct (costs_process env (uses_method "GET") (fun s => client s = client st))
    with (fetch_cost := 0%nat) (call_cost := 0%nat)
         (fuel := fuel) (self := self) (accs := accs) (st := st)
    as (evs & Ht & Hgets & Hsame).
  { intros s s' Hc Hs. by rewrite Hc. }
  { done. }
  { intros s Hs Hno. rewrite Hs in Hno. congruence. }
  { intros s key Hs Hno. rewrite Hs in Hno. congruence. }
  { intros s data _. cbn. lia. }
  { done. }
  exists evs. split; [exact Ht|]. split; [lia|exact Hsame].
Qed.

Lemma configured_key_is_never_fetched_witness :
  exists evs,
    trace (snd (process (scripted [NetTimeout] (answer 200 valid_body)) 2
                  (sample_processor 2 true) [account_ok; account_blank; account_ok]
                  (initial_state sample_config)))
    = trace (initial_state sample_config) ++ evs
    /\ count_events (uses_method "GET") evs = 0%nat
    /\ client (snd (process (scripted [NetTimeout] (answer 200 valid_body)) 2
                      (sample_processor 2 true) [account_ok; account_blank; account_ok]
                      (initial_state sample_config)))
       = client (initial_state sample_config).
Proof.
  apply (configured_key_is_never_fetched (scripted [NetTimeout] (answer 200 valid_body)) 2
           (sample_processor 2 true) [account_ok; account_blank; account_ok]
           (initial_state sample_config)).
  reflexivity.
Defined.

(** ** What the pipeline returns *)

Lemma yields_ret {A} (Q : A -> Prop) (a : A) : Q a -> yields Q (mret a).
Proof. intros H st a' st' [= <- _]. exact H. Qed.

Lemma yields_bind_post {A B} (P : A -> Prop) (Q : B -> Prop) (m : M A) (f : A -> M B) :
  yields P m -> (forall a, P a -> yields Q (f a)) -> yields Q (m ≫= f).
Proof.
  intros Hm Hf st b st'. unfold mbind, M_bind.
  destruct (m st) as [[a|e] st1] eqn:Hrun; [|done].
  apply Hf. by eapply Hm.
Qed.

Lemma yields_bind {A B} (Q : B -> Prop) (m : M A) (f : A -> M B) :
  (forall a, yields Q (f a)) -> yields Q (m ≫= f).
Proof. intros Hf. apply (yields_bind_post (fun _ => True)); [done|auto]. Qed.

Lemma yields_mapM {A B} (Q : B -> Prop) (f : A -> M B) (xs : list A) :
  (forall x, In x xs -> yields Q (f x)) -> yields (Forall Q) (mapM f xs).
Proof.
  induction xs as [|x xs IH]; intros Hf; simpl; [by apply yields_ret|].
  eapply yields_bind_post; [apply Hf; by left|]. intros y Hy.
  eapply yields_bind_post; [apply IH; intros; apply Hf; by right|]. intros ys Hys.
  apply yields_ret. by constructor.
Qed.

Lemma yields_foldM {A B} (Q : B -> Prop) (step : B -> A -> M B) (xs : list A) (acc : B) :
  Q acc ->
  (forall acc' x, Q acc' -> In x xs -> yields Q (step acc' x)) ->
  yields Q (foldM step acc xs).
Proof.
  revert acc. induction xs as [|x xs IH]; intros acc Hacc Hf; simpl; [by apply yields_ret|].
  eapply yields_bind_post; [apply Hf; [done|by left]|]. intros acc' Hacc'.
  apply IH; [done|]. intros. apply Hf; [done|by right].
Qed.

(** What the client answers about an account. *)
Lemma validate_account_outcome env a st r st' :
  validate_account env a st = (Ok r, st') ->
  account r = a
  /\ match status r with
     | VALID => error_code r = None /\ account_status r = Some "ACTIVE"
     | INVALID => error_code r = Some "INVALID_ACCOUNT"
     | ERROR => error_code r = Some "API_ERROR" \/ error_code r = Some "EXCEPTION"
     | PENDING => False
     end.
Proof.
  unfold validate_account. unfold_M.
  destruct (_make_request env "POST" "/api/validate" (request_data a) st)
    as [[reply|e] st1]; simpl; [|intros; simplify_eq/=; auto].
  unfold has_error_member, reply_get, is_Valid, text_value. unfold_M.
  intros H. repeat (case_match; simplify_eq/=); auto.
Qed.

Lemma pipeline_outcome_format a :
  _validate_format a = false -> pipeline_outcome (format_outcome a).
Proof. intros H. unfold pipeline_outcome. simpl. by rewrite H. Qed.

Lemma validate_single_outcome env a st r st' :
  _validate_format a = true ->
  validate_single env a st = (Ok r, st') ->
  pipeline_outcome r.
Proof.
  intros Hok. unfold validate_single, try_except. rewrite Hok. simpl.
  destruct (validate_account_total env a st) as (res & st1 & Hres). rewrite Hres.
  intros [= <- _]. apply validate_account_outcome in Hres as [Ha Hres].
  unfold pipeline_outcome. by rewrite Ha, Hok.
Qed.

Lemma submit_outcome env a :
  _validate_format a = true ->
  yields (fun f => pipeline_outcome (collect f)) (submit env a).
Proof.
  intros Hok st f st'. unfold submit.
  destruct (validate_single_total env a st) as (res & st1 & Hres & _). rewrite Hres.
  intros [= <- _]. unfold collect. simpl. by eapply validate_single_outcome.
Qed.

Section Outcomes.
Variable env : Env.
Hypothesis as_completed_each_once : forall futures, as_completed env futures ≡ₚ futures.

Lemma validate_batch_outcomes self accs :
  Forall (fun a => _validate_format a = true) accs ->
  yields (Forall pipeline_outcome) (validate_batch env self accs).
Proof.
  intros Hok. rewrite Forall_forall in Hok. unfold validate_batch.
  case_match.
  { apply yields_mapM. intros a Hin st r st'.
    apply validate_single_outcome. by apply Hok, list_elem_of_In. }
  case_match; [done|].
  eapply yields_bind_post.
  { apply (yields_mapM (fun f => pipeline_outcome (collect f))).
    intros a Hin. apply submit_outcome. by apply Hok, list_elem_of_In. }
  intros futures Hfutures. apply yields_ret.
  rewrite Forall_map. by rewrite as_completed_each_once.
Qed.

Lemma process_batch_outcomes fuel self batch :
  yields (fun o => forall res b, o = Some (res, b) -> Forall pipeline_outcome (results res))
    (process_batch env fuel self batch).
Proof.
  revert batch. induction fuel as [|fuel IH]; intros batch; simpl; [by apply yields_ret|].
  case_match.
  - apply yields_bind. intros subs.
    eapply (yields_bind_post (fun acc => forall rs, acc = Some rs -> Forall pipeline_outcome rs)).
    + apply yields_foldM; [by intros rs [= <-]|].
      intros acc sub Hacc _.
      eapply yields_bind_post; [apply IH|]. intros sub_result Hsub.
      apply yields_ret. intros rs.
      destruct acc as [rs0|], sub_result as [[res b]|]; simpl; try done.
      intros [= <-]. apply Forall_app. split; [by apply Hacc|by eapply Hsub].
    + intros all_results Hall st o st'.
      unfold BatchValidationResult_init, datetime_now. unfold_M. simpl.
      intros [= <- _] res b. destruct all_results as [rs|]; simpl; [|done].
      intros [= <- _]. simpl. by apply Hall.
  - apply yields_bind. intros batch_result.
    eapply yields_bind_post.
    + apply validate_batch_outcomes.
      apply Forall_forall. intros a Hin%list_elem_of_In. by apply filter_In in Hin as [_ ?].
    + intros rs Hrs st o st'. unfold datetime_now. unfold_M. simpl.
      intros [= <- _] res b [= <- _]. simpl. apply Forall_app. split; [|done].
      rewrite Forall_map. apply Forall_forall. intros a Hin%list_elem_of_In.
      apply filter_In in Hin as [_ Hbad]. apply pipeline_outcome_format.
      by destruct (_validate_format a).
Qed.

Lemma process_outcomes fuel self accs :
  yields (fun o => forall rs, o = Some rs -> Forall pipeline_outcome rs)
    (process env fuel self accs).
Proof.
  unfold process. destruct accs as [|a accs].
  { apply yields_ret. by intros rs [= <-]. }
  apply yields_bind. intros start_time.
  apply yields_bind. intros batch.
  eapply yields_bind_post; [apply process_batch_outcomes|]. intros result Hresult.
  apply yields_bind. intros end_time. apply yields_ret.
  intros rs. destruct result as [[res b]|]; simpl; [|done].
  intros [= <-]. by eapply Hresult.
Qed.

End Outcomes.

(** What an outcome of the pipeline never is. *)
Lemma pipeline_outcome_settled r :
  pipeline_outcome r ->
  status r <> PENDING
  /\ error_code r <> Some (ErrorCode_value UNKNOWN_ERROR)
  /\ (status r = VALID <-> error_code r = None)
  /\ (error_code r = Some (ErrorCode_value INVALID_FORMAT)
      <-> _validate_format (account r) = false).
Proof.
  unfold pipeline_outcome. destruct (_validate_format (account r)) eqn:Hok.
  - destruct (status r); simpl; intuition congruence.
  - intros Hr. rewrite Hr. simpl. intuition congruence.
Qed.

(** X5: every result that [process] returns is finished and is of one
    of the kinds that the pipeline builds: for an account that fails the
    format check the INVALID outcome with code INVALID_FORMAT built
    without the service, for any other account VALID without error
    code, INVALID with code INVALID_ACCOUNT, or ERROR with code
    API_ERROR or EXCEPTION. No result is PENDING, a result is VALID
    exactly when it has no error code, and no result carries
    UNKNOWN_ERROR: the handlers of [validate_single] and
    [validate_batch] that would give that code are never reached. *)
Theorem process_results_are_finished env fuel self accs st rs st' :
  (forall futures, as_completed env futures ≡ₚ futures) ->
  process env fuel self accs st = (Ok (Some rs), st') ->
  Forall pipeline_outcome rs
  /\ all_settled rs = true
  /\ Forall (fun r => status r = VALID <-> error_code r = None) rs
  /\ Forall (fun r => error_code r <> Some (ErrorCode_value UNKNOWN_ERROR)) rs
  /\ Forall (fun r => error_code r = Some (ErrorCode_value INVALID_FORMAT)
                      <-> _validate_format (account r) = false) rs.
Proof.
  intros Hpool Hrun.
  assert (Hall : Forall pipeline_outcome rs).
  { by eapply (process_outcomes env Hpool fuel self accs st _ st' Hrun). }
  split; [exact Hall|]. split; [|split; [|split]].
  - apply forallb_forall. intros r Hr%list_elem_of_In.
    rewrite Forall_forall in Hall. apply Hall, pipeline_outcome_settled in Hr as [Hr _].
    by destruct (status r).
  - eapply Forall_impl; [exact Hall|]. intros r Hr.
    by apply pipeline_outcome_settled in Hr as (? & ? & ? & ?).
  - eapply Forall_impl; [exact Hall|]. intros r Hr.
    by apply pipeline_outcome_settled in Hr as (? & ? & ? & ?).
  - eapply Forall_impl; [exact Hall|]. intros r Hr.
    by apply pipeline_outcome_settled in Hr as (? & ? & ? & ?).
Qed.

Lemma process_results_are_finished_witness :
  exists rs st',
    process (scripted [NetTimeout; answer 404 not_found_body] (answer 200 valid_body)) 2
      (sample_processor 2 true) [account_ok; account_blank; account_ok]
      (initial_state sample_config)
    = (Ok (Some rs), st')
    /\ length rs = 3%nat
    /\ Forall pipeline_outcome rs
    /\ all_settled rs = true.
Proof.
  assert (Hrun : exists rs st',
             process (scripted [NetTimeout; answer 404 not_found_body] (answer 200 valid_body))
               2 (sample_processor 2 true) [account_ok; account_blank; account_ok]
               (initial_state sample_config)
             = (Ok (Some rs), st')
             /\ length rs = 3%nat).
  { eexists _, _. split; vm_compute; reflexivity. }
  destruct Hrun as (rs & st' & Hrun & Hlen).
  destruct (process_results_are_finished
              (scripted [NetTimeout; answer 404 not_found_body] (answer 200 valid_body)) 2
              (sample_processor 2 true) [account_ok; account_blank; account_ok]
              (initial_state sample_config) rs st') as (Hall & Hsettled & _).
  - intros futures. symmetry. apply Permutation_rev.
  - exact Hrun.
  - exists rs, st'. split; [exact Hrun|]. split; [exact Hlen|]. split; [exact Hall|exact Hsettled].
Defined.

(** ** The statistics of a run *)

Lemma filter_length_perm {A} (f : A -> bool) (l l' : list A) :
  l ≡ₚ l' -> length (List.filter f l) = length (List.filter f l').
Proof.
  induction 1 as [|x l l' _ IH|x y l|l l' l'' _ IH1 _ IH2]; simpl.
  - done.
  - destruct (f x); simpl; by rewrite IH.
  - by destruct (f x), (f y).
  - by rewrite IH1.
Qed.

Lemma carries_code_outcome c r :
  pipeline_outcome r ->
  carries_code c r = true ->
  (c = "INVALID_FORMAT" /\ _validate_format (account r) = false /\ status r = INVALID)
  \/ (In c ["INVALID_ACCOUNT"; "API_ERROR"; "EXCEPTION"]
      /\ _validate_format (account r) = true).
Proof.
  unfold pipeline_outcome, carries_code.
  destruct (_validate_format (account r)) eqn:Hok.
  - intros Hr [_ Hc]%andb_prop. right. split; [|done].
    destruct (error_code r) as [c'|]; [|done]. apply String.eqb_eq in Hc as <-.
    destruct (status r); simpl in *; [by destruct Hr| | |done].
    + injection Hr as <-. by left.
    + destruct Hr as [[= <-]|[= <-]]; [right; by left|right; right; by left].
  - intros Hr. rewrite Hr. unfold format_outcome, failure_result.
    cbn [status error_code account status_eqb orb andb].
    intros Hc%String.eqb_eq. by left.
Qed.

Lemma code_count_invalid_format rs :
  Forall pipeline_outcome rs ->
  code_count "INVALID_FORMAT" rs = malformed (map account rs)
  /\ (code_count "INVALID_FORMAT" rs <= count_status INVALID rs)%nat.
Proof.
  unfold code_count, malformed, count_status.
  induction 1 as [|r rs Hr _ [IH1 IH2]]; [done|]. simpl.
  destruct (carries_code "INVALID_FORMAT" r) eqn:Hc.
  - destruct (carries_code_outcome _ _ Hr Hc) as [(_ & -> & ->)|[Hin _]]; simpl.
    + split; [by rewrite IH1|lia].
    + by destruct Hin as [|[|[|]]].
  - assert (Hok : _validate_format (account r) = true).
    { destruct (_validate_format (account r)) eqn:Hok; [done|].
      unfold pipeline_outcome in Hr. rewrite Hok in Hr.
      rewrite Hr in Hc. simpl in Hc. done. }
    rewrite Hok. simpl. split; [done|].
    destruct (status_eqb (status r) INVALID); simpl; lia.
Qed.

Lemma code_count_positive c rs :
  code_count c rs <> 0%nat -> exists r, In r rs /\ carries_code c r = true.
Proof.
  unfold code_count. induction rs as [|r rs IH]; [done|]. simpl.
  destruct (carries_code c r) eqn:Hc.
  - intros _. exists r. split; [by left|done].
  - intros (r' & Hin & Hr')%IH. exists r'. split; [by right|done].
Qed.

(** X6: under the conditions of C1, the statistics of what [process]
    returns account for every account of the input: the total and the
    sum of the valid, invalid and error counts are the number of
    accounts given; the table of error codes gives to INVALID_FORMAT the
    number of accounts of the input that fail the format check (no entry
    when there is none), which are among the invalid ones; and the only
    codes the table can hold are INVALID_FORMAT, INVALID_ACCOUNT,
    API_ERROR and EXCEPTION. *)
Theorem process_statistics env fuel self accs st :
  (forall futures, as_completed env futures ≡ₚ futures) ->
  (use_parallel (validator self) = true -> 1 <= worker_threads (validator self)) ->
  1 <= max_batch_size self ->
  (2 <= fuel)%nat ->
  exists rs st',
    process env fuel self accs st = (Ok (Some rs), st')
    /\ total (get_statistics rs) = length accs
    /\ (valid (get_statistics rs) + invalid (get_statistics rs) + error (get_statistics rs)
        = length accs)%nat
    /\ error_codes (get_statistics rs) !! "INVALID_FORMAT"
       = (if (malformed accs =? 0)%nat then None else Some (malformed accs))
    /\ (malformed accs <= invalid (get_statistics rs))%nat
    /\ (forall c, is_Some (error_codes (get_statistics rs) !! c) ->
                  In c ["INVALID_FORMAT"; "INVALID_ACCOUNT"; "API_ERROR"; "EXCEPTION"]).
Proof.
  intros Hpool Hworkers Hmax Hfuel.
  destruct (process_structure env Hpool self Hworkers fuel accs st Hfuel Hmax)
    as (rs & st' & chunks & per_chunk & Hrun & Hsplit & Hrs & Hchunks).
  destruct (split_accounts_concat _ _ _ Hmax Hsplit) as [Hconcat _].
  assert (Hperm : map account rs ≡ₚ accs).
  { rewrite Hrs, <- Hconcat. by eapply chunks_outcomes_accounts. }
  assert (Hlen : length rs = length accs).
  { by rewrite <- (length_map account), Hperm. }
  assert (Hall : Forall pipeline_outcome rs).
  { by eapply (process_outcomes env Hpool fuel self accs st _ st' Hrun). }
  assert (Hsettled : all_settled rs = true).
  { apply forallb_forall. intros r Hr%list_elem_of_In.
    rewrite Forall_forall in Hall. apply Hall, pipeline_outcome_settled in Hr as [Hr _].
    by destruct (status r). }
  destruct (code_count_invalid_format rs Hall) as [Hcount Hinvalid].
  assert (Hmal : malformed (map account rs) = malformed accs).
  { unfold malformed. by apply filter_length_perm. }
  pose proof (count_status_total rs) as Htotal.
  pose proof (count_status_settled rs Hsettled) as Hpending.
  exists rs, st'. split; [exact Hrun|]. simpl.
  split; [exact Hlen|]. split; [lia|]. split; [|split; [lia|]].
  - rewrite fold_count_code by done. rewrite lookup_empty, Hcount, Hmal.
    destruct (malformed accs); simpl; [done|]. f_equal.
  - intros c [n Hn].
    destruct (String.eqb_spec c "") as [->|Hne].
    { by rewrite fold_count_code_empty in Hn. }
    assert (Hc : code_truthy (Some c) = true).
    { simpl. by destruct (String.eqb_spec c ""). }
    rewrite fold_count_code, lookup_empty in Hn by done.
    destruct (code_count_positive c rs) as (r & Hin & Hr).
    { by destruct (code_count c rs). }
    rewrite Forall_forall in Hall. apply list_elem_of_In in Hin.
    destruct (carries_code_outcome c r (Hall r Hin) Hr) as [(-> & _)|[Hcode _]].
    + by left.
    + by right.
Qed.

Lemma process_statistics_witness :
  exists rs st',
    process (scripted [NetTimeout] (answer 200 valid_body)) 2 (sample_processor 2 true)
      [account_ok; account_blank; account_ok] (initial_state sample_config)
    = (Ok (Some rs), st')
    /\ total (get_statistics rs) = 3%nat
    /\ (valid (get_statistics rs) + invalid (get_statistics rs) + error (get_statistics rs)
        = 3)%nat
    /\ error_codes (get_statistics rs) !! "INVALID_FORMAT" = Some 1%nat.
Proof.
  destruct (process_statistics (scripted [NetTimeout] (answer 200 valid_body)) 2
              (sample_processor 2 true) [account_ok; account_blank; account_ok]
              (initial_state sample_config))
    as (rs & st' & Hrun & Htotal & Hsum & Hcode & _).
  - intros futures. symmetry. apply Permutation_rev.
  - intros _. vm_compute. discriminate.
  - vm_compute. discriminate.
  - lia.
  - exists rs, st'. split; [exact Hrun|]. split; [exact Htotal|]. split; [exact Hsum|exact Hcode].
Defined.

(** ** The credential *)

Lemma fetch_api_key_trace env st :
  trace (snd (_fetch_api_key env st))
  = trace st ++ [EvHttp "GET" (base_url (client st) +:+ "/api/key") PyNone]
  /\ net_pos (snd (_fetch_api_key env st)) = S (net_pos st).
Proof.
  unfold _fetch_api_key, get_client, requests_request, raise_for_status, response_json.
  unfold_M. repeat (case_match; simplify_eq/=); done.
Qed.

(** X7: when [_get_api_key] returns, the credential it returns is one
    that Python takes for true, it is stored in the client, and every
    later call returns it without any exchange and without changing
    anything. A client that held a credential is left as it was; one
    that held none has sent exactly one request, the GET of the
    credential. *)
Theorem credential_is_fetched_once env st key st1 :
  _get_api_key env st = (Ok key, st1) ->
  truthy key = true
  /\ api_key (client st1) = key
  /\ (forall env', _get_api_key env' st1 = (Ok key, st1))
  /\ (truthy (api_key (client st)) = true -> st1 = st)
  /\ (truthy (api_key (client st)) = false ->
      trace st1 = trace st ++ [EvHttp "GET" (base_url (client st) +:+ "/api/key") PyNone]
      /\ net_pos st1 = S (net_pos st)).
Proof.
  intros Hrun. destruct (truthy (api_key (client st))) eqn:Hkey.
  - rewrite get_api_key_ready in Hrun by done. injection Hrun as <- <-.
    repeat split; try done. intros env'. by apply get_api_key_ready.
  - rewrite get_api_key_fetch in Hrun by done.
    pose proof (fetch_api_key_trace env st) as [Ht Hn].
    destruct (_fetch_api_key env st) as [[key'|e] st0] eqn:Hfetch; [|done].
    injection Hrun as -> <-. apply fetch_api_key_truthy in Hfetch.
    repeat split; try done. intros env'. by apply get_api_key_ready.
Qed.

Lemma credential_is_fetched_once_witness :
  exists key st1,
    _get_api_key (scripted [answer 200 key_body] NetTimeout) (initial_state keyless_config)
    = (Ok key, st1)
    /\ key = PyStr "fetched"
    /\ api_key (client st1) = key
    /\ _get_api_key (scripted [] NetTimeout) st1 = (Ok key, st1)
    /\ trace st1 = [EvHttp "GET" key_url PyNone].
Proof.
  eexists _, _. split; [reflexivity|]. split; [reflexivity|].
  destruct (credential_is_fetched_once (scripted [answer 200 key_body] NetTimeout)
              (initial_state keyless_config) _ _ eq_refl)
    as (_ & Hstored & Hnext & _ & Hfetched).
  split; [exact Hstored|]. split; [exact (Hnext _)|].
  exact (proj1 (Hfetched eq_refl)).
Defined.

(** X8: when the credential cannot be obtained, [validate_account]
    reports the account as an ERROR with the exception as message,
    without sending any validation request: the one event of the call is
    the GET of the credential. The client is left without credential, so
    that the next call asks for it again. *)
Theorem credential_failure_is_an_error env a st e st1 :
  _get_api_key env st = (Raise e, st1) ->
  validate_account env a st = (Ok (exception_result a e), st1)
  /\ trace st1 = trace st ++ [EvHttp "GET" (base_url (client st) +:+ "/api/key") PyNone]
  /\ client st1 = client st
  /\ truthy (api_key (client st1)) = false.
Proof.
  intros Hrun.
  assert (Hcall : validate_account env a st = (Ok (exception_result a e), st1)).
  { unfold validate_account, _make_request, get_client. unfold_M. by rewrite Hrun. }
  destruct (truthy (api_key (client st))) eqn:Hkey.
  { by rewrite get_api_key_ready in Hrun. }
  rewrite get_api_key_fetch in Hrun by done.
  pose proof (fetch_api_key_trace env st) as [Ht _].
  pose proof (fetch_api_key_client env st) as Hc.
  destruct (_fetch_api_key env st) as [[key'|e'] st0]; [done|].
  injection Hrun as -> <-. simpl in *. by rewrite Hc.
Qed.

Lemma credential_failure_is_an_error_witness :
  exists st1,
    validate_account (scripted [answer 503 NoContent] (answer 200 valid_body)) account_ok
      (initial_state keyless_config)
    = (Ok (exception_result account_ok (HTTPError {| status_code := 503; content := NoContent |})),
       st1)
    /\ trace st1 = [EvHttp "GET" key_url PyNone]
    /\ truthy (api_key (client st1)) = false.
Proof.
  eexists.
  destruct (credential_failure_is_an_error (scripted [answer 503 NoContent] (answer 200 valid_body))
              account_ok (initial_state keyless_config) _ _ eq_refl)
    as (Hcall & Htrace & _ & Hkey).
  split; [exact Hcall|]. split; [exact Htrace|exact Hkey].
Defined.

(** ** The client, case by case *)

(** X9: [validate_accounts_batch] never raises and returns one finished
    result for each account it is given, in the order given. *)
Theorem validate_accounts_batch_in_order env accs st :
  exists rs st',
    validate_accounts_batch env accs st = (Ok rs, st')
    /\ map account rs = accs
    /\ length rs = length accs
    /\ Forall (fun r => status r <> PENDING) rs.
Proof.
  unfold validate_accounts_batch. revert st.
  induction accs as [|a accs IH]; intros st; simpl.
  - by eexists _, _.
  - destruct (validate_account_total env a st) as (res & st1 & Hres).
    destruct (IH st1) as (rs & st2 & Hrs & Has & Hlen & Hall).
    destruct (validate_account_outcome env a st res st1 Hres) as [Ha Hshape].
    exists (res :: rs), st2. unfold_M. rewrite Hres, Hrs. simpl.
    rewrite Ha, Has, Hlen. repeat split; try done.
    constructor; [|done]. intros Hp. by rewrite Hp in Hshape.
Qed.

Section Answers.
Variable env : Env.

Lemma loop_step_accepted method url data attempt rest st r :
  net env (net_pos st) = NetResponse r ->
  status_code r < 400 \/ 600 <= status_code r ->
  _make_request_loop env method url data (attempt :: rest) st
  = (accepted_reply r, advance_net (record_event (EvHttp method url data) st)).
Proof.
  intros Hnet Hr. simpl.
  unfold get_client, requests_request, raise_for_status, has_content, response_json,
    accepted_reply.
  unfold_M. rewrite Hnet. simpl.
  assert (H46 : (400 <=? status_code r) && (status_code r <? 600) = false) by lia.
  rewrite H46. by destruct (content r).
Qed.

Lemma make_request_accepted method endpoint data st key st1 r :
  _get_api_key env st = (Ok key, st1) ->
  1 <= max_retries (client st) ->
  net env (net_pos st1) = NetResponse r ->
  status_code r < 400 \/ 600 <= status_code r ->
  _make_request env method endpoint data st
  = (accepted_reply r,
     advance_net (record_event (EvHttp method (base_url (client st) +:+ endpoint) data) st1)).
Proof.
  intros Hkey Hmax Hnet Hr.
  rewrite (make_request_with_key _ _ _ _ _ _ _ Hkey).
  replace (range (max_retries (client st)))
    with (range (Z.of_nat (Z.to_nat (max_retries (client st))))) by (f_equal; lia).
  rewrite (range_split _ 0) by lia. simpl app.
  by apply loop_step_accepted.
Qed.

(** X10: when the first attempt is answered with a status that
    [raise_for_status] lets through, the call ends there, after that one
    request. An answer without body is an INVALID outcome with code
    INVALID_ACCOUNT and the message "Account validation failed", not an
    error; a body that is not JSON, and a JSON body that is not an
    object (a list, a text, a number, null), are ERROR outcomes of the
    catch-all handler. *)
Theorem accepted_answer_bodies a st key st1 r :
  _get_api_key env st = (Ok key, st1) ->
  1 <= max_retries (client st) ->
  net env (net_pos st1) = NetResponse r ->
  status_code r < 400 \/ 600 <= status_code r ->
  let st' := advance_net (record_event
               (EvHttp "POST" (base_url (client st) +:+ "/api/validate") (request_data a)) st1) in
  (content r = NoContent ->
   validate_account env a st
   = (Ok (failure_result a INVALID "INVALID_ACCOUNT"
            (Value (PyStr "Account validation failed"))), st'))
  /\ (content r = Garbled ->
      validate_account env a st = (Ok (exception_result a AttributeError), st'))
  /\ (forall v, content r = JsonText v -> is_dict v = false ->
      exists e, validate_account env a st = (Ok (exception_result a e), st')
                /\ (e = TypeError \/ e = AttributeError)).
Proof.
  intros Hkey Hmax Hnet Hr st'.
  pose proof (make_request_accepted "POST" "/api/validate" (request_data a)
                _ _ _ _ Hkey Hmax Hnet Hr) as Hrun.
  unfold accepted_reply in Hrun. fold st' in Hrun.
  split; [|split].
  - intros Hbody. rewrite Hbody in Hrun.
    unfold validate_account. unfold_M. by rewrite Hrun.
  - intros Hbody. rewrite Hbody in Hrun.
    unfold validate_account. unfold_M. by rewrite Hrun.
  - intros v Hbody Hv. rewrite Hbody in Hrun.
    unfold validate_account. unfold_M. rewrite Hrun.
    destruct v as [|b|z|f|s|items|entries]; simpl in *; try done; eauto.
    + destruct (str_contains "error" s); simpl; eauto.
    + destruct (existsb _ items); simpl; eauto.
Qed.

(** X11: with [max_retries] at zero or below, the loop of
    [_make_request] makes no attempt and the call returns nothing, which
    [validate_account] turns into an ERROR outcome: the account is
    reported without any request having been sent for it. *)
Theorem no_attempt_without_retries a st key st1 :
  _get_api_key env st = (Ok key, st1) ->
  max_retries (client st) <= 0 ->
  _make_request env "POST" "/api/validate" (request_data a) st = (Ok (Parsed PyNone), st1)
  /\ validate_account env a st = (Ok (exception_result a TypeError), st1).
Proof.
  intros Hkey Hmax.
  assert (Hrun : _make_request env "POST" "/api/validate" (request_data a) st
                 = (Ok (Parsed PyNone), st1)).
  { rewrite (make_request_with_key _ _ _ _ _ _ _ Hkey).
    unfold range. by replace (Z.to_nat (max_retries (client st))) with 0%nat by lia. }
  split; [exact Hrun|].
  unfold validate_account. unfold_M. by rewrite Hrun.
Qed.

(** X12: with a negative [retry_delay], the first failure that would be
    retried ends the call: [time.sleep] refuses the negative duration,
    with [OverflowError] when it is below -9223372036 seconds (it does
    not fit the 64-bit count of nanoseconds, which is checked first) and
    with [ValueError] otherwise, and the outcome is an ERROR built from
    that exception, after a single request and no sleep, whatever
    [max_retries]. *)
Theorem negative_delay_stops_retrying a st key st1 :
  _get_api_key env st = (Ok key, st1) ->
  2 <= max_retries (client st) ->
  retry_delay (client st) < 0 ->
  retried (net env (net_pos st1)) = true ->
  validate_account env a st
  = (Ok (exception_result a
           (if retry_delay (client st) <? -9223372036 then OverflowError else ValueError)),
     advance_net (record_event
       (EvHttp "POST" (base_url (client st) +:+ "/api/validate") (request_data a)) st1)).
Proof.
  intros Hkey Hmax Hdelay Hnet.
  destruct (get_api_key_settings env _ _ _ Hkey) as (Hm & Hd & _).
  apply validate_account_raised.
  rewrite (make_request_with_key _ _ _ _ _ _ _ Hkey).
  replace (range (max_retries (client st)))
    with (range (Z.of_nat (Z.to_nat (max_retries (client st))))) by (f_equal; lia).
  rewrite (range_split _ 0) by lia. simpl app.
  cbn [_make_request_loop].
  unfold get_client, requests_request, raise_for_status, time_sleep. unfold_M.
  rewrite Hm, Hd. change (Z.of_nat 0) with 0. rewrite Z.pow_0_r, Z.mul_1_r.
  assert (Hlast : (0 <? max_retries (client st) - 1) = true) by lia.
  assert (Hlate : (9223372036 <? retry_delay (client st)) = false) by lia.
  assert (Hneg : (retry_delay (client st) <? 0) = true) by lia.
  assert (Hnap : forall st2 : State,
            (if (retry_delay (client st) <? -9223372036)
                || (9223372036 <? retry_delay (client st))
             then (Raise OverflowError, st2)
             else if retry_delay (client st) <? 0 then (Raise ValueError, st2)
             else if sleep_refused env (net_pos st2) then (Raise OSError, st2)
             else (Ok tt, record_event (EvSleep (retry_delay (client st))) st2))
            = (Raise (if retry_delay (client st) <? -9223372036
                      then OverflowError else ValueError) : Res unit, st2)).
  { intros st2. rewrite Hlate, Hneg, orb_false_r.
    by destruct (retry_delay (client st) <? -9223372036). }
  destruct (net env (net_pos st1)) as [| | | |r|r]; simpl in *; try done.
  - by rewrite Hlast, Hnap.
  - by rewrite Hlast, Hnap.
  - apply andb_prop in Hnet as [H5 H6].
    assert ((400 <=? status_code r) = true) as -> by lia.
    rewrite H6. simpl.
    assert ((status_code r <? 500) = false) as -> by lia.
    rewrite andb_false_r. simpl. by rewrite Hlast, Hnap.
  - apply negb_true_iff in Hnet. rewrite Hnet. by rewrite Hlast, Hnap.
Qed.

End Answers.

Lemma accepted_answer_bodies_witness :
  fst (validate_account (scripted [] (answer 204 NoContent)) account_ok
         (initial_state sample_config))
  = Ok (failure_result account_ok INVALID "INVALID_ACCOUNT"
          (Value (PyStr "Account validation failed")))
  /\ exists e,
       fst (validate_account (scripted [] (answer 200 (JsonText (PyList [])))) account_ok
              (initial_state sample_config))
       = Ok (exception_result account_ok e).
Proof.
  split.
  - destruct (accepted_answer_bodies (scripted [] (answer 204 NoContent)) account_ok
                (initial_state sample_config) (PyStr "secret") (initial_state sample_config)
                {| status_code := 204; content := NoContent |})
      as (Hempty & _); [reflexivity|vm_compute; discriminate|reflexivity|simpl; lia|].
    by rewrite (Hempty eq_refl).
  - destruct (accepted_answer_bodies (scripted [] (answer 200 (JsonText (PyList [])))) account_ok
                (initial_state sample_config) (PyStr "secret") (initial_state sample_config)
                {| status_code := 200; content := JsonText (PyList []) |})
      as (_ & _ & Hother); [reflexivity|vm_compute; discriminate|reflexivity|simpl; lia|].
    destruct (Hother (PyList []) eq_refl eq_refl) as (e & Hcall & _).
    exists e. by rewrite Hcall.
Defined.

Lemma no_attempt_without_retries_witness :
  validate_account (scripted [] (answer 200 valid_body)) account_ok
    (initial_state (retry_config 0 2))
  = (Ok (exception_result account_ok TypeError), initial_state (retry_config 0 2)).
Proof.
  apply (no_attempt_without_retries (scripted [] (answer 200 valid_body)) account_ok
           (initial_state (retry_config 0 2)) (PyStr "secret")
           (initial_state (retry_config 0 2))).
  - reflexivity.
  - simpl. lia.
Defined.

Lemma negative_delay_stops_retrying_witness :
  (fst (validate_account (scripted [NetTimeout] (answer 200 valid_body)) account_ok
          (initial_state (retry_config 3 (-1))))
   = Ok (exception_result account_ok ValueError)
   /\ trace (snd (validate_account (scripted [NetTimeout] (answer 200 valid_body)) account_ok
                    (initial_state (retry_config 3 (-1)))))
      = [EvHttp "POST" sample_url (request_data account_ok)])
  /\ fst (validate_account (scripted [NetTimeout] (answer 200 valid_body)) account_ok
            (initial_state (retry_config 3 (-10000000000))))
     = Ok (exception_result account_ok OverflowError).
Proof.
  split.
  - rewrite (negative_delay_stops_retrying (scripted [NetTimeout] (answer 200 valid_body))
               account_ok (initial_state (retry_config 3 (-1))) (PyStr "secret")
               (initial_state (retry_config 3 (-1)))).
    + split; reflexivity.
    + reflexivity.
    + simpl. lia.
    + simpl. lia.
    + reflexivity.
  - reflexivity.
Defined.

(** ** The batch processor, continued *)

(** X13: whatever [process_batch] returns, the result carries the
    identifier of the batch it was given and is sealed: it has a
    completion time, and its processing time is the completion time
    minus the start time. A batch within the maximum size comes back
    marked as processed, with the time of that; a batch that had to be
    split comes back exactly as it was given, still pending: it is its
    sub-batches that are marked. *)
Theorem process_batch_seals_and_marks env fuel self batch st result batch' st' :
  process_batch env fuel self batch st = (Ok (Some (result, batch')), st') ->
  bvr_batch_id result = batch_id batch
  /\ (exists finished, completed_at result = Some finished
                       /\ processing_time result = Some (finished - started_at result))
  /\ (total_accounts batch <= max_batch_size self ->
      exists now, batch' = mark_processed batch now)
  /\ (max_batch_size self < total_accounts batch -> batch' = batch).
Proof.
  destruct fuel as [|fuel]; [done|]. simpl.
  destruct (Z.ltb_spec (max_batch_size self) (total_accounts batch)) as [Hlarge|Hsmall].
  - unfold BatchValidationResult_init, datetime_now. unfold_M.
    intros Hrun.
    repeat (case_match; simplify_eq/=).
    match goal with H : (?o ≫= _) = Some _ |- _ => destruct o; simplify_eq/= end.
    split; [done|]. split; [by eexists|]. split; [lia|done].
  - unfold BatchValidationResult_init, datetime_now. unfold_M.
    intros Hrun.
    repeat (case_match; simplify_eq/=).
    split; [done|]. split; [by eexists|]. split; [|lia].
    intros _. by eexists.
Qed.

Lemma process_batch_seals_and_marks_witness :
  exists result batch' st',
    process_batch (scripted [] (answer 200 valid_body)) 2 (sample_processor 2 false)
      (sample_batch [account_ok; account_blank; account_ok]) (initial_state sample_config)
    = (Ok (Some (result, batch')), st')
    /\ bvr_batch_id result = uuid 0
    /\ batch' = sample_batch [account_ok; account_blank; account_ok]
    /\ batch_status batch' = "pending".
Proof.
  assert (Hrun : exists result batch' st',
             process_batch (scripted [] (answer 200 valid_body)) 2 (sample_processor 2 false)
               (sample_batch [account_ok; account_blank; account_ok])
               (initial_state sample_config)
             = (Ok (Some (result, batch')), st')).
  { eexists _, _, _. vm_compute. reflexivity. }
  destruct Hrun as (result & batch' & st' & Hrun).
  destruct (process_batch_seals_and_marks _ _ _ _ _ _ _ _ Hrun) as (Hid & _ & _ & Hsame).
  exists result, batch', st'. split; [exact Hrun|]. split; [exact Hid|].
  assert (Hb : batch' = sample_batch [account_ok; account_blank; account_ok]).
  { apply Hsame. vm_compute. reflexivity. }
  split; [exact Hb|]. by rewrite Hb.
Defined.

(** X14: a processor built by [BatchProcessor.__init__] from a
    configuration with a positive maximum batch size and a positive
    worker count, and from arguments that are absent, zero (which selects
    the configured value) or positive, returns exactly one result per
    account; its parallel mode is on only when both the argument and the
    configuration ask for it. *)
Theorem constructed_processor_is_sound env fuel config size workers parallel accs st :
  (forall futures, as_completed env futures ≡ₚ futures) ->
  1 <= MAX_BATCH_SIZE config ->
  1 <= WORKER_THREADS config ->
  (forall z, size = Some z -> 0 <= z) ->
  (forall z, workers = Some z -> 0 <= z) ->
  (2 <= fuel)%nat ->
  let self := BatchProcessor_init config size workers parallel in
  1 <= max_batch_size self
  /\ 1 <= worker_threads (validator self)
  /\ use_parallel (validator self) = parallel && ENABLE_PARALLEL_PROCESSING config
  /\ exists rs st',
       process env fuel self accs st = (Ok (Some rs), st')
       /\ length rs = length accs
       /\ map account rs ≡ₚ accs.
Proof.
  intros Hpool Hsize Hworkers Hs Hw Hfuel self.
  assert (Hint : forall x fallback, 1 <= fallback -> (forall z, x = Some z -> 0 <= z) ->
                                    1 <= int_or x fallback).
  { intros [z|] fallback Hf Hx; simpl; [|done].
    destruct (Z.eqb_spec z 0); [done|]. specialize (Hx z eq_refl). lia. }
  assert (Hmax : 1 <= max_batch_size self) by by apply Hint.
  assert (Hpos : 1 <= worker_threads (validator self)).
  { change (1 <= int_or (Some (int_or workers (WORKER_THREADS config)))
                    (WORKER_THREADS config)).
    apply Hint; [done|]. intros z [= <-].
    pose proof (Hint workers (WORKER_THREADS config) Hworkers Hw). lia. }
  split; [exact Hmax|]. split; [exact Hpos|]. split.
  { simpl. by rewrite <- andb_assoc, andb_diag. }
  destruct (process_structure env Hpool self (fun _ => Hpos) fuel accs st Hfuel Hmax)
    as (rs & st' & chunks & per_chunk & Hrun & Hsplit & -> & Hall).
  destruct (split_accounts_concat _ _ _ Hmax Hsplit) as [Hconcat _].
  assert (Hperm : map account (concat per_chunk) ≡ₚ accs).
  { rewrite <- Hconcat. by eapply chunks_outcomes_accounts. }
  exists (concat per_chunk), st'. repeat split; [done| |done].
  by rewrite <- (length_map account), Hperm.
Qed.

Lemma constructed_processor_is_sound_witness :
  max_batch_size (BatchProcessor_init sample_config (Some 0) None true) = 1000
  /\ exists rs st',
       process (scripted [] (answer 200 valid_body)) 2
         (BatchProcessor_init sample_config (Some 0) None true)
         [account_ok; account_blank] (initial_state sample_config)
       = (Ok (Some rs), st')
       /\ length rs = 2%nat.
Proof.
  split; [reflexivity|].
  destruct (constructed_processor_is_sound (scripted [] (answer 200 valid_body)) 2
              sample_config (Some 0) None true [account_ok; account_blank]
              (initial_state sample_config))
    as (_ & _ & _ & rs & st' & Hrun & Hlen & _).
  - intros futures. symmetry. apply Permutation_rev.
  - simpl. lia.
  - simpl. lia.
  - intros z [= <-]. lia.
  - intros z [=].
  - lia.
  - exists rs, st'. split; [exact Hrun|exact Hlen].
Defined.


(** ** The validator, continued *)

Lemma validate_single_malformed env a st :
  _validate_format a = false ->
  validate_single env a st
  = (Ok (failure_result a INVALID (ErrorCode_value INVALID_FORMAT)
           (Value (PyStr "Account number format is invalid"))), st).
Proof. intros H. unfold validate_single, try_except. by rewrite H. Qed.

Lemma mapM_malformed {B} (f : Account -> M B) (g : Account -> B) accs st :
  (forall a s, _validate_format a = false -> f a s = (Ok (g a), s)) ->
  Forall (fun a => _validate_format a = false) accs ->
  mapM f accs st = (Ok (map g accs), st).
Proof.
  intros Hf. induction 1 as [|a accs Ha _ IH]; [done|]. simpl.
  unfold_M. by rewrite (Hf a st Ha), IH.
Qed.

(** X15: [validate_batch] in its two modes. In the sequential mode it
    returns one result per account in the order given. In the parallel
    mode a worker count of zero or below makes it raise before any
    account is looked at, even for an empty list; with a positive count
    the results are those of the accounts given, in some order. In
    either mode a list of accounts that all fail the format check is
    answered with INVALID outcomes of code INVALID_FORMAT and leaves
    the state, and so the network, untouched. *)
Theorem validate_batch_modes env self accs st :
  (forall futures, as_completed env futures ≡ₚ futures) ->
  (use_parallel self = false ->
   exists rs st', validate_batch env self accs st = (Ok rs, st') /\ map account rs = accs)
  /\ (use_parallel self = true -> worker_threads self <= 0 ->
      validate_batch env self accs st = (Raise ValueError, st))
  /\ (use_parallel self = true -> 1 <= worker_threads self ->
      exists rs st', validate_batch env self accs st = (Ok rs, st')
                     /\ map account rs ≡ₚ accs)
  /\ (Forall (fun a => _validate_format a = false) accs ->
      (use_parallel self = true -> 1 <= worker_threads self) ->
      exists rs, validate_batch env self accs st = (Ok rs, st)
                 /\ Forall (fun r => status r = INVALID
                                     /\ error_code r = Some (ErrorCode_value INVALID_FORMAT)) rs).
Proof.
  intros Hpool. split; [|split; [|split]].
  - intros Hmode.
    destruct (validate_batch_total env Hpool self accs st) as (rs & st' & Hrun & Hco).
    { by rewrite Hmode. }
    rewrite Hmode in Hco. by exists rs, st'.
  - intros Hmode Hworkers. unfold validate_batch. rewrite Hmode. simpl.
    by destruct (Z.leb_spec (worker_threads self) 0); [|lia].
  - intros Hmode Hworkers.
    destruct (validate_batch_total env Hpool self accs st) as (rs & st' & Hrun & Hco).
    { done. }
    rewrite Hmode in Hco. by exists rs, st'.
  - intros Hbad Hworkers. unfold validate_batch.
    destruct (use_parallel self); simpl.
    + destruct (Z.leb_spec (worker_threads self) 0); [specialize (Hworkers eq_refl); lia|].
      unfold_M.
      rewrite (mapM_malformed (submit env)
                 (fun a => {| future_account := a;
                              future_outcome := inl (failure_result a INVALID
                                (ErrorCode_value INVALID_FORMAT)
                                (Value (PyStr "Account number format is invalid"))) |}));
        [|intros a s Ha; unfold submit; by rewrite validate_single_malformed|done].
      eexists. split; [done|].
      rewrite Forall_map, Hpool, Forall_map. by apply Forall_true.
    + rewrite (mapM_malformed (validate_single env)
                 (fun a => failure_result a INVALID (ErrorCode_value INVALID_FORMAT)
                             (Value (PyStr "Account number format is invalid"))));
        [|intros a s Ha; by apply validate_single_malformed|done].
      eexists. split; [done|]. rewrite Forall_map. by apply Forall_true.
Qed.

Lemma validate_batch_modes_witness :
  validate_batch (scripted [] (answer 200 valid_body))
    {| use_parallel := true; worker_threads := 0 |} [] (initial_state sample_config)
  = (Raise ValueError, initial_state sample_config)
  /\ exists rs st',
       validate_batch (scripted [] (answer 200 valid_body))
         {| use_parallel := false; worker_threads := 0 |} [account_ok; account_blank]
         (initial_state sample_config)
       = (Ok rs, st')
       /\ map account rs = [account_ok; account_blank].
Proof.
  split.
  - apply (validate_batch_modes (scripted [] (answer 200 valid_body))
             {| use_parallel := true; worker_threads := 0 |} [] (initial_state sample_config));
      [intros futures; symmetry; apply Permutation_rev|reflexivity|simpl; lia].
  - apply (validate_batch_modes (scripted [] (answer 200 valid_body))
             {| use_parallel := false; worker_threads := 0 |} [account_ok; account_blank]
             (initial_state sample_config));
      [intros futures; symmetry; apply Permutation_rev|reflexivity].
Defined.

(** ** The error taxonomy *)

Lemma all_error_codes_complete code : In code all_error_codes.
Proof. destruct code; simpl; auto 20. Qed.

Ltac settle_code :=
  split; [apply in_map, all_error_codes_complete|];
  split; [eexists; reflexivity|];
  split; [reflexivity|];
  intros _; split; [done|reflexivity].

(** X16: whatever the status and the message, [map_pesalink_error]
    returns a code of the enumeration, one that has a description of its
    own, and [classify_error] files it by the status alone: 400 under
    FORMAT_ERROR, 404 under ACCOUNT_ERROR, 401, 403, 429 and everything
    from 500 under SYSTEM_ERROR, anything else under OTHER_ERROR. When
    the message is ASCII text, the code for a 404 is found by searching
    the message without regard to the case of its letters, "account"
    wins over "bank", and lower-casing the message first changes
    nothing. (On other text [str.lower] also changes characters outside
    ASCII, the Kelvin sign into "k" for one; nothing is stated of the
    choice among the three codes of a 404 there.) *)
Theorem mapped_errors_are_classified status message :
  In (map_pesalink_error status message) (map ErrorCode_value all_error_codes)
  /\ is_Some (table_get (map_pesalink_error status message) descriptions)
  /\ classify_error (map_pesalink_error status message)
     = (if status =? 400 then "FORMAT_ERROR"
        else if status =? 404 then "ACCOUNT_ERROR"
        else if (status =? 401) || (status =? 403) || (status =? 429) || (500 <=? status)
             then "SYSTEM_ERROR"
        else "OTHER_ERROR")
  /\ (isascii message = true ->
      (status = 404 ->
       map_pesalink_error status message
       = if str_contains "account" (lower message) then ErrorCode_value ACCOUNT_NOT_FOUND
         else if str_contains "bank" (lower message) then ErrorCode_value BANK_NOT_FOUND
         else ErrorCode_value INVALID_ACCOUNT)
      /\ map_pesalink_error status (lower message) = map_pesalink_error status message).
Proof.
  assert (Hlower : lower (lower message) = lower message).
  { induction message as [|c s IH]; [done|]. simpl. f_equal; [|done].
    unfold lower_ascii.
    destruct ((65 <=? nat_of_ascii c)%nat && (nat_of_ascii c <=? 90)%nat) eqn:Hc; [|by rewrite Hc].
    apply andb_prop in Hc as [H1%Nat.leb_le H2%Nat.leb_le].
    rewrite nat_ascii_embedding by lia.
    by destruct (Nat.leb_spec 65 (nat_of_ascii c + 32)), (Nat.leb_spec (nat_of_ascii c + 32) 90);
      simpl; try lia. }
  unfold map_pesalink_error. rewrite Hlower.
  destruct (Z.eqb_spec status 400) as [->|H400]; [settle_code|].
  destruct (Z.eqb_spec status 404) as [->|H404].
  { destruct (str_contains "account" (lower message)), (str_contains "bank" (lower message));
      settle_code. }
  destruct (Z.eqb_spec status 401) as [->|H401]; [settle_code|].
  destruct (Z.eqb_spec status 403) as [->|H403]; [settle_code|].
  destruct (Z.eqb_spec status 429) as [->|H429]; [settle_code|].
  cbn [orb]. destruct (Z.leb_spec 500 status); settle_code.
Qed.

Lemma mapped_errors_are_classified_witness :
  isascii "Unknown BANK" = true
  /\ map_pesalink_error 404 "Unknown BANK" = ErrorCode_value BANK_NOT_FOUND
  /\ classify_error (map_pesalink_error 404 "Unknown BANK") = "ACCOUNT_ERROR".
Proof.
  destruct (mapped_errors_are_classified 404 "Unknown BANK")
    as (_ & _ & Hclass & Hascii).
  split; [reflexivity|]. split; [|exact Hclass].
  destruct (Hascii eq_refl) as [Hcode _]. exact (Hcode eq_refl).
Defined.

Lemma map_pesalink_error_code status message :
  exists code, map_pesalink_error status message = ErrorCode_value code.
Proof. unfold map_pesalink_error. repeat case_match; by eexists. Qed.

Lemma description_nonempty code :
  truthy (PyStr (get_description (ErrorCode_value code))) = true.
Proof. by destruct code. Qed.

(** X17: the two tables of the error handler cover the enumeration. The
    seventeen codes are pairwise distinct; each has a description of its
    own and falls under FORMAT_ERROR, ACCOUNT_ERROR or SYSTEM_ERROR,
    except UNKNOWN_ERROR, the only one under OTHER_ERROR. A code outside
    the enumeration gets the description "Error code: " followed by the
    code and falls under OTHER_ERROR; so does "EXCEPTION", the code that
    the client gives to what it catches, while the other three codes of
    the pipeline fall under the three named categories. *)
Theorem error_tables_cover_the_enumeration :
  NoDup (map ErrorCode_value all_error_codes)
  /\ (forall code,
        is_Some (table_get (ErrorCode_value code) descriptions)
        /\ get_description (ErrorCode_value code) <> "Error code: " +:+ ErrorCode_value code
        /\ In (classify_error (ErrorCode_value code))
              ["FORMAT_ERROR"; "ACCOUNT_ERROR"; "SYSTEM_ERROR"; "OTHER_ERROR"]
        /\ (classify_error (ErrorCode_value code) = "OTHER_ERROR" <-> code = UNKNOWN_ERROR))
  /\ (forall c, ~ In c (map ErrorCode_value all_error_codes) ->
                get_description c = "Error code: " +:+ c
                /\ classify_error c = "OTHER_ERROR")
  /\ map classify_error ["INVALID_FORMAT"; "INVALID_ACCOUNT"; "API_ERROR"; "EXCEPTION"]
     = ["FORMAT_ERROR"; "ACCOUNT_ERROR"; "SYSTEM_ERROR"; "OTHER_ERROR"].
Proof.
  split; [|split; [|split]].
  - apply (bool_decide_unpack _). by vm_compute.
  - intros code. split; [destruct code; by eexists|]. split; [by destruct code|].
    split; [destruct code; vm_compute; tauto|].
    split; [|by intros ->]. by destruct code.
  - intros c Hc. unfold get_description, classify_error.
    assert (Hne : forall code, String.eqb (ErrorCode_value code) c = false).
    { intros code. destruct (String.eqb_spec (ErrorCode_value code) c) as [<-|]; [|done].
      destruct Hc. apply in_map, all_error_codes_complete. }
    assert (Hne' : forall code, String.eqb c (ErrorCode_value code) = false).
    { intros code. rewrite String.eqb_sym. apply Hne. }
    split.
    + unfold descriptions. cbn [table_get]. by rewrite !Hne.
    + unfold code_in, format_errors, account_errors, system_errors. cbn [existsb].
      by rewrite !Hne'.
  - reflexivity.
Qed.

(** X18: [handle_api_error] reads the message of an error body from its
    "message" member, else from its "error" member, else takes "Unknown
    API error". For a status 404 with a message that is not a text it
    raises; in every other case it returns a code of the enumeration,
    the one [map_pesalink_error] gives, with a message that Python takes
    for true: the message of the body, or the description of the code
    when that message is empty or null. *)
Theorem handle_api_error_result status body :
  (status = 404 -> is_str (api_error_message body) = false ->
   handle_api_error status body = Raise AttributeError)
  /\ (status <> 404 \/ is_str (api_error_message body) = true ->
      exists info,
        handle_api_error status body = Ok info
        /\ In (info_error_code info) (map ErrorCode_value all_error_codes)
        /\ (forall text, api_error_message body = PyStr text ->
                         info_error_code info = map_pesalink_error status text)
        /\ truthy (info_error_message info) = true
        /\ info_error_message info
           = if truthy (api_error_message body) then api_error_message body
             else PyStr (get_description (info_error_code info)))
  /\ (dict_get "message" body = None -> dict_get "error" body = None ->
      api_error_message body = PyStr "Unknown API error").
Proof.
  assert (Hok : forall code message,
            In (ErrorCode_value code) (map ErrorCode_value all_error_codes)
            /\ truthy (info_error_message (handle_error (ErrorCode_value code) message)) = true
            /\ info_error_message (handle_error (ErrorCode_value code) message)
               = if truthy message then message
                 else PyStr (get_description (ErrorCode_value code))).
  { intros code message. split; [apply in_map, all_error_codes_complete|].
    unfold handle_error. cbn [info_error_message].
    destruct (truthy message) eqn:Hm; [done|]. split; [|done]. apply description_nonempty. }
  unfold handle_api_error. split; [|split].
  - intros -> Hstr. by destruct (api_error_message body).
  - intros Hcase.
    destruct (api_error_message body) as [|b|z|f|text|items|entries] eqn:Hmessage.
    5: { destruct (map_pesalink_error_code status text) as [code Hcode].
         eexists. split; [done|]. rewrite Hcode. cbn [info_error_code].
         destruct (Hok code (PyStr text)) as (H1 & H2 & H3).
         split; [done|]. split; [by intros ? [= <-]|]. by split. }
    all: destruct (Z.eqb_spec status 404) as [->|_]; [by destruct Hcase|].
    all: destruct (map_pesalink_error_code status "") as [code Hcode].
    all: eexists; split; [done|]; rewrite Hcode; cbn [info_error_code].
    all: match goal with |- context [handle_error _ ?m] =>
           destruct (Hok code m) as (H1 & H2 & H3) end.
    all: split; [done|]; split; [done|]; by split.
  - intros Hm He. unfold api_error_message. by rewrite Hm, He.
Qed.

Lemma handle_api_error_result_witness :
  handle_api_error 404 [("message", PyInt 7)] = Raise AttributeError
  /\ exists info,
       handle_api_error 404 [("error", PyStr "No such bank")] = Ok info
       /\ info_error_code info = ErrorCode_value BANK_NOT_FOUND
       /\ info_error_message info = PyStr "No such bank".
Proof.
  destruct (handle_api_error_result 404 [("message", PyInt 7)]) as (Hraise & _).
  destruct (handle_api_error_result 404 [("error", PyStr "No such bank")]) as (_ & Hreturn & _).
  split; [by apply Hraise|].
  destruct Hreturn as (info & Hrun & _ & Hcode & _ & Hmessage); [by right|].
  exists info. split; [exact Hrun|]. split; [exact (Hcode _ eq_refl)|exact Hmessage].
Defined.

(** ** Accounts and dicts *)

(** X19: reading back the dict that [to_dict] writes gives the account
    again, whatever [float] does on integers and texts. A dict without
    "account_number" or without "bank_code" is read as an account that
    both format checks refuse; the other absent members get their
    defaults (no amount is 0.0, no currency is "KES", no reference is
    the empty text); an "amount" that is null, a list or an object makes
    [from_dict] raise. *)
Theorem account_dict_round_trip float_of_int float_of_str :
  (forall a, from_dict float_of_int float_of_str (to_dict a) = Ok a)
  /\ (forall data a,
        from_dict float_of_int float_of_str data = Ok a ->
        (dict_get "account_number" data = None \/ dict_get "bank_code" data = None ->
         _validate_format a = false /\ validate_format a = false)
        /\ (dict_get "amount" data = None -> amount a = 0%float)
        /\ (dict_get "currency" data = None -> currency a = PyStr "KES")
        /\ (dict_get "reference_id" data = None -> reference_id a = PyStr ""))
  /\ (forall data v,
        dict_get "amount" data = Some v ->
        v = PyNone \/ is_dict v = true \/ (exists items, v = PyList items) ->
        from_dict float_of_int float_of_str data = Raise TypeError).
Proof.
  split; [|split].
  - by intros [].
  - intros data a. unfold from_dict.
    destruct (py_float _ _ _) as [value|e] eqn:Hamount; [|done].
    intros [= <-]. unfold _validate_format, validate_format. cbn.
    split; [|split; [|split]].
    + by intros [-> | ->]; [|rewrite !orb_true_r; destruct (truthy _)].
    + intros Hnone. rewrite Hnone in Hamount. by injection Hamount as <-.
    + by intros ->.
    + by intros ->.
  - intros data v Hv Hkind. unfold from_dict. rewrite Hv. simpl.
    by destruct Hkind as [->|[Hd|[items ->]]]; [|destruct v|].
Qed.
(** ** The retry schedule, whatever the network does *)

Section Schedule.
Variable env : Env.

(** One pass through the loop: it ends the call after its request, or
    it sleeps and goes on; it goes on exactly when the attempt is not
    the last, the failure is one that is retried, and [time.sleep] goes
    through with the delay. *)
Lemma loop_step_cases method url data attempt rest st :
  let st1 := advance_net (record_event (EvHttp method url data) st) in
  ((exists res, _make_request_loop env method url data (attempt :: rest) st = (res, st1))
   /\ (max_retries (client st) - 1 <= attempt
       \/ retried (net env (net_pos st)) = false
       \/ sleeps_through env (S (net_pos st)) (retry_delay (client st) * 2 ^ attempt) = false))
  \/ (attempt < max_retries (client st) - 1
      /\ retried (net env (net_pos st)) = true
      /\ sleeps_through env (S (net_pos st)) (retry_delay (client st) * 2 ^ attempt) = true
      /\ _make_request_loop env method url data (attempt :: rest) st
         = _make_request_loop env method url data rest
             (record_event (EvSleep (retry_delay (client st) * 2 ^ attempt)) st1)).
Proof.
  intros st1.
  destruct (Z.ltb_spec attempt (max_retries (client st) - 1)) as [Hlt|Hge]; cycle 1.
  { left. split; [|by left].
    cbn [_make_request_loop].
    unfold get_client, requests_request, raise_for_status, response_json. unfold_M.
    destruct (Z.ltb_spec attempt (max_retries (client st) - 1)); [lia|].
    destruct (net env (net_pos st)); simpl; repeat case_match; simplify_eq/=; by eexists. }
  destruct (retried (net env (net_pos st))) eqn:Hnet; cycle 1.
  { left. split; [|by right; left].
    cbn [_make_request_loop].
    unfold get_client, requests_request, raise_for_status, response_json, time_sleep. unfold_M.
    destruct (net env (net_pos st)) as [| | | |r|r]; simpl in *; try done; try by eexists.
    - repeat case_match; simplify_eq/=; try by eexists.
      all: exfalso; lia.
    - apply negb_false_iff in Hnet. rewrite Hnet.
      repeat case_match; simplify_eq/=; by eexists. }
  destruct (sleeps_through env (S (net_pos st)) (retry_delay (client st) * 2 ^ attempt))
    eqn:Hsleep.
  { right. split; [done|]. split; [done|]. split; [done|]. by apply loop_step_retry. }
  left. split; [|by right; right].
  assert (Hnap : exists e, time_sleep env (retry_delay (client st) * 2 ^ attempt) st1
                           = (Raise e, st1)).
  { unfold sleeps_through in Hsleep. unfold time_sleep.
    change (net_pos st1) with (S (net_pos st)).
    destruct (Z.ltb_spec (retry_delay (client st) * 2 ^ attempt) (-9223372036));
      [by eexists|].
    destruct (Z.ltb_spec 9223372036 (retry_delay (client st) * 2 ^ attempt));
      [by eexists|].
    destruct (Z.ltb_spec (retry_delay (client st) * 2 ^ attempt) 0); [by eexists|].
    simpl. destruct (sleep_refused env (S (net_pos st))); [by eexists|].
    exfalso. simpl in Hsleep. rewrite andb_true_r in Hsleep.
    apply andb_false_iff in Hsleep as [?|?]; lia. }
  destruct Hnap as [e Hnap].
  cbn [_make_request_loop].
  unfold get_client, requests_request, raise_for_status, response_json. unfold_M.
  fold st1.
  destruct (Z.ltb_spec attempt (max_retries (client st) - 1)); [|lia].
  destruct (net env (net_pos st)) as [| | | |r|r]; simpl in *; try done;
    fold st1; try (rewrite Hnap; by eexists).
  - apply andb_prop in Hnet as [H5 H6].
    assert ((400 <=? status_code r) = true) as -> by lia.
    rewrite H6. simpl.
    assert ((status_code r <? 500) = false) as -> by lia.
    rewrite andb_false_r. simpl.
    destruct (Z.ltb_spec attempt (max_retries (client st) - 1)); [|lia].
    fold st1. rewrite Hnap. by eexists.
  - apply negb_true_iff in Hnet. rewrite Hnet.
    destruct (Z.ltb_spec attempt (max_retries (client st) - 1)); [|lia].
    fold st1. rewrite Hnap. by eexists.
Qed.

Lemma loop_schedule method url data (n first : nat) st :
  (1 <= n)%nat ->
  Z.of_nat (first + n) = max_retries (client st) ->
  exists k : nat,
    (k < n)%nat
    /\ trace (snd (_make_request_loop env method url data (map Z.of_nat (seq first n)) st))
       = trace st ++ backoff_trace (EvHttp method url data) (retry_delay (client st))
                       (Z.of_nat first) k
                  ++ [EvHttp method url data]
    /\ net_pos (snd (_make_request_loop env method url data (map Z.of_nat (seq first n)) st))
       = (net_pos st + S k)%nat
    /\ (forall i, (i < k)%nat ->
          retried (net env (net_pos st + i)) = true
          /\ sleeps_through env (net_pos st + S i)
               (retry_delay (client st) * 2 ^ Z.of_nat (first + i)) = true)
    /\ (k = (n - 1)%nat
        \/ retried (net env (net_pos st + k)) = false
        \/ sleeps_through env (net_pos st + S k)
             (retry_delay (client st) * 2 ^ Z.of_nat (first + k)) = false).
Proof.
  revert first st. induction n as [|n IH]; intros first st Hn Hmax; [lia|].
  cbn [seq map].
  destruct (loop_step_cases method url data (Z.of_nat first) (map Z.of_nat (seq (S first) n)) st)
    as [[[res Hrun] Hwhy]|(Hlt & Hnet & Hdelay & Hrun)].
  - exists 0%nat. rewrite Hrun. simpl. rewrite !Nat.add_0_r, Nat.add_1_r.
    split; [lia|]. split; [done|]. split; [lia|]. split; [intros; lia|].
    destruct Hwhy as [Hlast|[Hno|Hneg]]; [left; lia|by right; left|by right; right].
  - rewrite Hrun.
    set (st2 := record_event _ (advance_net _)).
    destruct (IH (S first) st2) as (k & Hk & Ht & Hp & Hretried & Hwhy);
      [lia|simpl; lia|].
    exists (S k). rewrite Ht, Hp. subst st2. simpl.
    split; [lia|]. split.
    { rewrite <- !app_assoc. simpl.
      by replace (Z.of_nat first + 1) with (Z.of_nat (S first)) by lia. }
    split; [lia|]. split.
    { intros [|i] Hi.
      - by rewrite !Nat.add_0_r, Nat.add_1_r.
      - destruct (Hretried i ltac:(lia)) as [Hr Hs]. simpl in Hr, Hs.
        rewrite !Nat.add_succ_r. split; [done|].
        by rewrite Nat.add_succ_r in Hs. }
    destruct Hwhy as [->|[Hno|Hneg]]; [left; lia|right; left|right; right].
    + simpl in Hno. by rewrite Nat.add_succ_r.
    + simpl in Hneg. by rewrite !Nat.add_succ_r in *.
Qed.

(** X20: the calls of one validation, for every behaviour of the network
    and of [time.sleep]. With [max_retries] at least one, the events of
    [validate_account] after the credential step are, for some [k]
    below [max_retries]: [k] times the call of [requests.request]
    followed by a sleep of [retry_delay * 2 ^ i], [i] from 0 to
    [k - 1], then the call once more, and nothing else. Each of the [k]
    attempts that were retried met a failure that the loop retries (a
    connection failure, a timeout, a status from 500 to 599, or an
    exception of the library that carries a response whose status is
    not from 400 to 499, as [TooManyRedirects] does) and [time.sleep]
    went through with its delay; the attempt after them was the last
    one allowed, or met anything else, or [time.sleep] raised on its
    delay (a negative one, one above 9223372036 seconds, or one that
    the platform refuses). The validation uses [k + 1] outcomes of the
    library. *)
Theorem validate_account_follows_backoff a st key st1 :
  _get_api_key env st = (Ok key, st1) ->
  1 <= max_retries (client st) ->
  let request := EvHttp "POST" (base_url (client st) +:+ "/api/validate") (request_data a) in
  exists k : nat,
    Z.of_nat k < max_retries (client st)
    /\ trace (snd (validate_account env a st))
       = trace st1 ++ backoff_trace request (retry_delay (client st)) 0 k ++ [request]
    /\ sleeps_of (backoff_trace request (retry_delay (client st)) 0 k ++ [request])
       = map (fun i => retry_delay (client st) * 2 ^ Z.of_nat i) (seq 0 k)
    /\ net_pos (snd (validate_account env a st)) = (net_pos st1 + S k)%nat
    /\ (forall i, (i < k)%nat ->
          retried (net env (net_pos st1 + i)) = true
          /\ sleeps_through env (net_pos st1 + S i)
               (retry_delay (client st) * 2 ^ Z.of_nat i) = true)
    /\ (Z.of_nat k = max_retries (client st) - 1
        \/ retried (net env (net_pos st1 + k)) = false
        \/ sleeps_through env (net_pos st1 + S k)
             (retry_delay (client st) * 2 ^ Z.of_nat k) = false).
Proof.
  intros Hkey Hmax request.
  destruct (get_api_key_settings env _ _ _ Hkey) as (Hm & Hd & _).
  destruct (loop_schedule "POST" (base_url (client st) +:+ "/api/validate") (request_data a)
              (Z.to_nat (max_retries (client st))) 0 st1)
    as (k & Hk & Ht & Hp & Hretried & Hwhy); [lia|rewrite Hm; lia|].
  rewrite Hd in Ht, Hwhy. fold request in Ht.
  assert (Hsame : snd (validate_account env a st)
                  = snd (_make_request_loop env "POST"
                           (base_url (client st) +:+ "/api/validate") (request_data a)
                           (map Z.of_nat (seq 0 (Z.to_nat (max_retries (client st))))) st1)).
  { unfold validate_account. unfold_M.
    rewrite (make_request_with_key env _ _ _ _ _ _ Hkey). unfold range.
    destruct (_make_request_loop _ _ _ _ _ _) as [[reply|e] st2]; simpl; [|done].
    unfold has_error_member, reply_get. unfold_M.
    repeat (case_match; simplify_eq/=); done. }
  rewrite Hsame. exists k.
  split; [lia|]. split; [exact Ht|]. split.
  { unfold sleeps_of. rewrite flat_map_app.
    fold (sleeps_of (backoff_trace request (retry_delay (client st)) 0 k)).
    rewrite backoff_sleeps by done. simpl. by rewrite app_nil_r. }
  split; [exact Hp|]. split.
  { intros i Hi. destruct (Hretried i Hi) as [Hr Hs]. by rewrite Hd in Hs. }
  destruct Hwhy as [->|[Hno|Hneg]]; [left; lia|by right; left|by right; right].
Qed.

End Schedule.

Lemma validate_account_follows_backoff_witness :
  exists k : nat,
    (k < 3)%nat
    /\ trace (snd (validate_account
                     (scripted [NetTimeout; answer 502 Garbled] (answer 404 not_found_body))
                     account_ok (initial_state sample_config)))
       = backoff_trace (EvHttp "POST" sample_url (request_data account_ok)) 2 0 k
         ++ [EvHttp "POST" sample_url (request_data account_ok)].
Proof.
  destruct (validate_account_follows_backoff
              (scripted [NetTimeout; answer 502 Garbled] (answer 404 not_found_body))
              account_ok (initial_state sample_config) (PyStr "secret")
              (initial_state sample_config))
    as (k & Hk & Htrace & _).
  - reflexivity.
  - simpl. lia.
  - exists k. split; [simpl in Hk; lia|exact Htrace].
Defined.

(** ** Where the requests go *)

Lemma count_events_none (f : Event -> bool) evs :
  count_events (fun ev => negb (f ev)) evs = 0%nat -> Forall (fun ev => f ev = true) evs.
Proof.
  unfold count_events. induction evs as [|ev evs IH]; [done|]. simpl.
  destruct (f ev) eqn:Hev; simpl; [|done]. intros H. constructor; auto.
Qed.

Lemma endpoint_event_key b :
  endpoint_event b (EvHttp "GET" (b +:+ "/api/key") PyNone) = true.
Proof. unfold endpoint_event. rewrite !String.eqb_refl. by rewrite ?orb_true_r. Qed.

Lemma endpoint_event_validate b a :
  endpoint_event b (EvHttp "POST" (b +:+ "/api/validate") (request_data a)) = true.
Proof. unfold endpoint_event. rewrite !String.eqb_refl. by rewrite ?orb_true_r. Qed.

(** X21: whatever the outcomes of the calls, every call of the
    requests library that [process] makes is one of two: the GET of the
    credential, with the URL "/api/key" under the base URL of the
    client and without payload, or a POST with the URL "/api/validate"
    under that base URL whose payload holds the account number and the
    bank code of an account of the input that passes the format check.
    No other URL and nothing else of an account is handed to the
    library, and the base URL is never changed. (Where the library goes
    when the service answers with a redirection is not part of the
    statement.) *)
Theorem process_talks_to_the_service_only env fuel self accs st :
  exists evs,
    trace (snd (process env fuel self accs st)) = trace st ++ evs
    /\ Forall (fun ev =>
                 match ev with
                 | EvSleep _ => True
                 | EvHttp method url payload =>
                   (method = "GET" /\ url = base_url (client st) +:+ "/api/key"
                    /\ payload = PyNone)
                   \/ (method = "POST" /\ url = base_url (client st) +:+ "/api/validate"
                       /\ exists a, In a accs /\ _validate_format a = true
                                    /\ payload = request_data a)
                 end) evs
    /\ base_url (client (snd (process env fuel self accs st))) = base_url (client st).
Proof.
  destruct (costs_process env (fun ev => negb (endpoint_event (base_url (client st)) ev))
              (fun s => base_url (client s) = base_url (client st)))
    with (fetch_cost := 0%nat) (call_cost := 0%nat)
         (fuel := fuel) (self := self) (accs := accs) (st := st)
    as (evs & Ht & Hnone & Hsame).
  { intros s s' Hc Hs. by rewrite Hc. }
  { done. }
  { intros s Hs _. unfold count_events. cbn [List.filter].
    by rewrite Hs, endpoint_event_key. }
  { intros s key Hs _. exact Hs. }
  { intros s a Hs. unfold count_events. cbn [List.filter].
    rewrite Hs, endpoint_event_validate. simpl. lia. }
  { done. }
  destruct (emits_process env fuel self accs st) as (evs' & Ht' & Hchecked).
  rewrite Ht in Ht'. apply app_inv_head in Ht'. subst evs'.
  exists evs. split; [exact Ht|]. split; [|exact Hsame].
  assert (Hallowed : Forall (fun ev => endpoint_event (base_url (client st)) ev = true) evs).
  { apply count_events_none. lia. }
  rewrite Forall_forall in Hallowed, Hchecked. apply Forall_forall. intros ev Hin.
  specialize (Hallowed ev Hin). destruct (Hchecked ev Hin) as (a & Ha & Hok & Hev).
  destruct ev as [method url payload|]; [|done]. simpl in Hallowed, Hev.
  apply orb_prop in Hallowed as [Hget|Hpost].
  - left. apply andb_prop in Hget as [[Hm%String.eqb_eq Hu%String.eqb_eq]%andb_prop Hp].
    by destruct payload.
  - right. apply andb_prop in Hpost as [[Hm%String.eqb_eq Hu%String.eqb_eq]%andb_prop Hp].
    split; [done|]. split; [done|]. exists a.
    destruct Hev as [->|Hdata]; [done|]. done.
Qed.

(** ** Settings that lose the run *)

Section Refused.
Variable env : Env.
Variable self : BatchProcessor.

Lemma process_batch_zero_size fuel batch st :
  max_batch_size self = 0 ->
  accounts batch <> [] ->
  total_accounts batch = Z.of_nat (length (accounts batch)) ->
  process_batch env (S fuel) self batch st = (Raise ValueError, st).
Proof.
  intros Hzero Hne Htotal. cbn [process_batch].
  assert (Hlen : 0 < Z.of_nat (length (accounts batch))).
  { destruct (accounts batch); [done|simpl; lia]. }
  destruct (Z.ltb_spec (max_batch_size self) (total_accounts batch)); [|lia].
  apply bind_Raise. rewrite Hzero. unfold Batch_split.
  by destruct (Z.leb_spec (Z.of_nat (length (accounts batch))) 0); [lia|].
Qed.

Hypothesis parallel_mode : use_parallel (validator self) = true.
Hypothesis no_worker : worker_threads (validator self) <= 0.

Lemma process_batch_no_worker fuel batch st :
  total_accounts batch <= max_batch_size self ->
  exists st', process_batch env (S fuel) self batch st = (Raise ValueError, st')
              /\ trace st' = trace st.
Proof.
  intros Hsmall. cbn [process_batch].
  destruct (Z.ltb_spec (max_batch_size self) (total_accounts batch)); [lia|].
  unfold BatchValidationResult_init, datetime_now, validate_batch. unfold_M.
  rewrite parallel_mode. simpl.
  destruct (Z.leb_spec (worker_threads (validator self)) 0); [|lia].
  by eexists.
Qed.

Lemma process_batch_split_no_worker fuel batch st :
  1 <= max_batch_size self ->
  accounts batch <> [] ->
  total_accounts batch = Z.of_nat (length (accounts batch)) ->
  max_batch_size self < total_accounts batch ->
  exists st', process_batch env (S (S fuel)) self batch st = (Raise ValueError, st')
              /\ trace st' = trace st.
Proof.
  intros Hmax Hne Htotal Hlarge.
  destruct (Batch_split_large env batch (max_batch_size self) st)
    as (subs & st1 & Hsplit & Hchunks & _ & Hsubs & _ & _ & Ht1); [done|lia|].
  destruct (split_accounts_concat _ _ _ Hmax Hchunks) as [Hconcat Hshort].
  destruct subs as [|sub subs].
  { simpl in Hconcat. congruence. }
  apply Forall_cons in Hsubs as [[_ Hsub] _].
  simpl in Hshort. apply Forall_cons in Hshort as [Hshort _].
  destruct (process_batch_no_worker fuel sub st1) as (st2 & Hrun & Ht2); [lia|].
  exists st2. split; [|by rewrite Ht2].
  remember (S fuel) as fuel' eqn:Hfuel. cbn [process_batch].
  destruct (Z.ltb_spec (max_batch_size self) (total_accounts batch)); [|lia].
  rewrite (bind_Ok _ _ _ _ _ Hsplit). apply bind_Raise.
  cbn [foldM]. apply bind_Raise. by apply bind_Raise.
Qed.

End Refused.

(** X22: two settings make [process] raise for every input that is not
    empty, so that no account gets a result, and without anything being
    sent: a maximum batch size of zero (the step of the range that cuts
    the batch), and, with a maximum batch size of at least one, the
    parallel mode with a worker count of zero or below (the thread pool
    refuses it). *)
Theorem process_refuses_misconfiguration env fuel self accs st :
  accs <> [] ->
  (2 <= fuel)%nat ->
  (max_batch_size self = 0
   \/ (1 <= max_batch_size self /\ use_parallel (validator self) = true
       /\ worker_threads (validator self) <= 0)) ->
  fst (process env fuel self accs st) = Raise ValueError
  /\ trace (snd (process env fuel self accs st)) = trace st.
Proof.
  intros Hne Hfuel Hcase.
  destruct fuel as [|[|fuel]]; [lia..|].
  destruct accs as [|a accs]; [done|].
  set (all := a :: accs) in *.
  unfold process. cbn [all]. fold all.
  erewrite bind_Ok by reflexivity. erewrite bind_Ok by reflexivity.
  match goal with |- context [(process_batch env _ self ?b ≫= _) ?s] =>
    set (batch := b); set (st0 := s) end.
  assert (Hrun : exists st', process_batch env (S (S fuel)) self batch st0 = (Raise ValueError, st')
                             /\ trace st' = trace st).
  { destruct Hcase as [Hzero|(Hmax & Hmode & Hworkers)].
    - exists st0. split; [|done]. by apply process_batch_zero_size.
    - destruct (Z.le_gt_cases (total_accounts batch) (max_batch_size self)) as [Hsmall|Hlarge].
      + destruct (process_batch_no_worker env self Hmode Hworkers (S fuel) batch st0)
          as (st' & Hrun & Ht); [done|].
        exists st'. split; [done|]. by rewrite Ht.
      + destruct (process_batch_split_no_worker env self Hmode Hworkers fuel batch st0)
          as (st' & Hrun & Ht); [done..|].
        exists st'. split; [done|]. by rewrite Ht. }
  destruct Hrun as (st' & Hrun & Ht).
  by rewrite (bind_Raise _ _ _ _ _ Hrun).
Qed.

Lemma process_refuses_misconfiguration_witness :
  fst (process (scripted [] (answer 200 valid_body)) 2
         (BatchProcessor_init (retry_config 3 2) (Some 1) (Some (-2)) true)
         [account_ok; account_blank] (initial_state sample_config))
  = Raise ValueError
  /\ trace (snd (process (scripted [] (answer 200 valid_body)) 2
                   (BatchProcessor_init (retry_config 3 2) (Some 1) (Some (-2)) true)
                   [account_ok; account_blank] (initial_state sample_config)))
     = trace (initial_state sample_config).
Proof.
  apply (process_refuses_misconfiguration (scripted [] (answer 200 valid_body)) 2
           (BatchProcessor_init (retry_config 3 2) (Some 1) (Some (-2)) true)
           [account_ok; account_blank] (initial_state sample_config)).
  - discriminate.
  - lia.
  - right. split; [simpl; lia|]. split; [reflexivity|simpl; lia].
Defined.

(** ** Reading accounts from JSON *)

Lemma dict_get_set_eq key v entries : dict_get key (dict_set key v entries) = Some v.
Proof.
  induction entries as [|[k x] rest IH]; simpl; [by rewrite String.eqb_refl|].
  destruct (String.eqb_spec k key) as [->|Hne]; simpl.
  - by rewrite String.eqb_refl.
  - by destruct (String.eqb_spec k key).
Qed.

Lemma dict_get_set_ne key key' v entries :
  key <> key' -> dict_get key' (dict_set key v entries) = dict_get key' entries.
Proof.
  intros Hne. induction entries as [|[k x] rest IH]; simpl.
  - by destruct (String.eqb_spec key key').
  - destruct (String.eqb_spec k key) as [->|Hk]; simpl.
    + by destruct (String.eqb_spec key key').
    + by rewrite IH.
Qed.

Section ParserFacts.
Variable float_of_int : Z -> Res float.
Variable float_of_str : string -> Res float.

Lemma parse_entry_account i v a :
  parse_entry float_of_int float_of_str i v = Some a ->
  truthy (reference_id a) = true
  /\ account_number a = entry_get "account_number" v
  /\ bank_code a = entry_get "bank_code" v.
Proof.
  destruct v as [| | | | | |entries]; try done. unfold parse_entry, from_dict.
  destruct (truthy (default PyNone (dict_get "reference_id" entries))) eqn:Href; simpl.
  - destruct (py_float _ _ _) as [value|e]; [|done]. intros [= <-]. simpl.
    split; [|done]. by destruct (dict_get "reference_id" entries).
  - rewrite dict_get_set_eq, !dict_get_set_ne by done.
    destruct (py_float _ _ _) as [value|e]; [|done]. by intros [= <-].
Qed.

Lemma parse_entry_plain i v :
  plain_entry v = true -> is_Some (parse_entry float_of_int float_of_str i v).
Proof.
  destruct v as [| | | | | |entries]; try done. unfold plain_entry, parse_entry, from_dict.
  intros Hplain.
  assert (Hamount : forall entries',
            dict_get "amount" entries' = dict_get "amount" entries ->
            exists value, py_float float_of_int float_of_str
                            (default (PyFloat 0) (dict_get "amount" entries')) = Ok value).
  { intros entries' ->. destruct (dict_get "amount" entries) as [[]|]; try done; by eexists. }
  destruct (negb (truthy (default PyNone (dict_get "reference_id" entries)))).
  - destruct (Hamount (dict_set "reference_id" (reference_for i) entries)) as [value ->];
      [by apply dict_get_set_ne|]. by eexists.
  - destruct (Hamount entries) as [value ->]; [done|]. by eexists.
Qed.

Lemma parse_entries_accounts i items :
  (length (parse_entries float_of_int float_of_str i items) <= length items)%nat
  /\ Forall (fun a => truthy (reference_id a) = true)
       (parse_entries float_of_int float_of_str i items)
  /\ (forallb plain_entry items = true ->
      map account_number (parse_entries float_of_int float_of_str i items)
      = map (entry_get "account_number") items
      /\ map bank_code (parse_entries float_of_int float_of_str i items)
         = map (entry_get "bank_code") items).
Proof.
  revert i. induction items as [|v items IH]; intros i; simpl; [done|].
  destruct (IH (S i)) as (Hlen & Href & Hplain).
  destruct (parse_entry float_of_int float_of_str i v) as [a|] eqn:Hentry.
  - destruct (parse_entry_account i v a Hentry) as (Hr & Hn & Hb). simpl.
    split; [lia|]. split; [by constructor|].
    intros [_ Hrest]%andb_prop. destruct (Hplain Hrest) as [-> ->]. by rewrite Hn, Hb.
  - split; [lia|]. split; [done|].
    intros [Hv _]%andb_prop.
    destruct (parse_entry_plain i v Hv) as [a Ha]. congruence.
Qed.

End ParserFacts.

(** X23: [_parse_json] on a document that is a list never raises, and
    neither does it on an object whose "accounts" member is a list. It
    returns at most one account per entry (an entry for which something
    is raised is skipped), each with a reference that Python takes for
    true (the entry's own, or "REF-" and the position when the entry
    has none). When
    every entry is an object whose amount is absent or a float, every
    entry gives an account, whose number and bank code are the entry's
    own values, unchanged and unchecked: a missing member is read as
    None and a JSON number stays a number. A document that is neither a
    list nor an object with "accounts" raises ValueError, and what
    loading the file raised is raised again. *)
Theorem parse_json_entries float_of_int float_of_str :
  (forall items,
     exists accs,
       _parse_json float_of_int float_of_str (Ok (PyList items)) = Ok accs
       /\ (forall other,
             dict_get "accounts" other = Some (PyList items) ->
             _parse_json float_of_int float_of_str (Ok (PyDict other)) = Ok accs)
       /\ (length accs <= length items)%nat
       /\ Forall (fun a => truthy (reference_id a) = true) accs
       /\ (forallb plain_entry items = true ->
           length accs = length items
           /\ map account_number accs = map (entry_get "account_number") items
           /\ map bank_code accs = map (entry_get "bank_code") items))
  /\ (forall data,
        match data with
        | PyList _ => False
        | PyDict entries => dict_get "accounts" entries = None
        | _ => True
        end ->
        _parse_json float_of_int float_of_str (Ok data) = Raise ValueError)
  /\ (forall e, _parse_json float_of_int float_of_str (Raise e) = Raise e).
Proof.
  split; [|split].
  - intros items.
    destruct (parse_entries_accounts float_of_int float_of_str 1 items) as (Hlen & Href & Hplain).
    eexists. split; [reflexivity|]. split; [|split; [exact Hlen|split; [exact Href|]]].
    + intros other Hother. unfold _parse_json, dict_has. by rewrite Hother.
    + intros Hall. destruct (Hplain Hall) as [Hn Hb]. split; [|done].
      by rewrite <- (length_map account_number), Hn, length_map.
  - intros data Hdata. unfold _parse_json, dict_has.
    destruct data as [| | | | | |entries]; try done. by rewrite Hdata.
  - done.
Qed.

(** X24: from the document to the results. For a JSON list whose
    entries are objects with an amount that is absent or a float, under
    the conditions of C1, the accounts that [_parse_json] reads are
    given by [process] exactly one result each: there are as many
    results as entries, and the account numbers of the results are those
    of the entries, each as often as it occurs. *)
Theorem json_entries_get_results env fuel self float_of_int float_of_str items st :
  (forall futures, as_completed env futures ≡ₚ futures) ->
  (use_parallel (validator self) = true -> 1 <= worker_threads (validator self)) ->
  1 <= max_batch_size self ->
  (2 <= fuel)%nat ->
  forallb plain_entry items = true ->
  exists accs rs st',
    _parse_json float_of_int float_of_str (Ok (PyList items)) = Ok accs
    /\ process env fuel self accs st = (Ok (Some rs), st')
    /\ length rs = length items
    /\ map (fun r => account_number (account r)) rs ≡ₚ map (entry_get "account_number") items
    /\ map (fun r => bank_code (account r)) rs ≡ₚ map (entry_get "bank_code") items.
Proof.
  intros Hpool Hworkers Hmax Hfuel Hplain.
  destruct (parse_entries_accounts float_of_int float_of_str 1 items) as (_ & _ & Hfields).
  destruct (Hfields Hplain) as [Hn Hb].
  set (accs := parse_entries float_of_int float_of_str 1 items) in *.
  destruct (process_structure env Hpool self Hworkers fuel accs st Hfuel Hmax)
    as (rs & st' & chunks & per_chunk & Hrun & Hsplit & -> & Hall).
  destruct (split_accounts_concat _ _ _ Hmax Hsplit) as [Hconcat _].
  assert (Hperm : map account (concat per_chunk) ≡ₚ accs).
  { rewrite <- Hconcat. by eapply chunks_outcomes_accounts. }
  exists accs, (concat per_chunk), st'.
  split; [done|]. split; [exact Hrun|]. split; [|split].
  - by rewrite <- (length_map account), Hperm, <- (length_map account_number), Hn, length_map.
  - rewrite <- Hn, <- Hperm. by rewrite map_map.
  - rewrite <- Hb, <- Hperm. by rewrite map_map.
Qed.

Lemma json_entries_get_results_witness :
  exists accs rs st',
    _parse_json (fun _ => Raise OtherException) (fun _ => Raise ValueError)
      (Ok (PyList [PyDict [("account_number", PyInt 1234567890); ("bank_code", PyStr "01")];
                   PyDict [("bank_code", PyStr "01"); ("amount", PyFloat 10)]]))
    = Ok accs
    /\ process (scripted [] (answer 200 valid_body)) 2 (sample_processor 2 true) accs
         (initial_state sample_config)
       = (Ok (Some rs), st')
    /\ length rs = 2%nat
    /\ map (fun r => account_number (account r)) rs ≡ₚ [PyInt 1234567890; PyNone].
Proof.
  destruct (json_entries_get_results (scripted [] (answer 200 valid_body)) 2
              (sample_processor 2 true) (fun _ => Raise OtherException)
              (fun _ => Raise ValueError)
              [PyDict [("account_number", PyInt 1234567890); ("bank_code", PyStr "01")];
               PyDict [("bank_code", PyStr "01"); ("amount", PyFloat 10)]]
              (initial_state sample_config))
    as (accs & rs & st' & Hparse & Hrun & Hlen & Hnumbers & _).
  - intros futures. symmetry. apply Permutation_rev.
  - intros _. vm_compute. discriminate.
  - vm_compute. discriminate.
  - lia.
  - reflexivity.
  - exists accs, rs, st'.
    split; [exact Hparse|]. split; [exact Hrun|]. split; [exact Hlen|exact Hnumbers].
Defined.
